(** * termaite: the Plan/Act/Evaluate orchestrator and its context compactor

    A shallow embedding of
      - [termaite/llm/parsers.py]            (tag extraction, decision splitting),
      - [termaite/core/context_compactor.py] (token estimate, compaction pass,
                                              session store round trip),
      - [termaite/core/task_handler.py]      (command gate, the three phases and
                                              their retry loops, evaluator
                                              decision routing, the task loop),
      - [termaite/commands/executor.py]      (command results, help lookup),
      - [termaite/core/application.py]       (the interactive session's history),
      - [termaite/core/project_initialization.py] (the investigation summary),
    followed by the properties established about them.

    Conventions.  Python [str] is [string] (a sequence of characters, [len] is
    [String.length]); a character is a code point below 256, and [isspace],
    [lower] and [splitlines] treat each of them as Python does; Python [int]
    is [Z], except lengths and list indices,
    which are [nat]; [None] is [None]; an index sentinel [-1] is kept as the
    integer [-1].  The collaborators the code calls but does not define (model
    transport, payload builder, permission manager, command executor, terminal)
    are fields of the object that owns them or scripted parts of the [World]. *)

From Stdlib Require Import ZArith String Ascii.
From stdpp Require Import gmap strings list pretty sorting.

Open Scope string_scope.

(** ** Python built-ins used by the sources *)
Module Py.

Definition nl : string := String (ascii_of_nat 10) "".

(** ["\n".join(parts)] *)
Fixpoint join (sep : string) (parts : list string) : string :=
  match parts with
  | [] => ""
  | [p] => p
  | p :: rest => p +:+ sep +:+ join sep rest
  end.

Definition lines (parts : list string) : string := join nl parts.

(** [needle in hay] *)
Fixpoint contains (needle hay : string) : bool :=
  String.prefix needle hay ||
  match hay with
  | EmptyString => false
  | String _ rest => contains needle rest
  end.

Fixpoint drop (n : nat) (s : string) : string :=
  match n, s with
  | O, _ => s
  | S n', String _ rest => drop n' rest
  | S _, EmptyString => EmptyString
  end.

(** [s.partition(sep)] restricted to the case where [sep] occurs:
    the text before the first occurrence and the text after it. *)
Fixpoint split_once (sep s : string) : option (string * string) :=
  if String.prefix sep s then Some (EmptyString, drop (String.length sep) s)
  else match s with
       | EmptyString => None
       | String a rest =>
           match split_once sep rest with
           | Some (before, after) => Some (String a before, after)
           | None => None
           end
       end.

(** Characters removed by [str.strip()]: the code points below 256 for which
    [str.isspace()] holds (TAB..CR, FS..US, SPACE, NEL U+0085, NBSP U+00A0). *)
Definition isspace (a : ascii) : bool :=
  let n := nat_of_ascii a in
  ((9 <=? n)%nat && (n <=? 13)%nat) || ((28 <=? n)%nat && (n <=? 32)%nat)
  || (n =? 133)%nat || (n =? 160)%nat.

Fixpoint lstrip (s : string) : string :=
  match s with
  | EmptyString => EmptyString
  | String a rest => if isspace a then lstrip rest else s
  end.

Fixpoint rstrip (s : string) : string :=
  match s with
  | EmptyString => EmptyString
  | String a rest =>
      match rstrip rest with
      | EmptyString => if isspace a then EmptyString else String a EmptyString
      | r => String a r
      end
  end.

Definition strip (s : string) : string := rstrip (lstrip s).

(** [str.lower()] on one character: A..Z and, above 127, U+00C0..U+00DE
    without the multiplication sign U+00D7. *)
Definition lower_char (a : ascii) : ascii :=
  let n := nat_of_ascii a in
  if ((65 <=? n)%nat && (n <=? 90)%nat)
     || ((192 <=? n)%nat && (n <=? 222)%nat && negb (n =? 215)%nat)
  then ascii_of_nat (n + 32) else a.

Fixpoint lower (s : string) : string :=
  match s with
  | EmptyString => EmptyString
  | String a rest => String (lower_char a) (lower rest)
  end.

Definition startswith (s pre : string) : bool := String.prefix pre s.

(** [not x] for an [Optional[str]]: [None] and the empty string are falsy. *)
Definition truthy (o : option string) : bool :=
  match o with
  | Some s => negb (String.eqb s "")
  | None => false
  end.

(** [x or d] for a string [x]. *)
Definition or_else (s d : string) : string :=
  if String.eqb s "" then d else s.

(** [enumerate(l)] *)
Fixpoint enumerate_from {A} (i : nat) (l : list A) : list (nat * A) :=
  match l with
  | [] => []
  | x :: rest => (i, x) :: enumerate_from (S i) rest
  end.

Definition enumerate {A} (l : list A) : list (nat * A) := enumerate_from 0 l.

(** [sorted(list(s))] for a set of indices. *)
Definition sorted (s : gset nat) : list nat := merge_sort Nat.le (elements s).

End Py.

(** ** llm/parsers.py *)
Module Parsers.
Import Py.

(** [re.search(r"<tag>(.*?)</tag>", s, re.DOTALL)], group 1: the leftmost
    opening tag that is followed by a closing tag, and the text up to the
    first closing tag after it. *)
Definition re_search_tag (tag s : string) : option string :=
  match split_once ("<" +:+ tag +:+ ">") s with
  | None => None
  | Some (_, rest) =>
      match split_once ("</" +:+ tag +:+ ">") rest with
      | None => None
      | Some (body, _) => Some body
      end
  end.

Definition extract_tag (tag llm_output : string) : string :=
  match re_search_tag tag llm_output with
  | Some body => strip body
  | None => ""
  end.

Definition parse_suggested_command (llm_output : string) : option string :=
  strip <$> re_search_tag "command" llm_output.

Definition parse_llm_thought : string → string := extract_tag "think".
Definition parse_llm_plan : string → string := extract_tag "checklist".
Definition parse_llm_instruction : string → string := extract_tag "instruction".
Definition parse_llm_decision : string → string := extract_tag "decision".
Definition parse_llm_summary : string → string := extract_tag "summary".
Definition parse_definition_of_done : string → string :=
  extract_tag "definition_of_done".

Definition extract_decision_type_and_message (decision_text : string)
  : string * string :=
  if String.eqb decision_text "" then ("", "")
  else match split_once ":" decision_text with
       | Some (decision_type, message) => (strip decision_type, strip message)
       | None => (strip decision_text, "")
       end.

End Parsers.

(** ** core/context_compactor.py *)
Module Compactor.
Import Py.

Record ContextEntry := {
  type : string;
  user_prompt : string;
  llm_response : string;
  timestamp : string;
  original_user_prompt : string;
  is_plan : bool;
  is_original_request : bool;
  compaction_level : Z;
}.

(** The [ContextCompactor] object: the configured budget and the two
    collaborators it owns ([self.payload_builder.prepare_payload] and
    [self.llm_client.send_request]). *)
Record ContextCompactor := {
  max_context_tokens : Z;
  prepare_payload : string → string → option string;
  send_request : string → option string;
}.

Definition estimate_token_count (text : string) : nat :=
  String.length text / 4.

Definition entry_tokens (entry : ContextEntry) : nat :=
  estimate_token_count (user_prompt entry +:+ llm_response entry).

Definition total_tokens (context_entries : list ContextEntry) : nat :=
  sum_list (entry_tokens <$> context_entries).

(** [int(self.max_context_tokens * self.compaction_threshold)] with the
    constant threshold 0.75: the product is exact in binary floating point
    for budgets below 2^51, and [int] truncates toward zero. *)
Definition threshold_tokens (self : ContextCompactor) : Z :=
  Z.quot (3 * max_context_tokens self) 4.

Definition should_compact_context (self : ContextCompactor)
    (context_entries : list ContextEntry) : bool :=
  bool_decide (threshold_tokens self < Z.of_nat (total_tokens context_entries))%Z.

(** The text both summarizers build from the entries handed to them. *)
Definition context_text (entries : list ContextEntry) : string :=
  join nl (flat_map (λ entry, ["User: " +:+ user_prompt entry;
                                "Assistant: " +:+ llm_response entry]) entries).

Definition summary_prompt (context : string) : string :=
  lines ["";
    "        You are a context summarizer. Create a single detailed paragraph that summarizes the following historical conversation context. Focus on:";
    "        - Key decisions and outcomes that were reached";
    "        - Important context that may be relevant for future actions";
    "        - Any significant errors or successes";
    "        - The general flow and progression of the conversation";
    "        ";
    "        Write this as ONE cohesive paragraph that captures the essential information from this historical context.";
    "        ";
    "        Historical context to summarize:";
    "        "]
  +:+ context +:+
  lines ["";
    "        ";
    "        Summary paragraph:";
    "        "].

Definition compact_prompt (context : string) : string :=
  lines ["";
    "        You are a context compactor. Summarize the following conversation history into a more concise form while preserving:";
    "        - Key decisions and outcomes";
    "        - Important context for future actions";
    "        - The flow of the conversation";
    "        - Any error messages or important results";
    "        ";
    "        Make it about 50% of the original length.";
    "        ";
    "        Context to compact:";
    "        "]
  +:+ context +:+
  lines ["";
    "        ";
    "        Provide a compact summary:";
    "        "].

Definition very_compact_prompt (context : string) : string :=
  lines ["";
    "        You are a context compactor. Create a very brief summary of the following context, preserving only:";
    "        - Essential outcomes and decisions";
    "        - Critical context needed for task completion";
    "        - Major errors or successes";
    "        ";
    "        Make it about 25% of the original length.";
    "        ";
    "        Context to compact:";
    "        "]
  +:+ context +:+
  lines ["";
    "        ";
    "        Provide a very compact summary:";
    "        "].

Definition create_context_summary (self : ContextCompactor)
    (entries : list ContextEntry) : string :=
  match entries with
  | [] => ""
  | _ =>
      let prompt := summary_prompt (context_text entries) in
      let payload := prepare_payload self "simple" prompt in
      if negb (truthy payload) then
        "[Summary of " +:+ pretty (length entries)
          +:+ " historical entries - LLM unavailable]"
      else
        let response := send_request self (default "" payload) in
        if negb (truthy response) then
          "[Summary of " +:+ pretty (length entries)
            +:+ " historical entries - LLM failed]"
        else default "" response
  end.

Definition compact_context_segment (self : ContextCompactor)
    (entries : list ContextEntry) (level : Z) : string :=
  match entries with
  | [] => ""
  | _ =>
      let text := context_text entries in
      let prompt := if (level =? 1)%Z then compact_prompt text
                    else very_compact_prompt text in
      let payload := prepare_payload self "simple" prompt in
      if negb (truthy payload) then text
      else
        let response := send_request self (default "" payload) in
        if negb (truthy response) then text
        else default "" response
  end.

(** [for i, entry in reversed(list(enumerate(...))): if p(entry): idx = i; break]
    started from [idx = -1]; the argument is the already reversed enumeration. *)
Fixpoint scan_for (p : ContextEntry → bool) (ies : list (nat * ContextEntry)) : Z :=
  match ies with
  | [] => (-1)%Z
  | (i, entry) :: rest => if p entry then Z.of_nat i else scan_for p rest
  end.

Definition latest_plan_index (context_entries : list ContextEntry) : Z :=
  scan_for is_plan (reverse (enumerate context_entries)).

Definition current_prompt_index (context_entries : list ContextEntry)
    (current_user_prompt : option string) : Z :=
  if truthy current_user_prompt then
    scan_for (λ entry, contains (default "" current_user_prompt) (user_prompt entry))
             (reverse (enumerate context_entries))
  else (-1)%Z.

Definition compactable_indices (context_entries : list ContextEntry)
    (current_user_prompt : option string) : list nat :=
  filter (λ i, Z.of_nat i ≠ latest_plan_index context_entries
               ∧ Z.of_nat i ≠ current_prompt_index context_entries current_user_prompt)
         (seq 0 (length context_entries)).

Definition num_to_compact (context_entries : list ContextEntry)
    (current_user_prompt : option string) : nat :=
  length (compactable_indices context_entries current_user_prompt) / 2.

Definition indices_to_compact (context_entries : list ContextEntry)
    (current_user_prompt : option string) : gset nat :=
  list_to_set (take (num_to_compact context_entries current_user_prompt)
                    (compactable_indices context_entries current_user_prompt)).

(** [[context_entries[i] for i in sorted(list(indices_to_compact))]] *)
Definition entries_to_summarize (context_entries : list ContextEntry)
    (current_user_prompt : option string) : list ContextEntry :=
  omap (λ i, context_entries !! i)
       (sorted (indices_to_compact context_entries current_user_prompt)).

Definition summary_entry (self : ContextCompactor)
    (to_summarize : list ContextEntry) : ContextEntry :=
  {| type := "compacted";
     user_prompt := "[HISTORICAL CONTEXT SUMMARY]";
     llm_response := create_context_summary self to_summarize;
     timestamp := match to_summarize with
                  | first :: _ => timestamp first
                  | [] => ""
                  end;
     original_user_prompt := "";
     is_plan := false;
     is_original_request := false;
     compaction_level := 1 |}.

(** The rebuilding loop over [enumerate(context_entries)]; [i] is the
    enumeration counter and [summary_inserted] the loop's flag. *)
Fixpoint rebuild (to_compact : gset nat) (summary : ContextEntry)
    (i : nat) (summary_inserted : bool) (context_entries : list ContextEntry)
    : list ContextEntry :=
  match context_entries with
  | [] => []
  | entry :: rest =>
      if decide (i ∈ to_compact) then
        if summary_inserted then rebuild to_compact summary (S i) true rest
        else summary :: rebuild to_compact summary (S i) true rest
      else entry :: rebuild to_compact summary (S i) summary_inserted rest
  end.

Definition current_prompt_entry (current_user_prompt : string) : ContextEntry :=
  {| type := "current_prompt";
     user_prompt := current_user_prompt;
     llm_response := "[CURRENT TASK]";
     timestamp := "";
     original_user_prompt := "";
     is_plan := false;
     is_original_request := false;
     compaction_level := 0 |}.

(** The marker entry appended after the rebuild, if any. *)
Definition appended_prompt (context_entries : list ContextEntry)
    (current_user_prompt : option string) : list ContextEntry :=
  if truthy current_user_prompt
     && bool_decide (current_prompt_index context_entries current_user_prompt = (-1)%Z)
  then [current_prompt_entry (default "" current_user_prompt)]
  else [].

Definition compact_context (self : ContextCompactor)
    (context_entries : list ContextEntry) (current_user_prompt : option string)
    : list ContextEntry :=
  if negb (should_compact_context self context_entries) then context_entries
  else if (length (compactable_indices context_entries current_user_prompt) <? 2)%nat
  then context_entries
  else
    let to_compact := indices_to_compact context_entries current_user_prompt in
    if bool_decide (to_compact = ∅) then context_entries
    else
      let summary :=
        summary_entry self (entries_to_summarize context_entries current_user_prompt) in
      rebuild to_compact summary 0 false context_entries
        ++ appended_prompt context_entries current_user_prompt.

(** *** The durable session store ([context.json]) *)

(** A value read by [json.load] (numbers are the integers the code writes). *)
#[warnings="-register-all"]
Inductive json :=
| JNull
| JBool (b : bool)
| JNum (n : Z)
| JStr (s : string)
| JArr (items : list json)
| JObj (fields : gmap string json).

(** Truth value of a loaded value, as [or] tests it. *)
Definition json_truthy (v : json) : bool :=
  match v with
  | JNull => false
  | JBool b => b
  | JNum n => negb (n =? 0)%Z
  | JStr s => negb (String.eqb s "")
  | JArr items => match items with [] => false | _ => true end
  | JObj fields => negb (bool_decide (fields = ∅))
  end.

(** [a or b or c or d] over the results of [dict.get]. *)
Fixpoint first_truthy (candidates : list (option json)) (last : json) : json :=
  match candidates with
  | [] => last
  | Some v :: rest => if json_truthy v then v else first_truthy rest last
  | None :: rest => first_truthy rest last
  end.

(** [entry.get(key) == text] *)
Definition field_is (entry : gmap string json) (key text : string) : bool :=
  match entry !! key with
  | Some (JStr s) => String.eqb s text
  | _ => false
  end.

(** A field the code goes on to use as text: [None] when the stored value
    is not a string (Python then raises on [.lower()] or builds an entry
    that is not a [ContextEntry] of strings). *)
Definition as_text (v : json) : option string :=
  match v with
  | JStr s => Some s
  | _ => None
  end.

Section Parse.
(** Python's [repr] of a loaded value, used by [str(response)]. *)
Variable repr : json → string.

Definition str (v : json) : string :=
  match v with
  | JStr s => s
  | _ => repr v
  end.

Definition parse_entry (i : nat) (entry : gmap string json) : option ContextEntry :=
  let is_original_request := bool_decide (i = 0) in
  let llm_response_value :=
    if field_is entry "type" "success"
       && bool_decide (is_Some (entry !! "llm_full_response"))
    then
      match entry !! "llm_full_response" with
      | Some (JObj response) =>
          first_truthy [response !! "response"; response !! "content";
                        response !! "text"] (JStr (str (JObj response)))
      | Some response => JStr (str response)
      | None => JNull
      end
    else default (JStr "Error occurred") (entry !! "llm_error_message") in
  llm_response ← as_text llm_response_value;
  user_prompt ← as_text (default (JStr "") (entry !! "user_prompt"));
  type ← as_text (default (JStr "unknown") (entry !! "type"));
  timestamp ← as_text (default (JStr "") (entry !! "timestamp"));
  let is_plan := contains "plan" (lower user_prompt)
                 || contains "checklist" (lower llm_response) in
  Some {| type := type;
          user_prompt := user_prompt;
          llm_response := llm_response;
          timestamp := timestamp;
          original_user_prompt := "";
          is_plan := is_plan;
          is_original_request := is_original_request;
          compaction_level := 0 |}.

Fixpoint parse_session (i : nat) (session_entries : list (gmap string json))
  : option (list ContextEntry) :=
  match session_entries with
  | [] => Some []
  | entry :: rest =>
      context_entry ← parse_entry i entry;
      entries ← parse_session (S i) rest;
      Some (context_entry :: entries)
  end.

Definition parse_context_entries
    (context_data : gmap string (list (gmap string json))) (pwd_hash : string)
  : option (list ContextEntry) :=
  match context_data !! pwd_hash with
  | None => Some []
  | Some session_entries => parse_session 0 session_entries
  end.
End Parse.

Definition json_entry (entry : ContextEntry) : gmap string json :=
  if String.eqb (type entry) "compacted" then
    {[ "type" := JStr "compacted";
       "user_prompt" := JStr (user_prompt entry);
       "llm_full_response" := JObj {[ "response" := JStr (llm_response entry) ]};
       "timestamp" := JStr (timestamp entry);
       "compaction_level" := JNum (compaction_level entry) ]}
  else
    {[ "type" := JStr (type entry);
       "user_prompt" := JStr (user_prompt entry);
       "llm_full_response" := JObj {[ "response" := JStr (llm_response entry) ]};
       "timestamp" := JStr (timestamp entry) ]}.

(** The context file: absent, present but not loadable, or holding the
    sessions keyed by directory hash; and whether it can be opened for
    writing. *)
Inductive ContextFile :=
| FileMissing
| FileUnreadable
| FileData (context_data : gmap string (list (gmap string json))).

Record Disk := {
  context_file : ContextFile;
  writable : bool;
}.

Definition write_context (disk : Disk)
    (context_data : gmap string (list (gmap string json))) : bool * Disk :=
  if writable disk
  then (true, {| context_file := FileData context_data; writable := true |})
  else (false, disk).

Definition save_compacted_context (context_entries : list ContextEntry)
    (pwd_hash : string) (disk : Disk) : bool * Disk :=
  match context_file disk with
  | FileUnreadable => (false, disk)
  | FileMissing =>
      write_context disk (<[pwd_hash := json_entry <$> context_entries]> ∅)
  | FileData context_data =>
      write_context disk (<[pwd_hash := json_entry <$> context_entries]> context_data)
  end.

(** [None]: the stored session is not a list of text records. *)
Definition check_and_compact_context (repr : json → string)
    (self : ContextCompactor) (pwd_hash : string)
    (current_user_prompt : option string) (disk : Disk) : option (bool * Disk) :=
  match context_file disk with
  | FileMissing => Some (true, disk)
  | FileUnreadable => Some (false, disk)
  | FileData context_data =>
      entries ← parse_context_entries repr context_data pwd_hash;
      match entries with
      | [] => Some (true, disk)
      | _ =>
          if negb (should_compact_context self entries) then Some (true, disk)
          else Some (save_compacted_context
                       (compact_context self entries current_user_prompt)
                       pwd_hash disk)
      end
  end.

End Compactor.

(** ** core/task_handler.py *)
Module Handler.
Import Py Parsers Compactor.

Inductive TaskStatus := IN_PROGRESS | COMPLETED | FAILED | CANCELLED.

Record TaskState := {
  current_plan : string;
  current_instruction : string;
  plan_array : list string;
  step_index : Z;
  last_action_taken : string;
  last_action_result : string;
  user_clarification : string;
  last_eval_decision : string;
  iteration : Z;
  definition_of_done : string;
  planner_summary : string;
  actor_summary : string;
  evaluator_summary : string;
}.

(** [TaskState()] *)
Definition initial_state : TaskState :=
  {| current_plan := ""; current_instruction := ""; plan_array := [];
     step_index := 0; last_action_taken := ""; last_action_result := "";
     user_clarification := ""; last_eval_decision := ""; iteration := 0;
     definition_of_done := ""; planner_summary := ""; actor_summary := "";
     evaluator_summary := "" |}.

(** Assignments to the attributes of [state]. *)
Definition set_current_plan (v : string) (s : TaskState) : TaskState :=
  {| current_plan := v; current_instruction := current_instruction s;
     plan_array := plan_array s; step_index := step_index s;
     last_action_taken := last_action_taken s;
     last_action_result := last_action_result s;
     user_clarification := user_clarification s;
     last_eval_decision := last_eval_decision s; iteration := iteration s;
     definition_of_done := definition_of_done s;
     planner_summary := planner_summary s; actor_summary := actor_summary s;
     evaluator_summary := evaluator_summary s |}.

Definition set_current_instruction (v : string) (s : TaskState) : TaskState :=
  {| current_plan := current_plan s; current_instruction := v;
     plan_array := plan_array s; step_index := step_index s;
     last_action_taken := last_action_taken s;
     last_action_result := last_action_result s;
     user_clarification := user_clarification s;
     last_eval_decision := last_eval_decision s; iteration := iteration s;
     definition_of_done := definition_of_done s;
     planner_summary := planner_summary s; actor_summary := actor_summary s;
     evaluator_summary := evaluator_summary s |}.

Definition set_plan_array (v : list string) (s : TaskState) : TaskState :=
  {| current_plan := current_plan s; current_instruction := current_instruction s;
     plan_array := v; step_index := step_index s;
     last_action_taken := last_action_taken s;
     last_action_result := last_action_result s;
     user_clarification := user_clarification s;
     last_eval_decision := last_eval_decision s; iteration := iteration s;
     definition_of_done := definition_of_done s;
     planner_summary := planner_summary s; actor_summary := actor_summary s;
     evaluator_summary := evaluator_summary s |}.

Definition set_step_index (v : Z) (s : TaskState) : TaskState :=
  {| current_plan := current_plan s; current_instruction := current_instruction s;
     plan_array := plan_array s; step_index := v;
     last_action_taken := last_action_taken s;
     last_action_result := last_action_result s;
     user_clarification := user_clarification s;
     last_eval_decision := last_eval_decision s; iteration := iteration s;
     definition_of_done := definition_of_done s;
     planner_summary := planner_summary s; actor_summary := actor_summary s;
     evaluator_summary := evaluator_summary s |}.

Definition set_last_action (taken result : string) (s : TaskState) : TaskState :=
  {| current_plan := current_plan s; current_instruction := current_instruction s;
     plan_array := plan_array s; step_index := step_index s;
     last_action_taken := taken;
     last_action_result := result;
     user_clarification := user_clarification s;
     last_eval_decision := last_eval_decision s; iteration := iteration s;
     definition_of_done := definition_of_done s;
     planner_summary := planner_summary s; actor_summary := actor_summary s;
     evaluator_summary := evaluator_summary s |}.

Definition set_user_clarification (v : string) (s : TaskState) : TaskState :=
  {| current_plan := current_plan s; current_instruction := current_instruction s;
     plan_array := plan_array s; step_index := step_index s;
     last_action_taken := last_action_taken s;
     last_action_result := last_action_result s;
     user_clarification := v;
     last_eval_decision := last_eval_decision s; iteration := iteration s;
     definition_of_done := definition_of_done s;
     planner_summary := planner_summary s; actor_summary := actor_summary s;
     evaluator_summary := evaluator_summary s |}.

Definition set_last_eval_decision (v : string) (s : TaskState) : TaskState :=
  {| current_plan := current_plan s; current_instruction := current_instruction s;
     plan_array := plan_array s; step_index := step_index s;
     last_action_taken := last_action_taken s;
     last_action_result := last_action_result s;
     user_clarification := user_clarification s;
     last_eval_decision := v; iteration := iteration s;
     definition_of_done := definition_of_done s;
     planner_summary := planner_summary s; actor_summary := actor_summary s;
     evaluator_summary := evaluator_summary s |}.

Definition set_definition_of_done (v : string) (s : TaskState) : TaskState :=
  {| current_plan := current_plan s; current_instruction := current_instruction s;
     plan_array := plan_array s; step_index := step_index s;
     last_action_taken := last_action_taken s;
     last_action_result := last_action_result s;
     user_clarification := user_clarification s;
     last_eval_decision := last_eval_decision s; iteration := iteration s;
     definition_of_done := v;
     planner_summary := planner_summary s; actor_summary := actor_summary s;
     evaluator_summary := evaluator_summary s |}.

Definition set_planner_summary (v : string) (s : TaskState) : TaskState :=
  {| current_plan := current_plan s; current_instruction := current_instruction s;
     plan_array := plan_array s; step_index := step_index s;
     last_action_taken := last_action_taken s;
     last_action_result := last_action_result s;
     user_clarification := user_clarification s;
     last_eval_decision := last_eval_decision s; iteration := iteration s;
     definition_of_done := definition_of_done s;
     planner_summary := v; actor_summary := actor_summary s;
     evaluator_summary := evaluator_summary s |}.

Definition set_evaluator_summary (v : string) (s : TaskState) : TaskState :=
  {| current_plan := current_plan s; current_instruction := current_instruction s;
     plan_array := plan_array s; step_index := step_index s;
     last_action_taken := last_action_taken s;
     last_action_result := last_action_result s;
     user_clarification := user_clarification s;
     last_eval_decision := last_eval_decision s; iteration := iteration s;
     definition_of_done := definition_of_done s;
     planner_summary := planner_summary s; actor_summary := actor_summary s;
     evaluator_summary := v |}.

(** What lies outside the handler: the context file, the answers the model
    transport will give to the handler's own client (call by call; an
    exhausted script answers nothing), the payloads it has been sent, the
    lines the user types at [input()], the answers given at the permission
    prompt, and the commands run so far. *)
Record World := {
  disk : Disk;
  llm_script : list (option string);
  requests : list string;
  keyboard : nat → string;
  lines_read : nat;
  permission_answers : nat → Z * string;
  prompts_shown : nat;
  executed : list string;
}.

Definition set_disk (d : Disk) (w : World) : World :=
  {| disk := d; llm_script := llm_script w; requests := requests w;
     keyboard := keyboard w; lines_read := lines_read w;
     permission_answers := permission_answers w;
     prompts_shown := prompts_shown w; executed := executed w |}.

(** [self.llm_client.send_request(payload)] *)
Definition llm_send (payload : string) (w : World) : option string * World :=
  (mjoin (head (llm_script w)),
   {| disk := disk w; llm_script := tail (llm_script w);
      requests := requests w ++ [payload];
      keyboard := keyboard w; lines_read := lines_read w;
      permission_answers := permission_answers w;
      prompts_shown := prompts_shown w; executed := executed w |}).

(** [input()] *)
Definition input (w : World) : string * World :=
  (keyboard w (lines_read w),
   {| disk := disk w; llm_script := llm_script w; requests := requests w;
      keyboard := keyboard w; lines_read := S (lines_read w);
      permission_answers := permission_answers w;
      prompts_shown := prompts_shown w; executed := executed w |}).

(** [self.permission_manager.prompt_for_permission(...)] *)
Definition prompt_for_permission (w : World) : (Z * string) * World :=
  (permission_answers w (prompts_shown w),
   {| disk := disk w; llm_script := llm_script w; requests := requests w;
      keyboard := keyboard w; lines_read := lines_read w;
      permission_answers := permission_answers w;
      prompts_shown := S (prompts_shown w); executed := executed w |}).

Definition record_execution (command : string) (w : World) : World :=
  {| disk := disk w; llm_script := llm_script w; requests := requests w;
     keyboard := keyboard w; lines_read := lines_read w;
     permission_answers := permission_answers w;
     prompts_shown := prompts_shown w; executed := executed w ++ [command] |}.

(** The [TaskHandler] object: the two configuration entries it reads, the
    session key, its compactor, and the collaborators whose code is not part
    of the handler: payload builder, permission check, the configuration
    manager's [append_context], and the command executor (exit code and
    output of a command, given the commands run before it). *)
Record TaskHandler := {
  operation_mode : string;
  allow_clarifying_questions : bool;
  pwd_hash : string;
  context_compactor : ContextCompactor;
  payload_builder : string → string → option string;
  check_command_permission : string → string → bool * string;
  append_context : string → string → Disk → Disk;
  execute : list string → string → Z * string;
}.

(** One pass through the body of a phase's [while True] loop either returns
    from the phase or goes round again with a new context. *)
Inductive Step (R : Type) :=
| Return (result : R)
| Continue (context : string).
Arguments Return {R} result.
Arguments Continue {R} context.

(** The line breaks [str.splitlines()] cuts at, among the code points below
    256: LF, VT, FF, CR, FS, GS, RS and NEL (U+0085). *)
Definition is_linebreak (a : ascii) : bool :=
  let n := nat_of_ascii a in
  ((10 <=? n)%nat && (n <=? 13)%nat) || ((28 <=? n)%nat && (n <=? 30)%nat)
  || (n =? 133)%nat.

(** [s.splitlines()], up to empty lines (which the only caller drops). *)
Fixpoint splitlines (s : string) : list string :=
  match s with
  | EmptyString => [EmptyString]
  | String a rest =>
      if is_linebreak a then EmptyString :: splitlines rest
      else match splitlines rest with
           | line :: more => String a line :: more
           | [] => [String a EmptyString]
           end
  end.

Definition nonempty (s : string) : bool := negb (String.eqb s "").

Section Orchestrator.
Variable repr : json → string.
Variable self : TaskHandler.

(** [self.context_compactor.check_and_compact_context(pwd_hash)], whose
    result is discarded; [None] when it raises. *)
Definition compact_before_call (w : World) : option World :=
  match check_and_compact_context repr (context_compactor self)
          (pwd_hash self) None (disk w) with
  | Some (_, d) => Some (set_disk d w)
  | None => None
  end.

(** [self.config_manager.append_context(prompt, response)] *)
Definition log_context (prompt response : string) (w : World) : World :=
  set_disk (append_context self prompt response (disk w)) w.

(** The [if allowed:] block of [_handle_command_suggestion] and the
    [return] that follows it. *)
Definition run_if_allowed (allowed : bool) (command : string)
    (state : TaskState) (w : World) : TaskStatus * TaskState * World :=
  let run (w0 : World) :=
    let '(exit_code, output) := execute self (executed w0) command in
    (IN_PROGRESS,
     set_last_action ("Executed command: " +:+ command)
       ("Exit Code: " +:+ pretty exit_code +:+ ". Output:" +:+ nl
          +:+ or_else output "(no output)") state,
     record_execution command w0) in
  if allowed then
    if String.eqb (operation_mode self) "normal" then
      let '(answer, w1) := input w in
      if negb (String.eqb (lower answer) "y") then
        (IN_PROGRESS,
         set_last_action ("Command '" +:+ command +:+ "' cancelled by user")
           "User cancelled at confirmation" state,
         w1)
      else run w1
    else run w
  else (IN_PROGRESS, state, w).

Definition _handle_command_suggestion (command : string)
    (state : TaskState) (w : World) : TaskStatus * TaskState * World :=
  if String.eqb command "report_task_completion" then
    (IN_PROGRESS,
     set_last_action "Internal signal: report_task_completion"
       "Action Agent determined task is complete and signaled Evaluator." state,
     w)
  else
    let mode := operation_mode self in
    let '(allowed, reason) := check_command_permission self command mode in
    if negb allowed then
      if String.eqb mode "normal" then
        (IN_PROGRESS,
         set_last_action ("Command '" +:+ command +:+ "' not executed.")
           ("Command blocked: " +:+ reason) state,
         w)
      else if String.eqb mode "gremlin" || String.eqb mode "goblin" then
        if String.eqb mode "goblin" then run_if_allowed true command state w
        else
          let '((decision, perm_reason), w1) := prompt_for_permission w in
          if (decision =? 0)%Z then run_if_allowed true command state w1
          else if (decision =? 2)%Z then (CANCELLED, state, w1)
          else
            (IN_PROGRESS,
             set_last_action ("Command '" +:+ command +:+ "' denied by user")
               ("User denied permission: " +:+ perm_reason) state,
             w1)
      else run_if_allowed allowed command state w
    else run_if_allowed allowed command state w.

Definition _process_evaluation_decision (decision_type message : string)
    (state : TaskState) (original_prompt : string) (w : World)
  : (TaskStatus * string) * TaskState * World :=
  if String.eqb decision_type "TASK_COMPLETE" then ((COMPLETED, ""), state, w)
  else if String.eqb decision_type "TASK_FAILED" then ((FAILED, ""), state, w)
  else if String.eqb decision_type "CONTINUE_PLAN" then
    let state := set_step_index (step_index state + 1) state in
    let next_context :=
      "Original request: '" +:+ original_prompt +:+ "'." +:+ nl
      +:+ "Current plan:" +:+ nl +:+ current_plan state +:+ nl
      +:+ "Previous instruction ('" +:+ current_instruction state
      +:+ "') was completed successfully." +:+ nl
      +:+ "Result: '" +:+ last_action_result state +:+ "'." +:+ nl
      +:+ "Evaluator says: '" +:+ message +:+ "'." +:+ nl
      +:+ "Provide the next instruction from the plan for step "
      +:+ pretty (step_index state + 1)%Z +:+ "." in
    ((IN_PROGRESS, next_context), set_user_clarification "" state, w)
  else if String.eqb decision_type "REVISE_PLAN" then
    let next_context :=
      "Original request: '" +:+ current_instruction state +:+ "'." +:+ nl
      +:+ "Prev plan:" +:+ nl +:+ current_plan state +:+ nl
      +:+ "Prev instruction ('" +:+ current_instruction state +:+ "') result: '"
      +:+ last_action_result state +:+ "'." +:+ nl
      +:+ "Evaluator suggests revision: '" +:+ message +:+ "'." +:+ nl
      +:+ "Revise checklist and provide new first instruction." in
    ((IN_PROGRESS, next_context),
     set_user_clarification ""
       (set_current_instruction "" (set_current_plan "" state)),
     w)
  else if String.eqb decision_type "CLARIFY_USER" then
    if allow_clarifying_questions self then
      let '(answer, w1) := input w in
      let state := set_user_clarification answer state in
      let next_context :=
        "Original request: '" +:+ current_instruction state +:+ "'." +:+ nl
        +:+ "After action '" +:+ last_action_taken state +:+ "' (result: '"
        +:+ last_action_result state +:+ "'), "
        +:+ "evaluator needs clarification. Question: '" +:+ message +:+ "'." +:+ nl
        +:+ "User's answer: '" +:+ user_clarification state +:+ "'." +:+ nl
        +:+ "Revise plan/next instruction based on this." in
      ((IN_PROGRESS, next_context),
       set_current_instruction "" (set_current_plan "" state),
       w1)
    else ((FAILED, ""), state, w)
  else if String.eqb decision_type "VERIFY_ACTION" then
    let verification_context :=
      "Original request: '" +:+ current_instruction state +:+ "'." +:+ nl
      +:+ "Previous action: '" +:+ last_action_taken state +:+ "' (result: '"
      +:+ last_action_result state +:+ "')." +:+ nl
      +:+ "Evaluator needs verification. Execute this command to verify the outcome: "
      +:+ message in
    ((IN_PROGRESS, verification_context),
     set_user_clarification ""
       (set_current_instruction ("Execute verification command: " +:+ message) state),
     w)
  else ((FAILED, ""), state, w).

Definition missing_checklist_message : string :=
  "Response did not contain a valid `<checklist>...</checklist>` block.".

Definition missing_instruction_message : string :=
  "Response did not contain a valid `<instruction>...</instruction>` block.".

Definition correction_request (error_message context : string) : string :=
  lines ["<correction_request>";
         "<error>";
         "<type>Invalid Response Format</type>";
         "<message>Your previous response was malformed and did not follow the required structure.</message>";
         "<details>" +:+ error_message +:+ "</details>";
         "</error>";
         "<instruction>";
         "You MUST correct your output. Your response MUST contain BOTH a `<checklist>...</checklist>` block AND an `<instruction>...</instruction>` block. This is not optional. Failure to comply will result in task termination.";
         "</instruction>";
         "<original_context>";
         context;
         "</original_context>";
         "</correction_request>"].

(** The body of the loop of [_execute_plan_phase]; [attempt] is the counter
    after [attempt += 1].  [None]: the compactor raised. *)
Definition plan_phase_body (attempt : nat) (context : string)
    (state : TaskState) (w : World)
  : option (Step TaskStatus * TaskState * World) :=
  w ← compact_before_call w;
  let payload := payload_builder self "plan" context in
  if negb (truthy payload) then Some (Return FAILED, state, w)
  else
    let '(response, w) := llm_send (default "" payload) w in
    if negb (truthy response) then Some (Return FAILED, state, w)
    else
      let response := default "" response in
      let w := log_context ("Planner Input (Attempt " +:+ pretty (attempt + 1)
                              +:+ "): " +:+ context) response w in
      let decision := parse_llm_decision response in
      if startswith decision "CLARIFY_USER:" then
        if allow_clarifying_questions self then
          let '(answer, w) := input w in
          Some (Return IN_PROGRESS,
                set_current_plan ""
                  (set_last_eval_decision "PLANNER_CLARIFY"
                     (set_user_clarification answer state)),
                w)
        else
          Some (Continue
                  (context +:+ nl +:+ nl +:+ "PREVIOUS ATTEMPT FAILED. "
                     +:+ "Your last response requested user clarification, which is disabled. "
                     +:+ "Please generate a plan without asking questions."),
                state, w)
      else
        let state :=
          set_definition_of_done (parse_definition_of_done response)
            (set_planner_summary (parse_llm_summary response)
               (set_current_instruction (parse_llm_instruction response)
                  (set_current_plan (parse_llm_plan response) state))) in
        if nonempty (current_plan state) && nonempty (current_instruction state) then
          Some (Return IN_PROGRESS,
                set_last_eval_decision ""
                  (set_user_clarification ""
                     (set_step_index 0
                        (set_plan_array
                           (filter (λ line, nonempty line)
                                   (strip <$> splitlines (current_plan state)))
                           state))),
                w)
        else
          let error_messages :=
            ((if nonempty (current_plan state) then []
              else [missing_checklist_message])
             ++ (if nonempty (current_instruction state) then []
                 else [missing_instruction_message]))%list in
          let error_message := join " " error_messages in
          Some (Continue (correction_request error_message context), state, w).

(** [_execute_plan_phase]: [attempt = 0], then the loop; [fuel] bounds the
    number of passes ([None] when it runs out, or when the compactor
    raised). *)
Fixpoint plan_phase_loop (fuel : nat) (attempt : nat) (context : string)
    (state : TaskState) (w : World) : option (TaskStatus * TaskState * World) :=
  match fuel with
  | O => None
  | S fuel' =>
      let attempt := S attempt in
      match plan_phase_body attempt context state w with
      | None => None
      | Some (Return status, state', w') => Some (status, state', w')
      | Some (Continue context', state', w') =>
          plan_phase_loop fuel' attempt context' state' w'
      end
  end.

Definition _execute_plan_phase (fuel : nat) (context : string)
    (state : TaskState) (w : World) : option (TaskStatus * TaskState * World) :=
  plan_phase_loop fuel 0 context state w.

(** The body of the loop of [_execute_evaluation_phase]: [context] is the
    phase's argument, [current_context] the loop variable. *)
Definition evaluation_phase_body (attempt : nat) (context current_context : string)
    (state : TaskState) (original_prompt : string) (w : World)
  : option (Step (TaskStatus * string) * TaskState * World) :=
  w ← compact_before_call w;
  let payload := payload_builder self "evaluate" current_context in
  if negb (truthy payload) then Some (Return (FAILED, ""), state, w)
  else
    let '(response, w) := llm_send (default "" payload) w in
    if negb (truthy response) then Some (Return (FAILED, ""), state, w)
    else
      let response := default "" response in
      let w := log_context ("Evaluator Input (Attempt " +:+ pretty attempt
                              +:+ "): " +:+ current_context) response w in
      let state := set_evaluator_summary (parse_llm_summary response) state in
      let decision := parse_llm_decision response in
      if nonempty decision then
        let '(decision_type, message) := extract_decision_type_and_message decision in
        let state := set_last_eval_decision decision_type state in
        let '(result, state, w) :=
          _process_evaluation_decision decision_type message state original_prompt w in
        Some (Return result, state, w)
      else
        let error_message :=
          "Response did not contain a valid `<decision>...</decision>` block." in
        Some (Continue
                (context +:+ nl +:+ nl +:+ "PREVIOUS ATTEMPT FAILED. "
                   +:+ "Your last response was invalid. Reason: " +:+ error_message +:+ nl
                   +:+ "Please correct your response and provide a valid decision."),
              state, w).

End Orchestrator.

End Handler.

(** ** Vocabulary of the statements *)
Module Spec.
Import Py Compactor Handler.

(** The entries of [l] (enumerated from [i]) whose index is outside
    [to_compact], in their original order. *)
Fixpoint kept_from (to_compact : gset nat) (i : nat) (l : list ContextEntry)
  : list ContextEntry :=
  match l with
  | [] => []
  | entry :: rest =>
      if decide (i ∈ to_compact) then kept_from to_compact (S i) rest
      else entry :: kept_from to_compact (S i) rest
  end.

(** The entries of [l] whose index is in [to_compact], in their original order. *)
Fixpoint summarized_from (to_compact : gset nat) (i : nat) (l : list ContextEntry)
  : list ContextEntry :=
  match l with
  | [] => []
  | entry :: rest =>
      if decide (i ∈ to_compact) then entry :: summarized_from to_compact (S i) rest
      else summarized_from to_compact (S i) rest
  end.

Definition one_if_any {A} (l : list A) (n : nat) : nat :=
  match l with
  | [] => 0
  | _ :: _ => n
  end.

(** The decision types [_process_evaluation_decision] has a branch for. *)
Definition handled_decisions : list string :=
  ["TASK_COMPLETE"; "TASK_FAILED"; "CONTINUE_PLAN"; "REVISE_PLAN";
   "CLARIFY_USER"; "VERIFY_ACTION"].

(** The response carries a [<tag>...</tag>] block. *)
Definition has_block (tag response : string) : Prop :=
  is_Some (Parsers.re_search_tag tag response).

End Spec.

(** ** Concrete inputs *)
Module Examples.
Import Py Compactor Handler.

Fixpoint text (n : nat) (a : ascii) : string :=
  match n with
  | O => EmptyString
  | S n' => String a (text n' a)
  end.

Definition entry_of (prompt response : string) (plan : bool) : ContextEntry :=
  {| type := "success"; user_prompt := prompt; llm_response := response;
     timestamp := "2025-06-01T10:00:00"; original_user_prompt := "";
     is_plan := plan; is_original_request := false; compaction_level := 0 |}.

(** Five entries of 40 characters (10 tokens) each; the second is a plan. *)
Definition history5 : list ContextEntry :=
  [entry_of "list the files here." "README.md src tests." false;
   entry_of "plan the refactoring" "<checklist>1. look.." true;
   entry_of "show the parser file" "def parse(text): ..." false;
   entry_of "run the test suite.." "3 passed, 1 failed.." false;
   entry_of "open the failing one" "assert x == 4 failed" false].

Definition echo_payload (phase prompt : string) : option string :=
  Some ("[" +:+ phase +:+ "] " +:+ prompt).

(** Budget 40 tokens (threshold 30); the model answers with a short summary. *)
Definition terse_compactor : ContextCompactor :=
  {| max_context_tokens := 40;
     prepare_payload := echo_payload;
     send_request := λ _, Some "Files listed; parser shown." |}.

(** The same budget; the model answers with 400 characters. *)
Definition verbose_compactor : ContextCompactor :=
  {| max_context_tokens := 40;
     prepare_payload := echo_payload;
     send_request := λ _, Some (text 400 "x") |}.

(** The same budget; the transport gives no answer. *)
Definition offline_compactor : ContextCompactor :=
  {| max_context_tokens := 40;
     prepare_payload := echo_payload;
     send_request := λ _, None |}.

(** Two long entries, of which the later is the plan. *)
Definition history2 : list ContextEntry :=
  [entry_of (text 100 "a") (text 100 "b") false;
   entry_of (text 100 "c") (text 100 "d") true].

(** Scenario 2: forty entries of 200 characters; entry 5 is the plan and
    entry 30 carries the current prompt. *)
Definition filler : ContextEntry := entry_of (text 100 "a") (text 100 "b") false.

Definition history40 : list ContextEntry :=
  replicate 5 filler
  ++ [entry_of (text 100 "a") (text 100 "b") true]
  ++ replicate 24 filler
  ++ [entry_of ("deploy" +:+ text 94 "a") (text 100 "b") false]
  ++ replicate 9 filler.

Definition scenario_compactor : ContextCompactor :=
  {| max_context_tokens := 2000;
     prepare_payload := echo_payload;
     send_request := λ _, Some "Forty steps of setup, summarized." |}.

(** A summary entry as [compact_context] builds it. *)
Definition stored_summary : ContextEntry :=
  {| type := "compacted"; user_prompt := "[HISTORICAL CONTEXT SUMMARY]";
     llm_response := "Files listed; parser shown.";
     timestamp := "2025-06-01T10:00:00"; original_user_prompt := "";
     is_plan := false; is_original_request := false; compaction_level := 1 |}.

Definition fresh_disk : Disk := {| context_file := FileMissing; writable := true |}.

Definition short_repr (v : json) : string := "{...}".

Definition demo_handler (clarify : bool) : TaskHandler :=
  {| operation_mode := "normal";
     allow_clarifying_questions := clarify;
     pwd_hash := "9f86d081884c7d65";
     context_compactor := terse_compactor;
     payload_builder := echo_payload;
     check_command_permission :=
       λ command mode, (String.prefix "ls" command, "Command not in allowed list");
     append_context := λ prompt response d, d;
     execute := λ before command, (0%Z, "README.md") |}.

Definition demo_world (script : list (option string)) (typed : string) : World :=
  {| disk := fresh_disk; llm_script := script; requests := [];
     keyboard := λ _, typed; lines_read := 0;
     permission_answers := λ _, (1%Z, "no"); prompts_shown := 0;
     executed := [] |}.

Definition checklist_only : string :=
  "<checklist>1. inspect the directory</checklist>".

Definition checklist_and_question : string :=
  "<checklist>1. inspect the directory</checklist>"
  +:+ "<decision>CLARIFY_USER: which directory?</decision>".

End Examples.

(** ** core/task_handler.py: the action phase and the outer loop *)
Module Orchestration.
Import Py Parsers Compactor Handler.

Definition set_actor_summary (v : string) (s : TaskState) : TaskState :=
  {| current_plan := current_plan s; current_instruction := current_instruction s;
     plan_array := plan_array s; step_index := step_index s;
     last_action_taken := last_action_taken s;
     last_action_result := last_action_result s;
     user_clarification := user_clarification s;
     last_eval_decision := last_eval_decision s; iteration := iteration s;
     definition_of_done := definition_of_done s;
     planner_summary := planner_summary s; actor_summary := v;
     evaluator_summary := evaluator_summary s |}.

Definition set_iteration (v : Z) (s : TaskState) : TaskState :=
  {| current_plan := current_plan s; current_instruction := current_instruction s;
     plan_array := plan_array s; step_index := step_index s;
     last_action_taken := last_action_taken s;
     last_action_result := last_action_result s;
     user_clarification := user_clarification s;
     last_eval_decision := last_eval_decision s; iteration := v;
     definition_of_done := definition_of_done s;
     planner_summary := planner_summary s; actor_summary := actor_summary s;
     evaluator_summary := evaluator_summary s |}.

Definition status_eqb (a b : TaskStatus) : bool :=
  match a, b with
  | IN_PROGRESS, IN_PROGRESS | COMPLETED, COMPLETED
  | FAILED, FAILED | CANCELLED, CANCELLED => true
  | _, _ => false
  end.

(** [_build_action_context]: the context, and the state with the
    clarification cleared once it has been used. *)
Definition _build_action_context (original_prompt : string) (state : TaskState)
  : string * TaskState :=
  let context :=
    "User's original request: '" +:+ original_prompt +:+ "'" +:+ nl +:+ nl
    +:+ "Instruction to execute: '" +:+ current_instruction state +:+ "'" in
  let context :=
    if nonempty (planner_summary state)
    then context +:+ nl +:+ nl +:+ "Planner's Summary: " +:+ planner_summary state
    else context in
  if nonempty (user_clarification state) then
    (context +:+ nl +:+ nl +:+ "Context: User responded '"
       +:+ user_clarification state +:+ "' to my last question.",
     set_user_clarification "" state)
  else (context, state).

Definition _build_evaluation_context (original_prompt : string) (state : TaskState)
  : string * TaskState :=
  let context :=
    "User's original request: '" +:+ original_prompt +:+ "'" +:+ nl +:+ nl
    +:+ "Current Plan Checklist (if available):" +:+ nl +:+ current_plan state
    +:+ nl +:+ nl in
  let context :=
    if nonempty (definition_of_done state)
    then context +:+ "Definition of Done for this task:" +:+ nl
           +:+ definition_of_done state +:+ nl +:+ nl
    else context in
  let context :=
    context +:+ "Instruction that was attempted: '" +:+ current_instruction state
    +:+ "'" +:+ nl +:+ nl
    +:+ "Action Taken by Actor:" +:+ nl +:+ last_action_taken state +:+ nl +:+ nl
    +:+ "Result of Action:" +:+ nl +:+ last_action_result state in
  let context :=
    if nonempty (planner_summary state)
    then context +:+ nl +:+ nl +:+ "Planner's Summary: " +:+ planner_summary state
    else context in
  let context :=
    if nonempty (actor_summary state)
    then context +:+ nl +:+ nl +:+ "Actor's Summary: " +:+ actor_summary state
    else context in
  if nonempty (user_clarification state) then
    (context +:+ nl +:+ nl +:+ "Context: User responded '"
       +:+ user_clarification state +:+ "' to my last question.",
     set_user_clarification "" state)
  else (context, state).

(** [needs_new_plan], the test that opens every round of [handle_task]. *)
Definition needs_new_plan (state : TaskState) : bool :=
  negb (nonempty (current_plan state))
  || String.eqb (last_eval_decision state) "REVISE_PLAN"
  || String.eqb (last_eval_decision state) "CONTINUE_PLAN"
  || (nonempty (user_clarification state)
      && (String.eqb (last_eval_decision state) "CLARIFY_USER"
          || String.eqb (last_eval_decision state) "PLANNER_CLARIFY")).

Section Loop.
Variable repr : json → string.
Variable self : TaskHandler.
(** [self.config_manager.get_current_session_context()] *)
Variable get_current_session_context : Disk → string.

(** The body of the loop of [_execute_action_phase]. *)
Definition action_phase_body (attempt : nat) (context : string)
    (state : TaskState) (w : World)
  : option (Step TaskStatus * TaskState * World) :=
  w ← compact_before_call repr self w;
  let payload := payload_builder self "action" context in
  if negb (truthy payload) then Some (Return FAILED, state, w)
  else
    let '(response, w) := llm_send (default "" payload) w in
    if negb (truthy response) then Some (Return FAILED, state, w)
    else
      let response := default "" response in
      let w := log_context self ("Actor Input (Attempt " +:+ pretty attempt
                                   +:+ "): " +:+ context) response w in
      let state := set_actor_summary (parse_llm_summary response) state in
      let suggested_command := parse_suggested_command response in
      if truthy suggested_command then
        let '(status, state, w) :=
          _handle_command_suggestion self (default "" suggested_command) state w in
        Some (Return status, state, w)
      else
        let error_message :=
          "Action agent response did not contain a valid `<command>...</command>` block. "
          +:+ "This is a format violation. You MUST provide a command." in
        Some (Continue
                (context +:+ nl +:+ nl +:+ "PREVIOUS ATTEMPT FAILED. "
                   +:+ "Your last response was invalid. Reason: " +:+ error_message +:+ nl
                   +:+ "Please correct your response and provide a valid command."),
              state, w).

Fixpoint action_phase_loop (fuel : nat) (attempt : nat) (context : string)
    (state : TaskState) (w : World) : option (TaskStatus * TaskState * World) :=
  match fuel with
  | O => None
  | S fuel' =>
      let attempt := S attempt in
      match action_phase_body attempt context state w with
      | None => None
      | Some (Return status, state', w') => Some (status, state', w')
      | Some (Continue context', state', w') =>
          action_phase_loop fuel' attempt context' state' w'
      end
  end.

Definition _execute_action_phase (fuel : nat) (context : string)
    (state : TaskState) (w : World) : option (TaskStatus * TaskState * World) :=
  action_phase_loop fuel 0 context state w.

Fixpoint evaluation_phase_loop (fuel : nat) (attempt : nat)
    (context current_context : string) (state : TaskState)
    (original_prompt : string) (w : World)
  : option ((TaskStatus * string) * TaskState * World) :=
  match fuel with
  | O => None
  | S fuel' =>
      let attempt := S attempt in
      match evaluation_phase_body repr self attempt context current_context
              state original_prompt w with
      | None => None
      | Some (Return result, state', w') => Some (result, state', w')
      | Some (Continue current_context', state', w') =>
          evaluation_phase_loop fuel' attempt context current_context' state'
            original_prompt w'
      end
  end.

Definition _execute_evaluation_phase (fuel : nat) (context : string)
    (state : TaskState) (original_prompt : string) (w : World)
  : option ((TaskStatus * string) * TaskState * World) :=
  evaluation_phase_loop fuel 0 context context state original_prompt w.

(** [_generate_completion_summary]: its effects (the summary itself is
    printed); [None] when the compactor raises. *)
Definition _generate_completion_summary (original_prompt : string)
    (state : TaskState) (w : World) : option World :=
  let context_history := get_current_session_context (disk w) in
  let summary_context :=
    "Original User Request: '" +:+ original_prompt +:+ "'" +:+ nl +:+ nl
    +:+ "Task Execution History:" +:+ nl +:+ context_history +:+ nl +:+ nl
    +:+ "Final Task State:" +:+ nl
    +:+ "- Plan: " +:+ current_plan state +:+ nl
    +:+ "- Last Action: " +:+ last_action_taken state +:+ nl
    +:+ "- Result: " +:+ last_action_result state +:+ nl
    +:+ "- Total Iterations: " +:+ pretty (iteration state) in
  w ← compact_before_call repr self w;
  let payload := payload_builder self "completion_summary" summary_context in
  if negb (truthy payload) then Some w
  else
    let '(response, w) := llm_send (default "" payload) w in
    Some w.

(** One round of the [while] loop of [handle_task]: either the loop is left
    with a status ([Return]) or it goes round again with the context the
    evaluation produced ([Continue]). *)
Definition handle_task_round (fuel : nat) (user_prompt current_context : string)
    (state : TaskState) (w : World)
  : option (Step TaskStatus * TaskState * World) :=
  let state := set_iteration (iteration state + 1) state in
  planned ←
    (if needs_new_plan state then
       '(status, state, w) ← _execute_plan_phase repr self fuel current_context state w;
       if negb (status_eqb status IN_PROGRESS) then Some (inl (status, state, w))
       else
         let '(context, state) := _build_action_context user_prompt state in
         Some (inr (context, state, w))
     else Some (inr (current_context, state, w)));
  match planned with
  | inl (status, state, w) => Some (Return status, state, w)
  | inr (current_context, state, w) =>
      if negb (nonempty (current_instruction state))
      then Some (Return FAILED, state, w)
      else
        '(status, state, w) ← _execute_action_phase fuel current_context state w;
        if negb (status_eqb status IN_PROGRESS) then Some (Return status, state, w)
        else
          let '(eval_context, state) := _build_evaluation_context user_prompt state in
          '(result, state, w) ←
            _execute_evaluation_phase fuel eval_context state user_prompt w;
          let '(status, current_context) := result in
          if status_eqb status IN_PROGRESS
          then Some (Continue current_context, state, w)
          else Some (Return status, state, w)
  end.

(** The [while task_status == IN_PROGRESS] loop; [fuel] bounds the rounds and
    the passes of each phase. *)
Fixpoint handle_task_loop (fuel : nat) (user_prompt current_context : string)
    (state : TaskState) (w : World) : option (TaskStatus * TaskState * World) :=
  match fuel with
  | O => None
  | S fuel' =>
      match handle_task_round fuel' user_prompt current_context state w with
      | None => None
      | Some (Return status, state', w') => Some (status, state', w')
      | Some (Continue current_context', state', w') =>
          handle_task_loop fuel' user_prompt current_context' state' w'
      end
  end.

(** [handle_task]: success flag, final context, and the world it leaves. *)
Definition handle_task (fuel : nat) (user_prompt : string) (w : World)
  : option ((bool * string) * World) :=
  '(task_status, state, w) ←
    handle_task_loop fuel user_prompt user_prompt initial_state w;
  if status_eqb task_status COMPLETED then
    w ← _generate_completion_summary user_prompt state w;
    Some ((true, fst (_build_evaluation_context user_prompt state)), w)
  else
    Some ((false, fst (_build_evaluation_context user_prompt state)), w).

End Loop.

End Orchestration.

(** ** commands/executor.py *)
Module Executor.
Import Py Handler.

Record CommandResult := {
  command : string;
  exit_code : Z;
  stdout : string;
  stderr : string;
  error_message : string;
}.

(** The [output] property. *)
Definition output (self : CommandResult) : string :=
  let combined :=
    ((if nonempty (strip (stdout self)) then [strip (stdout self)] else [])
     ++ (if nonempty (strip (stderr self)) then [strip (stderr self)] else []))%list in
  match combined with
  | [] => ""
  | _ => join nl combined
  end.

(** The [success] property. *)
Definition success (self : CommandResult) : bool :=
  (exit_code self =? 0)%Z && negb (nonempty (error_message self)).

Definition __str__ (self : CommandResult) : string :=
  "Exit Code: " +:+ pretty (exit_code self) +:+ ". Output:" +:+ nl
  +:+ (if nonempty (output self) then output self else "(no output)").

(** How [subprocess.run] ends: with a completed process, with
    [TimeoutExpired], or with another exception (and its text). *)
Inductive ProcessOutcome :=
| CompletedProcess (returncode : Z) (out err : string)
| TimeoutExpired
| Raised (e : string).

(** The executor, and what [subprocess.run(command, shell=True, timeout=...)]
    does in its working directory given the commands run before. *)
Record CommandExecutor := {
  default_timeout : Z;
  working_directory : string;
  run : list string → string → Z → ProcessOutcome;
}.

(** [execute]: the result, and the commands run so far. *)
Definition execute (self : CommandExecutor) (command : string)
    (timeout : option Z) (ran : list string) : CommandResult * list string :=
  let timeout := default (default_timeout self) timeout in
  (match run self ran command timeout with
   | CompletedProcess returncode out err =>
       {| command := command; exit_code := returncode; stdout := out;
          stderr := err; error_message := "" |}
   | TimeoutExpired =>
       {| command := command; exit_code := 124; stdout := ""; stderr := "";
          error_message :=
            "Command timed out after " +:+ pretty timeout +:+ " seconds" |}
   | Raised e =>
       {| command := command; exit_code := -1; stdout := ""; stderr := "";
          error_message := "Error executing command: " +:+ e |}
   end,
   (ran ++ [command])%list).

(** The [for flag in ...] loop of [get_command_help]. *)
Fixpoint try_help_flags (self : CommandExecutor) (command_name : string)
    (timeout : Z) (flags : list string) (ran : list string)
  : (bool * string) * list string :=
  match flags with
  | [] => ((false, ""), ran)
  | flag :: rest =>
      let help_command := command_name +:+ " " +:+ flag in
      let '(result, ran) := execute self help_command (Some timeout) ran in
      if success result && nonempty (stdout result)
      then ((true, strip (stdout result)), ran)
      else try_help_flags self command_name timeout rest ran
  end.

Definition get_command_help (self : CommandExecutor) (command_name : string)
    (timeout : option Z) (ran : list string) : (bool * string) * list string :=
  let timeout := default (Z.min (default_timeout self) 10) timeout in
  try_help_flags self command_name timeout ["--help"; "-h"] ran.

Definition test_command_exists (self : CommandExecutor) (command_name : string)
    (ran : list string) : bool * list string :=
  let '(result, ran) := execute self ("command -v " +:+ command_name) (Some 5%Z) ran in
  (success result && nonempty (strip (stdout result)), ran).

End Executor.

(** ** core/application.py: the interactive session *)
Module Session.
Import Py.

Section Clock.
(** The values of [time.time()]. *)
Variable Time : Type.

Record Interaction := {
  timestamp : Time;
  user_prompt : string;
  ai_response : string;
  command_executed : option string;
  success : bool;
}.

Record InteractiveSession := {
  conversation_history : list Interaction;
  session_start_time : Time;
  command_count : Z;
}.

(** [InteractiveSession()], created at time [now]. *)
Definition new_session (now : Time) : InteractiveSession :=
  {| conversation_history := []; session_start_time := now; command_count := 0 |}.

(** [add_interaction], called at time [now]. *)
Definition add_interaction (self : InteractiveSession) (now : Time)
    (user_prompt ai_response : string) (command_executed : option string)
    (success : bool) : InteractiveSession :=
  let interaction :=
    {| timestamp := now; user_prompt := user_prompt; ai_response := ai_response;
       command_executed := command_executed; success := success |} in
  let history := (conversation_history self ++ [interaction])%list in
  {| conversation_history :=
       if (10 <? length history)%nat then tail history else history;
     session_start_time := session_start_time self;
     command_count := command_count self |}.

(** [s[:100] + "..." if len(s) > 100 else s] *)
Definition shorten (s : string) : string :=
  if (100 <? String.length s)%nat then String.substring 0 100 s +:+ "..." else s.

(** The lines [get_context_summary] writes for the interactions it is given,
    numbered from [i]. *)
Fixpoint context_lines (i : nat) (interactions : list Interaction) : list string :=
  match interactions with
  | [] => []
  | interaction :: rest =>
      ([pretty i +:+ ". User: " +:+ shorten (user_prompt interaction);
        "   AI: " +:+ shorten (ai_response interaction)]
       ++ (if truthy (command_executed interaction)
           then ["   Command: " +:+ default "" (command_executed interaction)]
           else [])
       ++ context_lines (S i) rest)%list
  end.

Definition get_context_summary (self : InteractiveSession) : string :=
  match conversation_history self with
  | [] => "No previous interactions in this session."
  | history =>
      join nl ("Recent conversation context:"
               :: context_lines 1 (list.drop (length history - 3) history))
  end.

End Clock.

Arguments timestamp {Time} _.
Arguments user_prompt {Time} _.
Arguments ai_response {Time} _.
Arguments command_executed {Time} _.
Arguments success {Time} _.
Arguments conversation_history {Time} _.
Arguments session_start_time {Time} _.
Arguments command_count {Time} _.
Arguments new_session {Time} now.
Arguments add_interaction {Time} self now user_prompt ai_response command_executed
  success.
Arguments get_context_summary {Time} self.

End Session.

(** ** core/project_initialization.py *)
Module Initialization.
Import Py Handler.

(** [s[-n:]] for [n > 0] *)
Definition last_chars (n : nat) (s : string) : string :=
  drop (String.length s - n) s.

Definition _extract_investigation_summary (investigation_context : string)
  : option string :=
  if nonempty investigation_context
  then Some (last_chars 4000 investigation_context)
  else None.

End Initialization.

(** ** Vocabulary of the further statements *)
Module Behaviour.
Import Py Compactor Handler Orchestration.

(** What [parse_entry] makes of the record [json_entry] writes for [entry]. *)
Definition reloaded (repr : json → string) (i : nat) (entry : ContextEntry)
  : ContextEntry :=
  let response :=
    if String.eqb (type entry) "success" then
      if String.eqb (llm_response entry) ""
      then repr (JObj {[ "response" := JStr "" ]})
      else llm_response entry
    else "Error occurred" in
  {| type := type entry;
     user_prompt := user_prompt entry;
     llm_response := response;
     timestamp := timestamp entry;
     original_user_prompt := "";
     is_plan := contains "plan" (lower (user_prompt entry))
                || contains "checklist" (lower response);
     is_original_request := bool_decide (i = 0%nat);
     compaction_level := 0 |}.

(** Between [w] and [w'] the commands run are [commands], all satisfying [P]. *)
Definition runs_only (P : string → Prop) (w w' : World) : Prop :=
  ∃ commands, executed w' = (executed w ++ commands)%list ∧ Forall P commands.

(** In normal mode, the commands the permission check lets through. *)
Definition permitted (self : TaskHandler) (command : string) : Prop :=
  operation_mode self = "normal" →
  fst (check_command_permission self command "normal") = true.

(** The context the evaluation phase retries with after a response without
    a decision, and the one the action phase retries with after a response
    without a command. *)
Definition evaluation_retry_context (context : string) : string :=
  context +:+ nl +:+ nl +:+ "PREVIOUS ATTEMPT FAILED. "
  +:+ "Your last response was invalid. Reason: "
  +:+ "Response did not contain a valid `<decision>...</decision>` block." +:+ nl
  +:+ "Please correct your response and provide a valid decision.".

Definition action_retry_context (context : string) : string :=
  context +:+ nl +:+ nl +:+ "PREVIOUS ATTEMPT FAILED. "
  +:+ "Your last response was invalid. Reason: "
  +:+ ("Action agent response did not contain a valid `<command>...</command>` block. "
       +:+ "This is a format violation. You MUST provide a command.") +:+ nl
  +:+ "Please correct your response and provide a valid command.".

(** The run exited 0 and printed [out], which is not empty: the test
    [result.success and result.stdout] of [get_command_help]. *)
Definition gives_help (outcome : Executor.ProcessOutcome) (out : string) : Prop :=
  ∃ err, outcome = Executor.CompletedProcess 0 out err ∧ out ≠ "".

(** The state a plan phase leaves when it has accepted a plan. *)
Definition plan_accepted (state' : TaskState) : Prop :=
  current_plan state' ≠ "" ∧ strip (current_plan state') = current_plan state'
  ∧ current_instruction state' ≠ ""
  ∧ strip (current_instruction state') = current_instruction state'
  ∧ step_index state' = 0%Z
  ∧ user_clarification state' = ""
  ∧ last_eval_decision state' = ""
  ∧ plan_array state' ≠ []
  ∧ Forall (λ line, line ≠ "" ∧ strip line = line) (plan_array state').

(** One call of [add_interaction] (its time and its arguments), the record
    it appends, and the call itself. *)
Definition recorded {Time : Type}
    (call : Time * string * string * option string * bool)
  : Session.Interaction Time :=
  let '(now, user_prompt, ai_response, command_executed, success) := call in
  {| Session.timestamp := now; Session.user_prompt := user_prompt;
     Session.ai_response := ai_response;
     Session.command_executed := command_executed; Session.success := success |}.

Definition add_call {Time : Type} (self : Session.InteractiveSession Time)
    (call : Time * string * string * option string * bool)
  : Session.InteractiveSession Time :=
  let '(now, user_prompt, ai_response, command_executed, success) := call in
  Session.add_interaction self now user_prompt ai_response command_executed success.

End Behaviour.

(** ** Concrete runs of the task loop *)
Module Scenarios.
Import Py Compactor Handler Orchestration Examples.

Definition plan_response : string :=
  "<checklist>1. list the files" +:+ nl +:+ "2. report</checklist>"
  +:+ "<instruction>list the files</instruction>".

Definition command_response : string := "<command>ls -la</command>".

Definition complete_response : string :=
  "<decision>TASK_COMPLETE: the files are listed</decision>".


Definition question_response : string :=
  "<decision>CLARIFY_USER: which directory?</decision>".

Definition summary_response : string := "<summary>Listed the files.</summary>".

(** [get_current_session_context] of a configuration manager without history. *)
Definition no_history (d : Disk) : string := "".

(** A whole task: plan, one command, the evaluator's verdict, the summary. *)
Definition full_run : list (option string) :=
  [Some plan_response; Some command_response; Some complete_response;
   Some summary_response].

(** The demonstration handler in another operation mode. *)
Definition mode_handler (mode : string) : TaskHandler :=
  {| operation_mode := mode;
     allow_clarifying_questions := true;
     pwd_hash := "9f86d081884c7d65";
     context_compactor := terse_compactor;
     payload_builder := echo_payload;
     check_command_permission :=
       λ command mode, (String.prefix "ls" command, "Command not in allowed list");
     append_context := λ prompt response d, d;
     execute := λ before command, (0%Z, "README.md") |}.


Definition planned_state : TaskState :=
  set_current_instruction "list the files"
    (set_current_plan "1. list the files" initial_state).

(** An executor on a machine where [grep --help] is refused and [grep -h]
    prints a usage line. *)
Definition help_executor : Executor.CommandExecutor :=
  {| Executor.default_timeout := 30;
     Executor.working_directory := "/home/user/project";
     Executor.run := λ ran command timeout,
       if String.eqb command "grep -h"
       then Executor.CompletedProcess 0 ("usage: grep [OPTION]... PATTERNS [FILE]..." +:+ nl) ""
       else Executor.CompletedProcess 2 "" "grep: unrecognized option" |}.

End Scenarios.

Import Py Parsers Compactor Handler Spec.
Open Scope list_scope.
Open Scope nat_scope.

(** * Properties *)

(** ** Token totals *)
Lemma total_tokens_cons e l : total_tokens (e :: l) = entry_tokens e + total_tokens l.
Proof. done. Qed.

Lemma total_tokens_app l1 l2 :
  total_tokens (l1 ++ l2) = total_tokens l1 + total_tokens l2.
Proof.
  induction l1 as [|e l1 IH]; [done|].
  change ((e :: l1) ++ l2) with (e :: (l1 ++ l2)).
  rewrite !total_tokens_cons, IH. lia.
Qed.

(** *** The rebuilding loop *)
Section Rebuild.
Context (sel : gset nat) (summary : ContextEntry).

Lemma rebuild_inserted i l : rebuild sel summary i true l = kept_from sel i l.
Proof.
  revert i; induction l as [|e l IH]; intros i; simpl; [done|].
  case_decide; by rewrite IH.
Qed.

Lemma total_tokens_split i l :
  total_tokens l = total_tokens (kept_from sel i l) + total_tokens (summarized_from sel i l).
Proof.
  revert i; induction l as [|e l IH]; intros i; simpl; [done|].
  case_decide; rewrite !total_tokens_cons, (IH (S i)); lia.
Qed.

Lemma length_split i l :
  length l = length (kept_from sel i l) + length (summarized_from sel i l).
Proof.
  revert i; induction l as [|e l IH]; intros i; simpl; [done|].
  case_decide; simpl; rewrite (IH (S i)); lia.
Qed.

Lemma rebuild_tokens i l :
  total_tokens (rebuild sel summary i false l)
  = total_tokens (kept_from sel i l)
    + one_if_any (summarized_from sel i l) (entry_tokens summary).
Proof.
  revert i; induction l as [|e l IH]; intros i; simpl; [done|].
  case_decide; simpl.
  - rewrite total_tokens_cons, rebuild_inserted. lia.
  - rewrite !total_tokens_cons, IH. lia.
Qed.

Lemma rebuild_length i l :
  length (rebuild sel summary i false l)
  = length (kept_from sel i l) + one_if_any (summarized_from sel i l) 1.
Proof.
  revert i; induction l as [|e l IH]; intros i; simpl; [done|].
  case_decide; simpl.
  - rewrite rebuild_inserted. lia.
  - rewrite IH. lia.
Qed.

Lemma rebuild_keeps i inserted l a e :
  l !! a = Some e → i + a ∉ sel →
  ∃ a', rebuild sel summary i inserted l !! a' = Some e.
Proof.
  revert i inserted a; induction l as [|x l IH]; intros i inserted a Hl Hn; [done|].
  destruct a as [|a]; simpl in *.
  - simplify_eq. rewrite Nat.add_0_r in Hn. rewrite decide_False by done.
    by exists 0.
  - rewrite <- Nat.add_succ_comm in Hn.
    case_decide; [destruct inserted|].
    + by apply (IH (S i) true a).
    + destruct (IH (S i) true a Hl Hn) as [a' Ha']. by exists (S a').
    + destruct (IH (S i) inserted a Hl Hn) as [a' Ha']. by exists (S a').
Qed.

Lemma rebuild_order i inserted l a b ea eb :
  a < b → l !! a = Some ea → l !! b = Some eb → i + a ∉ sel → i + b ∉ sel →
  ∃ a' b', a' < b'
           ∧ rebuild sel summary i inserted l !! a' = Some ea
           ∧ rebuild sel summary i inserted l !! b' = Some eb.
Proof.
  revert i inserted a b.
  induction l as [|x l IH]; intros i inserted a b Hab Ha Hb Hna Hnb; [done|].
  destruct b as [|b]; [lia|].
  rewrite <- Nat.add_succ_comm in Hnb.
  destruct a as [|a]; simpl in *.
  - simplify_eq. rewrite Nat.add_0_r in Hna. rewrite decide_False by done.
    destruct (rebuild_keeps (S i) inserted l b eb Hb Hnb) as [b' Hb'].
    exists 0, (S b'). split_and!; [lia|done|done].
  - rewrite <- Nat.add_succ_comm in Hna.
    assert (a < b) as Hlt by lia.
    case_decide; [destruct inserted|].
    + by apply (IH (S i) true a b).
    + destruct (IH (S i) true a b Hlt Ha Hb Hna Hnb) as (a' & b' & ? & ? & ?).
      exists (S a'), (S b'). split_and!; [lia|done|done].
    + destruct (IH (S i) inserted a b Hlt Ha Hb Hna Hnb) as (a' & b' & ? & ? & ?).
      exists (S a'), (S b'). split_and!; [lia|done|done].
Qed.

Lemma rebuild_first i l k :
  (∀ j, j < k → i + j ∉ sel) → i + k ∈ sel → k < length l →
  rebuild sel summary i false l !! k = Some summary
  ∧ take k (rebuild sel summary i false l) = take k l.
Proof.
  revert i k; induction l as [|x l IH]; intros i k Hbefore Hk Hlen; simpl in *; [lia|].
  destruct k as [|k].
  - rewrite Nat.add_0_r in Hk. by rewrite decide_True.
  - rewrite decide_False.
    2:{ specialize (Hbefore 0). rewrite Nat.add_0_r in Hbefore. apply Hbefore. lia. }
    simpl. destruct (IH (S i) k) as [H1 H2].
    + intros j Hj. rewrite Nat.add_succ_comm. apply Hbefore. lia.
    + by rewrite Nat.add_succ_comm.
    + lia.
    + by rewrite H1, H2.
Qed.

End Rebuild.

(** ** Index selection *)

(** *** The backward scans for the preserved entries *)
Lemma enumerate_from_app {A} i (l1 l2 : list A) :
  enumerate_from i (l1 ++ l2)
  = enumerate_from i l1 ++ enumerate_from (i + length l1) l2.
Proof.
  revert i; induction l1 as [|x l1 IH]; intros i; simpl.
  - by rewrite Nat.add_0_r.
  - by rewrite IH, Nat.add_succ_comm.
Qed.

Lemma scan_for_snoc p es x :
  scan_for p (reverse (enumerate (es ++ [x])))
  = if p x then Z.of_nat (length es) else scan_for p (reverse (enumerate es)).
Proof.
  unfold enumerate. rewrite enumerate_from_app. simpl.
  by rewrite reverse_snoc.
Qed.

Lemma scan_for_last p es k e :
  es !! k = Some e → p e = true →
  (∀ j e', k < j → es !! j = Some e' → p e' = false) →
  scan_for p (reverse (enumerate es)) = Z.of_nat k.
Proof.
  revert k e; induction es as [|x es IH] using rev_ind; intros k e Hk Hp Hlater; [done|].
  rewrite scan_for_snoc.
  destruct (decide (k = length es)) as [->|Hne].
  - rewrite list_lookup_middle in Hk by done. simplify_eq. by rewrite Hp.
  - assert (k < length es) as Hlt.
    { apply lookup_lt_Some in Hk. rewrite length_app in Hk. simpl in Hk. lia. }
    rewrite (Hlater (length es) x Hlt) by (by rewrite list_lookup_middle).
    rewrite lookup_app_l in Hk by done.
    apply (IH k e Hk Hp). intros j e' Hj He'.
    apply (Hlater j e' Hj). by rewrite lookup_app_l by (by eapply lookup_lt_Some).
Qed.

Lemma scan_for_found p es k :
  scan_for p (reverse (enumerate es)) = Z.of_nat k →
  ∃ e, es !! k = Some e ∧ p e = true
       ∧ ∀ j e', k < j → es !! j = Some e' → p e' = false.
Proof.
  revert k; induction es as [|x es IH] using rev_ind; intros k; [simpl; lia|].
  rewrite scan_for_snoc. destruct (p x) eqn:Hp.
  - intros Hk. apply Nat2Z.inj in Hk. subst k. exists x. split_and!.
    + by rewrite list_lookup_middle.
    + done.
    + intros j e' Hj He'. apply lookup_lt_Some in He'.
      rewrite length_app in He'. simpl in He'. lia.
  - intros Hk. destruct (IH k Hk) as (e & He & Hpe & Hlater).
    exists e. split_and!.
    + by rewrite lookup_app_l by (by eapply lookup_lt_Some).
    + done.
    + intros j e' Hj He'. destruct (decide (j < length es)) as [Hlt|Hge].
      * rewrite lookup_app_l in He' by done. by eapply Hlater.
      * assert (j = length es) as ->.
        { apply lookup_lt_Some in He'. rewrite length_app in He'. simpl in He'. lia. }
        rewrite list_lookup_middle in He' by done. by simplify_eq.
Qed.

Lemma scan_for_range p es :
  (scan_for p (reverse (enumerate es)) = -1)%Z
  ∨ ∃ k, k < length es ∧ scan_for p (reverse (enumerate es)) = Z.of_nat k.
Proof.
  induction es as [|x es IH] using rev_ind; [by left|].
  rewrite scan_for_snoc, length_app. simpl. destruct (p x).
  - right. exists (length es). split; [lia|done].
  - destruct IH as [?|(k & ? & ?)]; [by left|].
    right. exists k. split; [lia|done].
Qed.

(** *** Sortedness of the compactable indices *)
Lemma StronglySorted_weaken {A} (R R' : relation A) l :
  (∀ x y, R x y → R' x y) → StronglySorted R l → StronglySorted R' l.
Proof.
  intros HR. induction 1 as [|x l Hl IH Hx]; constructor; [done|].
  eapply Forall_impl; [done|]. auto.
Qed.

Lemma filter_seq_sorted (P : nat → Prop) `{!∀ i, Decision (P i)} j n :
  StronglySorted lt (filter P (seq j n)).
Proof.
  revert j; induction n as [|n IH]; intros j; simpl; [constructor|].
  rewrite filter_cons. case_decide; [|apply IH].
  constructor; [apply IH|].
  apply Forall_forall. intros x Hx.
  apply list_elem_of_filter in Hx as [_ Hx]. apply elem_of_seq in Hx. lia.
Qed.

Lemma StronglySorted_take {A} (R : relation A) n l :
  StronglySorted R l → StronglySorted R (take n l).
Proof.
  intros Hl. rewrite <- (take_drop n l) in Hl.
  by apply StronglySorted_app_1_l in Hl.
Qed.

Lemma StronglySorted_lookup_lt l a b x y :
  StronglySorted lt l → a < b → l !! a = Some x → l !! b = Some y → x < y.
Proof.
  intros Hl. revert a b. induction Hl as [|z l Hl IH Hz]; intros a b Hab Ha Hb; [done|].
  destruct b as [|b]; [lia|]. destruct a as [|a]; simpl in *.
  - simplify_eq. rewrite Forall_forall in Hz. apply Hz.
    by eapply list_elem_of_lookup_2.
  - apply (IH a b); [lia|done|done].
Qed.

Section Selection.
Context (es : list ContextEntry) (cur : option string).

Lemma compactable_sorted : StronglySorted lt (compactable_indices es cur).
Proof. apply filter_seq_sorted. Qed.

Lemma compactable_NoDup : NoDup (compactable_indices es cur).
Proof. apply NoDup_filter, NoDup_seq. Qed.

Lemma elem_of_compactable i :
  i ∈ compactable_indices es cur ↔
    i < length es
    ∧ Z.of_nat i ≠ latest_plan_index es
    ∧ Z.of_nat i ≠ current_prompt_index es cur.
Proof.
  unfold compactable_indices. rewrite list_elem_of_filter, elem_of_seq.
  intuition lia.
Qed.

Lemma elem_of_to_compact i :
  i ∈ indices_to_compact es cur ↔
    i ∈ take (num_to_compact es cur) (compactable_indices es cur).
Proof. unfold indices_to_compact. by rewrite elem_of_list_to_set. Qed.

Lemma to_compact_compactable i :
  i ∈ indices_to_compact es cur →
  i < length es
  ∧ Z.of_nat i ≠ latest_plan_index es
  ∧ Z.of_nat i ≠ current_prompt_index es cur.
Proof.
  rewrite elem_of_to_compact. intros Hi.
  apply elem_of_compactable. eapply elem_of_sublist; [done|apply sublist_take].
Qed.

Lemma sorted_to_compact :
  sorted (indices_to_compact es cur)
  = take (num_to_compact es cur) (compactable_indices es cur).
Proof.
  unfold sorted, indices_to_compact.
  apply (StronglySorted_unique Nat.le).
  - apply StronglySorted_merge_sort; apply _.
  - apply (StronglySorted_weaken lt); [intros; unfold Nat.le; lia|].
    apply StronglySorted_take, compactable_sorted.
  - rewrite merge_sort_Permutation. apply elements_list_to_set.
    eapply sublist_NoDup; [apply compactable_NoDup|apply sublist_take].
Qed.

Lemma size_to_compact :
  size (indices_to_compact es cur) = num_to_compact es cur.
Proof.
  unfold indices_to_compact. rewrite size_list_to_set.
  - rewrite length_take. unfold num_to_compact.
    pose proof (Nat.Div0.div_le_upper_bound
      (length (compactable_indices es cur)) 2 (length (compactable_indices es cur))).
    lia.
  - eapply sublist_NoDup; [apply compactable_NoDup|apply sublist_take].
Qed.

(** Every selected index is followed by a compactable index that is not selected. *)
Lemma to_compact_not_last i :
  i ∈ indices_to_compact es cur → S i < length es.
Proof.
  rewrite elem_of_to_compact. intros Hi.
  apply list_elem_of_lookup in Hi as [a Ha].
  apply lookup_take_Some in Ha as [Ha Hlt].
  unfold num_to_compact in Hlt.
  set (L := compactable_indices es cur) in *.
  assert (length L / 2 < length L) as Hhalf.
  { apply Nat.div_lt; [|lia]. apply lookup_lt_Some in Ha. lia. }
  destruct (lookup_lt_is_Some_2 L (length L / 2) Hhalf) as [j Hj].
  pose proof (StronglySorted_lookup_lt L a (length L / 2) i j
                compactable_sorted Hlt Ha Hj).
  assert (j ∈ L) as HjL by (by eapply list_elem_of_lookup_2).
  apply elem_of_compactable in HjL. lia.
Qed.

End Selection.

Lemma omap_ext_elem {A B} (f g : A → option B) (l : list A) :
  (∀ x, x ∈ l → f x = g x) → omap f l = omap g l.
Proof.
  induction l as [|x l IH]; intros Hfg; [done|].
  cbn. rewrite (Hfg x) by left. rewrite IH; [done|].
  intros y Hy. apply Hfg. by right.
Qed.

Lemma summarized_from_ext S1 S2 i l :
  (∀ j, i ≤ j → j ∈ S1 ↔ j ∈ S2) →
  summarized_from S1 i l = summarized_from S2 i l.
Proof.
  revert i; induction l as [|x l IH]; intros i Hext; simpl; [done|].
  rewrite (IH (S i)) by (intros j Hj; apply Hext; lia).
  destruct (decide (i ∈ S1)) as [H1|H1], (decide (i ∈ S2)) as [H2|H2];
    try done; exfalso; apply (Hext i) in H1 || apply (Hext i) in H2; done || lia.
Qed.

Lemma summarized_from_sublist l i (L : list nat) :
  L `sublist_of` seq i (length l) →
  summarized_from (list_to_set L) i l = omap (λ j, l !! (j - i)) L.
Proof.
  revert i L; induction l as [|x l IH]; intros i L HL; simpl in HL.
  - apply sublist_nil_r in HL. by subst L.
  - assert (∀ L', L' `sublist_of` seq (S i) (length l) →
              omap (λ j, (x :: l) !! (j - i)) L' = omap (λ j, l !! (j - S i)) L')
      as Hshift.
    { intros L' HL'. apply omap_ext_elem. intros j Hj.
      eapply elem_of_sublist in Hj; [|done]. apply elem_of_seq in Hj.
      by replace (j - i) with (S (j - S i)) by lia. }
    apply sublist_cons_r in HL as [HL|(L' & -> & HL)].
    + simpl. rewrite decide_False.
      2:{ rewrite elem_of_list_to_set. intros Hi.
          eapply elem_of_sublist in Hi; [|done]. apply elem_of_seq in Hi. lia. }
      rewrite IH by done. by rewrite Hshift.
    + simpl. rewrite decide_True by set_solver.
      cbn. rewrite Nat.sub_diag. simpl. f_equal.
      rewrite Hshift by done. rewrite <- IH by done.
      apply summarized_from_ext. intros j Hj.
      rewrite elem_of_union, elem_of_singleton.
      split; [intros [->|?]; [lia|done]|by right].
Qed.

Lemma entries_to_summarize_eq es cur :
  entries_to_summarize es cur = summarized_from (indices_to_compact es cur) 0 es.
Proof.
  unfold entries_to_summarize. rewrite sorted_to_compact.
  unfold indices_to_compact. rewrite summarized_from_sublist.
  - apply omap_ext_elem. intros j _. by rewrite Nat.sub_0_r.
  - etrans; [apply sublist_take|apply sublist_filter].
Qed.

Lemma length_summarized_from sel i l :
  (∀ j, j ∈ sel → i ≤ j < i + length l) →
  length (summarized_from sel i l) = size sel.
Proof.
  revert sel i; induction l as [|x l IH]; intros sel i HS; simpl.
  - symmetry. apply size_empty_iff, elem_of_equiv_empty.
    intros j Hj. apply HS in Hj. simpl in Hj. lia.
  - case_decide as Hi; simpl.
    + rewrite (summarized_from_ext sel (sel ∖ {[i]})).
      2:{ intros j Hj. rewrite elem_of_difference, not_elem_of_singleton.
          split; [intros ?; split; [done|lia]|by intros [? _]]. }
      rewrite IH.
      * rewrite size_difference by (by apply singleton_subseteq_l).
        rewrite size_singleton.
        assert (size sel ≠ 0); [|lia]. apply size_non_empty_iff.
        intros HE. rewrite HE in Hi. by apply not_elem_of_empty in Hi.
      * intros j Hj. apply elem_of_difference in Hj as [Hj Hne].
        apply HS in Hj. simpl in Hj. rewrite not_elem_of_singleton in Hne. lia.
    + apply IH. intros j Hj. destruct (decide (j = i)) as [->|]; [done|].
      apply HS in Hj. simpl in Hj. lia.
Qed.

(** ** The compaction pass *)
Lemma compact_context_skip c es cur :
  should_compact_context c es = false
  ∨ length (compactable_indices es cur) < 2 →
  compact_context c es cur = es.
Proof.
  unfold compact_context. intros [->|Hlt]; [done|].
  destruct (should_compact_context c es); [simpl|done].
  by rewrite (proj2 (Nat.ltb_lt _ _) Hlt).
Qed.

Lemma compact_context_pass c es cur :
  should_compact_context c es = true →
  2 ≤ length (compactable_indices es cur) →
  compact_context c es cur
  = rebuild (indices_to_compact es cur)
      (summary_entry c (entries_to_summarize es cur)) 0 false es
    ++ appended_prompt es cur.
Proof.
  intros Hs Hlen. unfold compact_context. rewrite Hs. simpl.
  rewrite (proj2 (Nat.ltb_ge _ _) Hlen).
  rewrite bool_decide_eq_false_2; [done|].
  intros Hempty. pose proof (size_to_compact es cur) as Hsize.
  rewrite Hempty, size_empty in Hsize. unfold num_to_compact in Hsize.
  assert (1 ≤ length (compactable_indices es cur) / 2); [|lia].
  by apply Nat.div_le_lower_bound.
Qed.

Lemma summarized_nonempty es cur :
  2 ≤ length (compactable_indices es cur) →
  summarized_from (indices_to_compact es cur) 0 es ≠ [].
Proof.
  intros Hlen Hnil. apply (f_equal length) in Hnil.
  rewrite length_summarized_from in Hnil.
  - rewrite size_to_compact in Hnil. unfold num_to_compact in Hnil.
    change (length (@nil ContextEntry)) with 0 in Hnil.
    assert (1 ≤ length (compactable_indices es cur) / 2) as Hhalf
      by (by apply Nat.div_le_lower_bound).
    rewrite Hnil in Hhalf. lia.
  - intros j Hj. apply to_compact_compactable in Hj. lia.
Qed.

(** C9. When compaction is due but fewer than two indices remain once the
    latest plan index and the current-prompt index are set aside, the pass
    returns its input unchanged. *)
Theorem compact_identity_below_two_compactable c es cur :
  should_compact_context c es = true →
  length (compactable_indices es cur) < 2 →
  compact_context c es cur = es.
Proof. intros _ Hlt. apply compact_context_skip. by right. Qed.

(** C5 (amended). When compaction is due, the output's total estimated
    token count does not exceed the input's, provided the estimate of the
    summary entry, plus that of the current-prompt marker if one is appended,
    does not exceed the summed estimates of the entries the summary replaces. *)
Theorem compact_tokens_bounded c es cur :
  should_compact_context c es = true →
  entry_tokens (summary_entry c (entries_to_summarize es cur))
    + total_tokens (appended_prompt es cur)
    ≤ total_tokens (entries_to_summarize es cur) →
  total_tokens (compact_context c es cur) ≤ total_tokens es.
Proof.
  intros Hs Hfit.
  destruct (decide (length (compactable_indices es cur) < 2)) as [Hlt|Hge].
  { rewrite compact_context_skip by (by right). done. }
  rewrite compact_context_pass by (done || lia).
  rewrite total_tokens_app, rebuild_tokens.
  rewrite (total_tokens_split (indices_to_compact es cur) 0 es).
  rewrite entries_to_summarize_eq in Hfit |- *.
  destruct (summarized_from (indices_to_compact es cur) 0 es) as [|e rest];
    unfold one_if_any.
  - change (total_tokens []) with 0 in *. lia.
  - lia.
Qed.

Lemma contains_empty s : contains "" s = true.
Proof. by destruct s. Qed.

Lemma kept_in_output c es cur a e :
  es !! a = Some e → a ∉ indices_to_compact es cur →
  e ∈ compact_context c es cur.
Proof.
  intros Ha Hn.
  destruct (should_compact_context c es) eqn:Hs;
    [destruct (decide (length (compactable_indices es cur) < 2)) as [Hlt|Hge]|].
  - rewrite compact_context_skip by (by right). by eapply list_elem_of_lookup_2.
  - rewrite compact_context_pass by (done || lia).
    destruct (rebuild_keeps (indices_to_compact es cur)
                (summary_entry c (entries_to_summarize es cur)) 0 false es a e Ha Hn)
      as [a' Ha'].
    apply elem_of_app. left. by eapply list_elem_of_lookup_2.
  - rewrite compact_context_skip by (by left). by eapply list_elem_of_lookup_2.
Qed.

(** C6. The most recent plan entry, and the most recent entry whose prompt
    contains the current prompt, are never selected for summarization and
    both occur in the output of the pass. *)
Theorem preserved_entries_survive c es cur :
  (∀ p e,
      es !! p = Some e → is_plan e = true →
      (∀ j e', p < j → es !! j = Some e' → is_plan e' = false) →
      (p ∉ indices_to_compact es cur) ∧ e ∈ compact_context c es cur)
  ∧ (∀ current q e,
        cur = Some current →
        es !! q = Some e → contains current (user_prompt e) = true →
        (∀ j e', q < j → es !! j = Some e' →
                 contains current (user_prompt e') = false) →
        (q ∉ indices_to_compact es cur) ∧ e ∈ compact_context c es cur).
Proof.
  split.
  - intros p e Hp Hplan Hlast.
    assert (p ∉ indices_to_compact es cur) as Hn.
    { intros Hin. apply to_compact_compactable in Hin as (_ & Hne & _).
      apply Hne. symmetry. by apply (scan_for_last is_plan es p e). }
    split; [done|]. by apply (kept_in_output c es cur p e).
  - intros current q e -> Hq Hmatch Hlast.
    assert (q ∉ indices_to_compact es (Some current)) as Hn.
    { intros Hin. destruct (truthy (Some current)) eqn:Ht.
      - apply to_compact_compactable in Hin as (_ & _ & Hne).
        apply Hne. unfold current_prompt_index. rewrite Ht. symmetry.
        by apply (scan_for_last _ es q e).
      - simpl in Ht. apply negb_false_iff, String.eqb_eq in Ht. subst current.
        apply to_compact_not_last in Hin.
        destruct (lookup_lt_is_Some_2 es (S q) Hin) as [e' He'].
        specialize (Hlast (S q) e' (Nat.lt_succ_diag_r q) He').
        by rewrite contains_empty in Hlast. }
    split; [done|]. by apply (kept_in_output c es (Some current) q e).
Qed.

Lemma first_to_compact es cur :
  2 ≤ length (compactable_indices es cur) →
  ∃ first, compactable_indices es cur !! 0 = Some first
           ∧ first ∈ indices_to_compact es cur
           ∧ ∀ j, j ∈ indices_to_compact es cur → first ≤ j.
Proof.
  intros Hlen.
  destruct (lookup_lt_is_Some_2 (compactable_indices es cur) 0) as [first Hfirst]; [lia|].
  assert (1 ≤ num_to_compact es cur) as Hnum
    by (by apply Nat.div_le_lower_bound).
  exists first. split_and!; [done| |].
  - apply elem_of_to_compact. apply list_elem_of_lookup. exists 0.
    by rewrite lookup_take_lt by lia.
  - intros j Hj. apply elem_of_to_compact, list_elem_of_lookup in Hj as [a Ha].
    apply lookup_take_Some in Ha as [Ha _].
    destruct a as [|a]; [by simplify_eq|].
    pose proof (StronglySorted_lookup_lt _ 0 (S a) first j
                  (compactable_sorted es cur) (Nat.lt_0_succ a) Hfirst Ha).
    lia.
Qed.

(** C7. In a pass that summarizes, every entry that is not selected occurs in
    the output, two such entries keep their relative order, the summary entry
    stands at the index of the oldest selected entry (before which the output
    equals the input), and the output has exactly one entry more than the
    entries kept (plus the marker, if appended). *)
Theorem compaction_preserves_order c es cur :
  should_compact_context c es = true →
  2 ≤ length (compactable_indices es cur) →
  let to_compact := indices_to_compact es cur in
  let summary := summary_entry c (entries_to_summarize es cur) in
  let result := compact_context c es cur in
  (∀ a e, es !! a = Some e → a ∉ to_compact → ∃ a', result !! a' = Some e)
  ∧ (∀ a b ea eb,
        a < b → es !! a = Some ea → es !! b = Some eb →
        a ∉ to_compact → b ∉ to_compact →
        ∃ a' b', a' < b' ∧ result !! a' = Some ea ∧ result !! b' = Some eb)
  ∧ (∃ first,
        first ∈ to_compact ∧ (∀ j, j ∈ to_compact → first ≤ j)
        ∧ result !! first = Some summary
        ∧ take first result = take first es)
  ∧ length result
    = length es - size to_compact + 1 + length (appended_prompt es cur).
Proof.
  intros Hs Hlen to_compact summary result.
  subst result. rewrite compact_context_pass by done.
  fold to_compact summary. split_and!.
  - intros a e Ha Hn.
    destruct (rebuild_keeps to_compact summary 0 false es a e Ha Hn) as [a' Ha'].
    exists a'. by apply lookup_app_l_Some.
  - intros a b ea eb Hab Ha Hb Hna Hnb.
    destruct (rebuild_order to_compact summary 0 false es a b ea eb Hab Ha Hb Hna Hnb)
      as (a' & b' & ? & ? & ?).
    exists a', b'. split_and!; [done|by apply lookup_app_l_Some..].
  - destruct (first_to_compact es cur Hlen) as (first & _ & Hin & Hmin).
    exists first.
    destruct (rebuild_first to_compact summary 0 es first) as [Hat Htake].
    + intros j Hj Hjin. apply Hmin in Hjin. simpl in Hjin. lia.
    + done.
    + apply to_compact_compactable in Hin. lia.
    + split_and!; [done|done|by apply lookup_app_l_Some|].
      rewrite take_app_le; [done|].
      apply lookup_lt_Some in Hat. lia.
  - rewrite length_app, rebuild_length.
    pose proof (length_split to_compact 0 es) as Hsplit.
    pose proof (summarized_nonempty es cur Hlen) as Hne. fold to_compact in Hne.
    rewrite length_summarized_from in Hsplit.
    2:{ intros j Hj. apply to_compact_compactable in Hj. lia. }
    destruct (summarized_from to_compact 0 es); [done|].
    unfold one_if_any. lia.
Qed.

Lemma total_tokens_uniform es n :
  Forall (λ e, String.length (user_prompt e +:+ llm_response e) = n) es →
  total_tokens es = length es * (n / 4).
Proof.
  induction 1 as [|e es He _ IH]; [done|].
  rewrite total_tokens_cons, IH. unfold entry_tokens, estimate_token_count.
  rewrite He. simpl. lia.
Qed.

Lemma length_filter_without_two (P Q : Z) p q n :
  P = Z.of_nat p → Q = Z.of_nat q → p < n → q < n → p ≠ q →
  length (filter (λ i, Z.of_nat i ≠ P ∧ Z.of_nat i ≠ Q) (seq 0 n)) + 2 = n.
Proof.
  intros -> -> Hp Hq Hpq.
  pose proof (filter_app_complement
                (λ i, Z.of_nat i ≠ Z.of_nat p ∧ Z.of_nat i ≠ Z.of_nat q) (seq 0 n)) as Hperm.
  apply Permutation_length in Hperm. rewrite length_app, length_seq in Hperm.
  assert (filter (λ i, ¬ (Z.of_nat i ≠ Z.of_nat p ∧ Z.of_nat i ≠ Z.of_nat q)) (seq 0 n)
          ≡ₚ [p; q]) as Hpq_only.
  { apply NoDup_Permutation.
    - apply NoDup_filter, NoDup_seq.
    - apply NoDup_cons. split; [by rewrite list_elem_of_singleton|apply NoDup_singleton].
    - intros i. rewrite list_elem_of_filter, elem_of_seq, !elem_of_cons, elem_of_nil.
      split.
      + intros [Hi _]. destruct (decide (i = p)); [by left|].
        destruct (decide (i = q)); [by right; left|].
        exfalso. apply Hi. lia.
      + intros [->|[->|[]]]; (split; [lia|lia]). }
  apply Permutation_length in Hpq_only. simpl in Hpq_only. lia.
Qed.

(** C8. Scenario 2: budget 2000, forty entries of 200 characters, a plan
    entry and a distinct current-prompt entry: compaction is due, 38 indices
    are compactable, the 19 oldest of them are replaced by one summary entry
    placed at the oldest of them, nothing is appended, and 22 entries result. *)
Theorem scenario_forty_entries c es cur p q :
  max_context_tokens c = 2000%Z →
  length es = 40 →
  Forall (λ e, String.length (user_prompt e +:+ llm_response e) = 200) es →
  latest_plan_index es = Z.of_nat p →
  current_prompt_index es cur = Z.of_nat q →
  p ≠ q →
  should_compact_context c es = true
  ∧ length (compactable_indices es cur) = 38
  ∧ indices_to_compact es cur = list_to_set (take 19 (compactable_indices es cur))
  ∧ size (indices_to_compact es cur) = 19
  ∧ length (entries_to_summarize es cur) = 19
  ∧ appended_prompt es cur = []
  ∧ length (compact_context c es cur) = 22
  ∧ ∃ first, compactable_indices es cur !! 0 = Some first
             ∧ compact_context c es cur !! first
               = Some (summary_entry c (entries_to_summarize es cur)).
Proof.
  intros Hmax Hlen Hsize Hp Hq Hpq.
  assert (should_compact_context c es = true) as Hs.
  { unfold should_compact_context, threshold_tokens.
    rewrite Hmax, (total_tokens_uniform es 200 Hsize), Hlen. done. }
  assert (length (compactable_indices es cur) = 38) as Hcompactable.
  { destruct (scan_for_found _ _ _ Hp) as (ep & Hep & _).
    assert (∃ eq, es !! q = Some eq) as [eq Heq].
    { unfold current_prompt_index in Hq. destruct (truthy cur); [|lia].
      destruct (scan_for_found _ _ _ Hq) as (eq & Heq & _). by exists eq. }
    apply lookup_lt_Some in Hep, Heq.
    pose proof (length_filter_without_two
                  (latest_plan_index es) (current_prompt_index es cur)
                  p q (length es) Hp Hq Hep Heq Hpq) as Hcount.
    unfold compactable_indices. lia. }
  assert (num_to_compact es cur = 19) as Hnum
    by (unfold num_to_compact; by rewrite Hcompactable).
  assert (appended_prompt es cur = []) as Happ.
  { unfold appended_prompt. rewrite Hq.
    rewrite bool_decide_eq_false_2 by lia. by rewrite andb_false_r. }
  pose proof (compaction_preserves_order c es cur Hs) as Horder.
  rewrite Hcompactable in Horder. specialize (Horder ltac:(lia)).
  simpl in Horder. destruct Horder as (_ & _ & _ & Hlength).
  split_and!; try done.
  - unfold indices_to_compact. by rewrite Hnum.
  - by rewrite size_to_compact.
  - rewrite entries_to_summarize_eq, length_summarized_from, size_to_compact; [done|].
    intros j Hj. apply to_compact_compactable in Hj. lia.
  - rewrite Hlength, size_to_compact, Hnum, Hlen, Happ. done.
  - destruct (first_to_compact es cur) as (first & Hfirst & Hin & Hmin);
      [rewrite Hcompactable; lia|].
    exists first. split; [done|].
    rewrite compact_context_pass by (done || rewrite Hcompactable; lia).
    apply lookup_app_l_Some.
    apply rebuild_first.
    + intros j Hj Hjin. apply Hmin in Hjin. simpl in Hjin. lia.
    + done.
    + apply to_compact_compactable in Hin. lia.
Qed.

(** Witness of C9: two entries over budget, the later one the plan. *)
Lemma compact_identity_below_two_compactable_witness :
  compact_context Examples.terse_compactor Examples.history2 None = Examples.history2.
Proof.
  apply compact_identity_below_two_compactable.
  - vm_compute. reflexivity.
  - vm_compute. lia.
Defined.

(** Counterexample to C5 as stated: the model answers with 400 characters
    and the compacted history is larger than the original. *)
Lemma compact_tokens_unbounded :
  should_compact_context Examples.verbose_compactor Examples.history5 = true
  ∧ total_tokens Examples.history5
    < total_tokens (compact_context Examples.verbose_compactor Examples.history5 None).
Proof. split; [vm_compute; reflexivity|vm_compute; lia]. Qed.

(** Witness of C5 (amended). *)
Lemma compact_tokens_bounded_witness :
  total_tokens (compact_context Examples.terse_compactor Examples.history5 None)
  ≤ total_tokens Examples.history5.
Proof.
  apply compact_tokens_bounded.
  - vm_compute. reflexivity.
  - vm_compute. lia.
Defined.

(** Witness of C6. *)
Lemma preserved_entries_survive_witness :
  ((1 ∉ indices_to_compact Examples.history5 (Some "run the test"))
   ∧ Examples.entry_of "plan the refactoring" "<checklist>1. look.." true
     ∈ compact_context Examples.terse_compactor Examples.history5 (Some "run the test"))
  ∧ ((3 ∉ indices_to_compact Examples.history5 (Some "run the test"))
     ∧ Examples.entry_of "run the test suite.." "3 passed, 1 failed.." false
       ∈ compact_context Examples.terse_compactor Examples.history5 (Some "run the test")).
Proof.
  destruct (preserved_entries_survive Examples.terse_compactor Examples.history5
              (Some "run the test")) as [Hplan Hcurrent].
  split.
  - apply (Hplan 1); [reflexivity|reflexivity|].
    intros j e' Hj He'.
    do 2 (destruct j as [|j]; [lia|]).
    do 3 (destruct j as [|j]; [by simplify_eq/=|]). done.
  - apply (Hcurrent "run the test" 3); [reflexivity|reflexivity|reflexivity|].
    intros j e' Hj He'.
    do 4 (destruct j as [|j]; [lia|]).
    destruct j as [|j]; [by simplify_eq/=|]. done.
Defined.

(** Witness of C7. *)
Lemma compaction_preserves_order_witness :
  compact_context Examples.terse_compactor Examples.history5 None !! 0
  = Some (summary_entry Examples.terse_compactor
            (entries_to_summarize Examples.history5 None))
  ∧ length (compact_context Examples.terse_compactor Examples.history5 None) = 4.
Proof.
  destruct (compaction_preserves_order Examples.terse_compactor Examples.history5 None)
    as (_ & _ & (first & Hin & Hmin & Hat & _) & Hlen).
  - vm_compute. reflexivity.
  - vm_compute. lia.
  - assert (first = 0) as ->.
    { assert (0 ∈ indices_to_compact Examples.history5 None) as H0
        by (vm_compute; reflexivity).
      apply Hmin in H0. lia. }
    split; [exact Hat|]. rewrite Hlen. vm_compute. reflexivity.
Defined.

(** Witness of C8. *)
Lemma scenario_forty_entries_witness :
  should_compact_context Examples.scenario_compactor Examples.history40 = true
  ∧ length (compactable_indices Examples.history40 (Some "deploy")) = 38
  ∧ size (indices_to_compact Examples.history40 (Some "deploy")) = 19
  ∧ length (compact_context Examples.scenario_compactor Examples.history40
              (Some "deploy")) = 22.
Proof.
  destruct (scenario_forty_entries Examples.scenario_compactor Examples.history40
              (Some "deploy") 5 30) as (H1 & H2 & _ & H4 & _ & _ & H7 & _).
  - reflexivity.
  - reflexivity.
  - vm_compute. repeat constructor.
  - vm_compute. reflexivity.
  - vm_compute. reflexivity.
  - lia.
  - exact (conj H1 (conj H2 (conj H4 H7))).
Defined.

(** *** When the model call fails *)

Lemma create_context_summary_no_answer self entries :
  entries ≠ [] →
  truthy (prepare_payload self "simple" (summary_prompt (context_text entries))) = true →
  (∀ payload, truthy (send_request self payload) = false) →
  create_context_summary self entries
  = "[Summary of " +:+ pretty (length entries) +:+ " historical entries - LLM failed]".
Proof.
  intros Hne Hpayload Hsilent. unfold create_context_summary.
  destruct entries as [|entry rest]; [done|].
  by rewrite Hpayload, Hsilent.
Qed.

Lemma create_context_summary_no_payload self entries :
  entries ≠ [] →
  truthy (prepare_payload self "simple" (summary_prompt (context_text entries))) = false →
  create_context_summary self entries
  = "[Summary of " +:+ pretty (length entries)
      +:+ " historical entries - LLM unavailable]".
Proof.
  intros Hne Hpayload. unfold create_context_summary.
  destruct entries as [|entry rest]; [done|].
  by rewrite Hpayload.
Qed.

Lemma compact_context_segment_no_answer self entries level :
  (∀ payload, truthy (send_request self payload) = false) →
  compact_context_segment self entries level = context_text entries.
Proof.
  intros Hsilent. unfold compact_context_segment.
  destruct entries as [|entry rest]; [done|].
  destruct (truthy (prepare_payload _ _ _)); cbn [negb]; [|done].
  by rewrite Hsilent.
Qed.

(** C3. With the transport giving no answer, the pass over [history5] replaces
    the two oldest compactable entries by the placeholder text; their own text
    is not in the result, whereas [compact_context_segment] on the same
    entries returns it. *)
Theorem failed_summary_replaces_entries :
  let summarized := entries_to_summarize Examples.history5 None in
  should_compact_context Examples.offline_compactor Examples.history5 = true
  ∧ summarized = [Examples.entry_of "list the files here." "README.md src tests." false;
                  Examples.entry_of "show the parser file" "def parse(text): ..." false]
  ∧ llm_response <$> compact_context Examples.offline_compactor Examples.history5 None
    = ["[Summary of 2 historical entries - LLM failed]";
       "<checklist>1. look.."; "3 passed, 1 failed.."; "assert x == 4 failed"]
  ∧ compact_context_segment Examples.offline_compactor summarized 1
    = context_text summarized
  ∧ context_text summarized ≠ "[Summary of 2 historical entries - LLM failed]".
Proof. vm_compute. split_and!; try reflexivity. discriminate. Qed.

(** ** The session store *)
Lemma parse_saved_compacted_entry repr i entry :
  type entry = "compacted" →
  parse_entry repr i (json_entry entry)
  = Some {| type := "compacted";
            user_prompt := user_prompt entry;
            llm_response := "Error occurred";
            timestamp := timestamp entry;
            original_user_prompt := "";
            is_plan := contains "plan" (lower (user_prompt entry));
            is_original_request := bool_decide (i = 0);
            compaction_level := 0 |}.
Proof.
  intros Htype. unfold json_entry. rewrite Htype.
  change ("compacted" =? "compacted")%string with true. cbn iota.
  unfold parse_entry, field_is.
  repeat (rewrite ?lookup_insert_eq; rewrite ?lookup_insert_ne by done).
  change ("compacted" =? "success")%string with false. cbn [andb].
  rewrite lookup_singleton_ne by done.
  cbn [default from_option id as_text mbind option_bind].
  change (contains "checklist" (lower "Error occurred")) with false.
  by rewrite orb_false_r.
Qed.

Lemma parse_saved_session repr entries i :
  Forall (λ entry, type entry = "compacted") entries →
  parse_session repr i (json_entry <$> entries)
  = Some (imap (λ k entry,
                  {| type := "compacted";
                     user_prompt := user_prompt entry;
                     llm_response := "Error occurred";
                     timestamp := timestamp entry;
                     original_user_prompt := "";
                     is_plan := contains "plan" (lower (user_prompt entry));
                     is_original_request := bool_decide (i + k = 0);
                     compaction_level := 0 |}) entries).
Proof.
  intros Hall. revert i. induction Hall as [|entry entries Htype _ IH]; intros i; [done|].
  cbn [fmap list_fmap parse_session].
  rewrite (parse_saved_compacted_entry repr i entry Htype).
  cbn [mbind option_bind]. rewrite (IH (S i)). cbn [mbind option_bind imap].
  rewrite Nat.add_0_r. do 2 f_equal.
  apply imap_ext. intros k e _. cbn. by rewrite Nat.add_succ_r.
Qed.

(** C2. Saving a compacted summary entry and parsing the stored session
    again gives back the kind, prompt and timestamp, but the response
    ["Error occurred"] and compaction level 0. *)
Theorem compacted_round_trip_drops_summary :
  ∃ data,
    save_compacted_context [Examples.stored_summary] "9f86d081884c7d65"
      Examples.fresh_disk
    = (true, {| context_file := FileData data; writable := true |})
    ∧ ∀ repr,
        parse_context_entries repr data "9f86d081884c7d65"
        = Some [ {| type := "compacted";
                    user_prompt := "[HISTORICAL CONTEXT SUMMARY]";
                    llm_response := "Error occurred";
                    timestamp := "2025-06-01T10:00:00";
                    original_user_prompt := "";
                    is_plan := false;
                    is_original_request := true;
                    compaction_level := 0 |} ]
        ∧ llm_response Examples.stored_summary = "Files listed; parser shown."
        ∧ compaction_level Examples.stored_summary = 1%Z.
Proof.
  eexists. split; [reflexivity|].
  intros repr. split_and!; [|reflexivity..].
  unfold parse_context_entries. rewrite lookup_insert_eq.
  rewrite (parse_saved_session repr [Examples.stored_summary] 0)
    by (repeat constructor).
  reflexivity.
Qed.


(** ** The command gate and the evaluator's decision *)
(** Counterexample to C1 as stated: an allowed command, normal mode, the
    user answers "n": the status returned is [IN_PROGRESS]. *)
Lemma declined_confirmation_not_cancelled :
  operation_mode (Examples.demo_handler true) = "normal"
  ∧ fst (check_command_permission (Examples.demo_handler true) "ls -la" "normal") = true
  ∧ fst (fst (_handle_command_suggestion (Examples.demo_handler true) "ls -la"
                initial_state (Examples.demo_world [] "n"))) = IN_PROGRESS
  ∧ fst (fst (_handle_command_suggestion (Examples.demo_handler true) "ls -la"
                initial_state (Examples.demo_world [] "n"))) ≠ CANCELLED.
Proof. split_and!; try reflexivity. discriminate. Qed.

(** C1 (amended). In normal mode, declining the confirmation of an allowed
    command (an answer whose lower-casing is not "y") leaves the status
    [IN_PROGRESS], records the refusal as the action result, and runs
    nothing. *)
Theorem declined_confirmation_continues self command state w :
  operation_mode self = "normal" →
  command ≠ "report_task_completion" →
  fst (check_command_permission self command "normal") = true →
  lower (keyboard w (lines_read w)) ≠ "y" →
  ∃ w',
    _handle_command_suggestion self command state w
    = (IN_PROGRESS,
       set_last_action ("Command '" +:+ command +:+ "' cancelled by user")
         "User cancelled at confirmation" state,
       w')
    ∧ executed w' = executed w
    ∧ lines_read w' = S (lines_read w).
Proof.
  intros Hmode Hcommand Hallowed Hanswer.
  unfold _handle_command_suggestion.
  rewrite (proj2 (String.eqb_neq _ _) Hcommand), Hmode.
  destruct (check_command_permission self command "normal") as [allowed reason].
  simpl in Hallowed. subst allowed. simpl.
  unfold run_if_allowed. rewrite Hmode. simpl.
  rewrite (proj2 (String.eqb_neq _ _) Hanswer). simpl.
  eexists. split_and!; reflexivity.
Qed.

(** Witness of C1 (amended). *)
Lemma declined_confirmation_continues_witness :
  ∃ w',
    _handle_command_suggestion (Examples.demo_handler true) "ls -la" initial_state
      (Examples.demo_world [] "n")
    = (IN_PROGRESS,
       set_last_action "Command 'ls -la' cancelled by user"
         "User cancelled at confirmation" initial_state,
       w')
    ∧ executed w' = []
    ∧ lines_read w' = 1.
Proof.
  apply (declined_confirmation_continues (Examples.demo_handler true) "ls -la"
           initial_state (Examples.demo_world [] "n")).
  - reflexivity.
  - discriminate.
  - reflexivity.
  - vm_compute. discriminate.
Defined.

Lemma unhandled_decision_eqb decision_type :
  decision_type ∉ handled_decisions →
  String.eqb decision_type "TASK_COMPLETE" = false
  ∧ String.eqb decision_type "TASK_FAILED" = false
  ∧ String.eqb decision_type "CONTINUE_PLAN" = false
  ∧ String.eqb decision_type "REVISE_PLAN" = false
  ∧ String.eqb decision_type "CLARIFY_USER" = false
  ∧ String.eqb decision_type "VERIFY_ACTION" = false.
Proof.
  intros Hn. unfold handled_decisions in Hn.
  rewrite !not_elem_of_cons in Hn.
  rewrite !String.eqb_neq. tauto.
Qed.

(** C4. [CONTINUE_PLAN] adds exactly one to [step_index] and stays
    [IN_PROGRESS]; [TASK_COMPLETE] gives [COMPLETED] and [TASK_FAILED] gives
    [FAILED] whatever the state; a decision type without a branch gives
    [FAILED], as does the decision text "FROBNICATE: do a thing". *)
Theorem evaluation_decision_routing self state message original_prompt w :
  (∃ next_context state',
      _process_evaluation_decision self "CONTINUE_PLAN" message state original_prompt w
      = ((IN_PROGRESS, next_context), state', w)
      ∧ step_index state' = (step_index state + 1)%Z)
  ∧ _process_evaluation_decision self "TASK_COMPLETE" message state original_prompt w
    = ((COMPLETED, ""), state, w)
  ∧ _process_evaluation_decision self "TASK_FAILED" message state original_prompt w
    = ((FAILED, ""), state, w)
  ∧ (∀ decision_type,
        decision_type ∉ handled_decisions →
        _process_evaluation_decision self decision_type message state original_prompt w
        = ((FAILED, ""), state, w))
  ∧ (let '(decision_type, message') :=
       extract_decision_type_and_message "FROBNICATE: do a thing" in
     _process_evaluation_decision self decision_type message' state original_prompt w
     = ((FAILED, ""), state, w)).
Proof.
  split_and!.
  - eexists _, _. split; reflexivity.
  - reflexivity.
  - reflexivity.
  - intros decision_type Hn.
    destruct (unhandled_decision_eqb decision_type Hn) as (H1 & H2 & H3 & H4 & H5 & H6).
    unfold _process_evaluation_decision. by rewrite H1, H2, H3, H4, H5, H6.
  - reflexivity.
Qed.

(** Witness of C4. *)
Lemma evaluation_decision_routing_witness :
  _process_evaluation_decision (Examples.demo_handler true) "FROBNICATE" "do a thing"
    initial_state "tidy the repository" (Examples.demo_world [] "n")
  = ((FAILED, ""), initial_state, Examples.demo_world [] "n").
Proof.
  destruct (evaluation_decision_routing (Examples.demo_handler true) initial_state
              "do a thing" "tidy the repository" (Examples.demo_world [] "n"))
    as (_ & _ & _ & Hother & _).
  apply Hother. unfold handled_decisions.
  rewrite !not_elem_of_cons. split_and!; try discriminate. apply not_elem_of_nil.
Defined.

(** ** The plan phase *)
Lemma prefix_append n s : String.prefix n (n +:+ s) = true.
Proof.
  induction n as [|a n IH]; [by destruct s|]. simpl.
  destruct (ascii_dec a a); [done|congruence].
Qed.

Lemma prefix_append_r n s q :
  String.prefix n s = true → String.prefix n (s +:+ q) = true.
Proof.
  revert s; induction n as [|a n IH]; intros s; [by destruct (s +:+ q)|].
  destruct s as [|b s]; simpl; [done|].
  destruct (ascii_dec a b); [apply IH|done].
Qed.

Lemma contains_prefix n s : String.prefix n s = true → contains n s = true.
Proof. destruct s; simpl; by intros ->. Qed.

Lemma contains_append_l p n s : contains n s = true → contains n (p +:+ s) = true.
Proof.
  intros Hs. induction p as [|a p IH]; [done|].
  simpl. rewrite IH. apply orb_true_r.
Qed.

Lemma contains_append_r n s q : contains n s = true → contains n (s +:+ q) = true.
Proof.
  induction s as [|a s IH]; intros Hn; simpl in Hn.
  - rewrite orb_false_r in Hn. apply contains_prefix.
    by apply (prefix_append_r n "" q).
  - apply orb_true_iff in Hn as [Hn|Hn].
    + apply contains_prefix. by apply (prefix_append_r n (String a s) q).
    + change (String a s +:+ q) with (String a (s +:+ q)). simpl.
      rewrite IH by done. apply orb_true_r.
Qed.

Lemma contains_self n : contains n n = true.
Proof.
  apply contains_prefix. pose proof (prefix_append n "") as H.
  assert (n +:+ "" = n) as Heq.
  { clear H. induction n as [|a n IH]; [done|].
    change (String a n +:+ "") with (String a (n +:+ "")). by rewrite IH. }
  by rewrite Heq in H.
Qed.

Lemma correction_request_names_message needle error_message context :
  contains needle error_message = true →
  contains needle (correction_request error_message context) = true.
Proof.
  intros Hin. unfold correction_request, lines. cbn [join].
  do 8 apply contains_append_l.
  apply contains_append_r, contains_append_l, contains_append_r, Hin.
Qed.

Section PlanPhase.
Context (repr : json → string) (self : TaskHandler).

Lemma compact_before_call_inv w w1 :
  compact_before_call repr self w = Some w1 → ∃ d, w1 = set_disk d w.
Proof.
  unfold compact_before_call. intros H.
  destruct (check_and_compact_context _ _ _ _ _) as [[ok d]|]; [|done].
  exists d. congruence.
Qed.

Lemma truthy_Some s : s ≠ "" → truthy (Some s) = true.
Proof. intros Hs. simpl. by rewrite (proj2 (String.eqb_neq _ _) Hs). Qed.

Lemma plan_phase_body_sends attempt context state w w1 payload :
  compact_before_call repr self w = Some w1 →
  payload_builder self "plan" context = Some payload →
  payload ≠ "" →
  ∃ step state' w',
    plan_phase_body repr self attempt context state w = Some (step, state', w')
    ∧ requests w' = requests w ++ [payload].
Proof.
  intros Hcompact Hpayload Hne.
  destruct (compact_before_call_inv w w1 Hcompact) as [d ->].
  unfold plan_phase_body. rewrite Hcompact. cbn [mbind option_bind].
  rewrite Hpayload, (truthy_Some payload Hne). cbn [negb default].
  unfold llm_send. cbn [requests llm_script set_disk disk].
  destruct (truthy (mjoin (head (llm_script w)))); cbn [negb];
    [|by eexists _, _, _].
  destruct (startswith _ _).
  - destruct (allow_clarifying_questions self); by eexists _, _, _.
  - destruct (_ && _); by eexists _, _, _.
Qed.
End PlanPhase.

Section PlanRetry.
Context (repr : json → string) (self : TaskHandler).

(** C10 (amended). A plan-phase response with a checklist block, no
    instruction block and no [CLARIFY_USER:] decision is rejected: the pass
    ends in [Continue] with a context that contains the missing-instruction
    message, the phase goes on from attempt counter 1 to the next pass, and
    that pass (counter 2) sends the payload built from the new context. *)
Theorem plan_retry_names_missing_instruction
    context state w w1 payload response rest :
  compact_before_call repr self w = Some w1 →
  payload_builder self "plan" context = Some payload →
  payload ≠ "" →
  llm_script w = Some response :: rest →
  response ≠ "" →
  has_block "checklist" response →
  ¬ has_block "instruction" response →
  startswith (parse_llm_decision response) "CLARIFY_USER:" = false →
  ∃ context' state' w',
    plan_phase_body repr self 1 context state w
    = Some (Continue context', state', w')
    ∧ contains missing_instruction_message context' = true
    ∧ (parse_llm_plan response ≠ "" →
       context' = correction_request missing_instruction_message context)
    ∧ requests w' = requests w ++ [payload]
    ∧ llm_script w' = rest
    ∧ (∀ fuel,
          _execute_plan_phase repr self (S fuel) context state w
          = plan_phase_loop repr self fuel 1 context' state' w')
    ∧ (∀ w1' payload',
          compact_before_call repr self w' = Some w1' →
          payload_builder self "plan" context' = Some payload' →
          payload' ≠ "" →
          ∃ step state'' w'',
            plan_phase_body repr self 2 context' state' w'
            = Some (step, state'', w'')
            ∧ requests w'' = requests w ++ [payload; payload']).
Proof.
  intros Hcompact Hpayload Hne Hscript Hresponse _ Hinstruction Hdecision.
  destruct (compact_before_call_inv repr self w w1 Hcompact) as [d ->].
  assert (parse_llm_instruction response = "") as Hnone.
  { unfold parse_llm_instruction, extract_tag.
    destruct (re_search_tag "instruction" response) eqn:Hsearch; [|done].
    exfalso. apply Hinstruction. unfold has_block. by rewrite Hsearch. }
  assert (plan_phase_body repr self 1 context state w
          = Some (Continue
                    (correction_request
                       (join " "
                          ((if nonempty (parse_llm_plan response) then []
                            else [missing_checklist_message])
                           ++ [missing_instruction_message]))
                       context),
                  set_definition_of_done (parse_definition_of_done response)
                    (set_planner_summary (parse_llm_summary response)
                       (set_current_instruction ""
                          (set_current_plan (parse_llm_plan response) state))),
                  log_context self
                    ("Planner Input (Attempt " +:+ pretty 2 +:+ "): " +:+ context)
                    response
                    (snd (llm_send payload (set_disk d w))))) as Hbody.
  { unfold plan_phase_body. rewrite Hcompact. cbn [mbind option_bind].
    rewrite Hpayload, (truthy_Some payload Hne). cbn [negb default].
    unfold llm_send. cbn [llm_script set_disk]. rewrite Hscript.
    cbn [head mjoin option_join tail]. rewrite (truthy_Some response Hresponse).
    cbn [negb default from_option id]. rewrite Hdecision, Hnone.
    cbn [current_plan current_instruction set_definition_of_done
           set_planner_summary set_current_instruction set_current_plan nonempty].
    rewrite andb_false_r. reflexivity. }
  eexists _, _, _. split; [exact Hbody|]. split_and!.
  - apply correction_request_names_message.
    destruct (nonempty (parse_llm_plan response)); cbn [app join].
    + apply contains_self.
    + apply contains_append_l, contains_append_l, contains_self.
  - intros Hplan. unfold nonempty.
    by rewrite (proj2 (String.eqb_neq _ _) Hplan).
  - reflexivity.
  - cbn. by rewrite Hscript.
  - intros fuel. unfold _execute_plan_phase. cbn [plan_phase_loop].
    by rewrite Hbody.
  - intros w1' payload' Hcompact' Hpayload' Hne'.
    edestruct (plan_phase_body_sends repr self 2) as (step & state'' & w'' & Hstep & Hreq);
      [exact Hcompact'|exact Hpayload'|exact Hne'|].
    exists step, state'', w''. split; [exact Hstep|].
    rewrite Hreq. cbn. by rewrite <- app_assoc.
Qed.
End PlanRetry.

(** Counterexample to C10 as stated: a response with a checklist block, no
    instruction block and a [CLARIFY_USER:] decision ends the phase after a
    single model call. *)
Lemma clarifying_plan_response_is_not_retried :
  has_block "checklist" Examples.checklist_and_question
  ∧ ¬ has_block "instruction" Examples.checklist_and_question
  ∧ ∃ state' w',
      _execute_plan_phase Examples.short_repr (Examples.demo_handler true) 3
        "tidy the repository" initial_state
        (Examples.demo_world [Some Examples.checklist_and_question;
                              Some Examples.checklist_only] "the src one")
      = Some (IN_PROGRESS, state', w')
      ∧ requests w' = ["[plan] tidy the repository"]
      ∧ llm_script w' = [Some Examples.checklist_only].
Proof.
  split_and!.
  - vm_compute. eauto.
  - vm_compute. by intros [? ?].
  - eexists _, _. split_and!; vm_compute; reflexivity.
Qed.

(** Witness of C10 (amended). *)
Lemma plan_retry_names_missing_instruction_witness :
  ∃ context' state' w',
    plan_phase_body Examples.short_repr (Examples.demo_handler true) 1
      "tidy the repository" initial_state
      (Examples.demo_world [Some Examples.checklist_only; Some Examples.checklist_only] "n")
    = Some (Continue context', state', w')
    ∧ contains missing_instruction_message context' = true
    ∧ requests w' = ["[plan] tidy the repository"].
Proof.
  destruct (plan_retry_names_missing_instruction Examples.short_repr
              (Examples.demo_handler true) "tidy the repository" initial_state
              (Examples.demo_world [Some Examples.checklist_only;
                                    Some Examples.checklist_only] "n")
              (Examples.demo_world [Some Examples.checklist_only;
                                    Some Examples.checklist_only] "n")
              "[plan] tidy the repository" Examples.checklist_only
              [Some Examples.checklist_only])
    as (context' & state' & w' & Hbody & Hnames & _ & Hreq & _).
  - reflexivity.
  - reflexivity.
  - discriminate.
  - reflexivity.
  - discriminate.
  - vm_compute. eauto.
  - vm_compute. by intros [? ?].
  - reflexivity.
  - exists context', state', w'. split_and!; done.
Defined.

(** ** The evaluation phase *)

(** Scenario 3 at the level of the phase: the response's decision text is
    [FROBNICATE: do a thing] and the phase returns [FAILED]. *)
Lemma evaluation_unknown_decision_fails repr self attempt context current_context
    state original_prompt w w1 payload response rest :
  compact_before_call repr self w = Some w1 →
  payload_builder self "evaluate" current_context = Some payload →
  payload ≠ "" →
  llm_script w = Some response :: rest →
  response ≠ "" →
  parse_llm_decision response = "FROBNICATE: do a thing" →
  ∃ state' w',
    evaluation_phase_body repr self attempt context current_context state
      original_prompt w
    = Some (Return (FAILED, ""), state', w')
    ∧ last_eval_decision state' = "FROBNICATE".
Proof.
  intros Hcompact Hpayload Hne Hscript Hresponse Hdecision.
  unfold evaluation_phase_body. rewrite Hcompact. cbn [mbind option_bind].
  rewrite Hpayload, (truthy_Some payload Hne). cbn [negb default from_option id].
  unfold llm_send.
  assert (llm_script w1 = llm_script w) as ->.
  { unfold compact_before_call in Hcompact.
    destruct (check_and_compact_context _ _ _ _ _) as [[ok d]|]; by simplify_eq. }
  rewrite Hscript. cbn [head mjoin option_join tail].
  rewrite (truthy_Some response Hresponse). cbn [negb default from_option id].
  rewrite Hdecision. by eexists _, _.
Qed.

(** * Further properties *)

Import Orchestration Behaviour.

(** ** Further properties of the compaction *)

(** X1: Compaction summarizes the oldest compactable entries: every index
    selected for the summary is smaller than every compactable index that is
    not selected. *)
Theorem selected_precede_unselected es cur i j :
  i ∈ indices_to_compact es cur →
  j ∈ compactable_indices es cur →
  j ∉ indices_to_compact es cur →
  i < j.
Proof.
  rewrite !elem_of_to_compact. intros Hi Hj Hnj.
  apply list_elem_of_lookup in Hi as [a Ha].
  apply lookup_take_Some in Ha as [Ha Hlt].
  apply list_elem_of_lookup in Hj as [b Hb].
  assert (num_to_compact es cur ≤ b) as Hge.
  { destruct (decide (b < num_to_compact es cur)) as [Hb'|]; [|lia].
    exfalso. apply Hnj. apply list_elem_of_lookup. exists b.
    by rewrite lookup_take_lt. }
  apply (StronglySorted_lookup_lt (compactable_indices es cur) a b i j);
    [apply compactable_sorted|lia|done|done].
Qed.

(** Witness of X1. *)
Lemma selected_precede_unselected_witness :
  (2 ∈ indices_to_compact Examples.history5 None
   ∧ 3 ∈ compactable_indices Examples.history5 None
   ∧ 3 ∉ indices_to_compact Examples.history5 None)
  ∧ 2 < 3.
Proof.
  assert (2 ∈ indices_to_compact Examples.history5 None) as H2
    by (vm_compute; reflexivity).
  assert (3 ∈ compactable_indices Examples.history5 None) as H3
    by (vm_compute; repeat constructor).
  assert (3 ∉ indices_to_compact Examples.history5 None) as H3'
    by (vm_compute; discriminate).
  split; [done|].
  exact (selected_precede_unselected Examples.history5 None 2 3 H2 H3 H3').
Defined.

Lemma rebuild_outside sel summary i inserted l :
  (∀ j, j ∈ sel → j < i) → rebuild sel summary i inserted l = l.
Proof.
  revert i inserted; induction l as [|e l IH]; intros i inserted Hsel; [done|].
  simpl. rewrite decide_False by (intros Hin; apply Hsel in Hin; lia).
  f_equal. apply IH. intros j Hj. apply Hsel in Hj. lia.
Qed.

Lemma rebuild_single summary i k l :
  k < length l →
  rebuild {[i + k]} summary i false l = <[k := summary]> l.
Proof.
  revert i k; induction l as [|e l IH]; intros i k Hk; simpl in *; [lia|].
  destruct k as [|k].
  - rewrite Nat.add_0_r, decide_True by by apply elem_of_singleton.
    simpl. f_equal. apply rebuild_outside.
    intros j ->%elem_of_singleton. lia.
  - rewrite decide_False by (rewrite elem_of_singleton; lia).
    simpl. f_equal. rewrite <- Nat.add_succ_comm. apply IH. lia.
Qed.

Lemma take_one_lookup {A} (l : list A) x : l !! 0 = Some x → take 1 l = [x].
Proof. destruct l; intros; by simplify_eq/=. Qed.

(** X2: When compaction runs with exactly two or three compactable entries,
    only the oldest compactable entry is summarized: the result is the
    original list with that one entry replaced by the summary entry, followed
    by the current-prompt entry if one is appended. *)
Theorem compact_two_or_three_compactable c es cur :
  should_compact_context c es = true →
  length (compactable_indices es cur) = 2 ∨ length (compactable_indices es cur) = 3 →
  ∃ first oldest,
    compactable_indices es cur !! 0 = Some first
    ∧ es !! first = Some oldest
    ∧ entries_to_summarize es cur = [oldest]
    ∧ compact_context c es cur
      = <[first := summary_entry c [oldest]]> es ++ appended_prompt es cur.
Proof.
  intros Hs Hk.
  destruct (first_to_compact es cur) as (first & Hfirst & Hin & _); [lia|].
  assert (num_to_compact es cur = 1) as Hnum
    by (unfold num_to_compact; by destruct Hk as [-> | ->]).
  assert (indices_to_compact es cur = {[first]}) as Hsel.
  { unfold indices_to_compact. rewrite Hnum, (take_one_lookup _ first Hfirst).
    simpl. by rewrite (right_id_L ∅ (∪)). }
  pose proof (to_compact_compactable es cur first Hin) as (Hlt & _ & _).
  destruct (lookup_lt_is_Some_2 es first Hlt) as [oldest Holdest].
  assert (entries_to_summarize es cur = [oldest]) as Hsum.
  { unfold entries_to_summarize.
    rewrite sorted_to_compact, Hnum, (take_one_lookup _ first Hfirst).
    simpl. by rewrite Holdest. }
  exists first, oldest. split_and!; [done..|].
  rewrite compact_context_pass by (done || lia).
  rewrite Hsum, Hsel. f_equal.
  by apply (rebuild_single _ 0 first es).
Qed.

(** Witness of X2. *)
Lemma compact_two_or_three_compactable_witness :
  ∃ first oldest,
    compactable_indices Examples.history5 (Some "run the test") !! 0 = Some first
    ∧ Examples.history5 !! first = Some oldest
    ∧ entries_to_summarize Examples.history5 (Some "run the test") = [oldest]
    ∧ compact_context Examples.terse_compactor Examples.history5 (Some "run the test")
      = <[first := summary_entry Examples.terse_compactor [oldest]]> Examples.history5
        ++ appended_prompt Examples.history5 (Some "run the test").
Proof.
  apply compact_two_or_three_compactable.
  - vm_compute. reflexivity.
  - right. vm_compute. reflexivity.
Defined.

(** X3: The first entry of the history (the original request) is not
    protected: when compaction runs and entry 0 is neither the latest plan nor
    the current-prompt entry, entry 0 is selected, it is the first of the
    summarized entries, and the summary entry takes position 0 of the result.
    *)
Theorem original_request_is_summarized c es cur first_entry :
  should_compact_context c es = true →
  2 ≤ length (compactable_indices es cur) →
  es !! 0 = Some first_entry →
  latest_plan_index es ≠ 0%Z →
  current_prompt_index es cur ≠ 0%Z →
  0 ∈ indices_to_compact es cur
  ∧ head (entries_to_summarize es cur) = Some first_entry
  ∧ compact_context c es cur !! 0
    = Some (summary_entry c (entries_to_summarize es cur)).
Proof.
  intros Hs Hlen H0 Hplan Hcur.
  destruct (first_to_compact es cur Hlen) as (first & Hfirst & Hin & Hmin).
  assert (0 ∈ compactable_indices es cur) as H0c.
  { apply elem_of_compactable. apply lookup_lt_Some in H0.
    change (Z.of_nat 0) with 0%Z. split_and!; [done|congruence|congruence]. }
  assert (first = 0) as ->.
  { apply list_elem_of_lookup in H0c as [a Ha].
    destruct a as [|a]; [by simplify_eq|].
    pose proof (StronglySorted_lookup_lt _ 0 (S a) first 0
                  (compactable_sorted es cur) (Nat.lt_0_succ a) Hfirst Ha).
    lia. }
  split_and!; [done| |].
  - unfold entries_to_summarize. rewrite sorted_to_compact.
    assert (1 ≤ num_to_compact es cur) as Hnum
      by (by apply Nat.div_le_lower_bound).
    destruct (num_to_compact es cur) as [|m]; [lia|].
    destruct (compactable_indices es cur) as [|x L]; [done|].
    simpl in Hfirst. simplify_eq. simpl. by rewrite H0.
  - rewrite compact_context_pass by done. apply lookup_app_l_Some.
    apply rebuild_first; [intros j Hj; lia|done|by eapply lookup_lt_Some].
Qed.

(** Witness of X3. *)
Lemma original_request_is_summarized_witness :
  0 ∈ indices_to_compact Examples.history5 None
  ∧ head (entries_to_summarize Examples.history5 None)
    = Some (Examples.entry_of "list the files here." "README.md src tests." false)
  ∧ compact_context Examples.terse_compactor Examples.history5 None !! 0
    = Some (summary_entry Examples.terse_compactor
              (entries_to_summarize Examples.history5 None)).
Proof.
  apply original_request_is_summarized.
  - vm_compute. reflexivity.
  - vm_compute. lia.
  - reflexivity.
  - vm_compute. discriminate.
  - vm_compute. discriminate.
Defined.

Lemma compact_context_length c es cur :
  should_compact_context c es = true →
  2 ≤ length (compactable_indices es cur) →
  length (compact_context c es cur)
  = length es - num_to_compact es cur + 1 + length (appended_prompt es cur).
Proof.
  intros Hs Hlen. rewrite compact_context_pass by done.
  rewrite length_app, rebuild_length.
  pose proof (length_split (indices_to_compact es cur) 0 es) as Hsplit.
  pose proof (summarized_nonempty es cur Hlen) as Hne.
  rewrite length_summarized_from, size_to_compact in Hsplit.
  2:{ intros j Hj. apply to_compact_compactable in Hj. lia. }
  destruct (summarized_from (indices_to_compact es cur) 0 es); [done|].
  unfold one_if_any. lia.
Qed.

(** X4: When compaction runs with a non-empty current prompt that occurs in no
    entry's user prompt, the result ends with a new entry of type
    current_prompt carrying that prompt and has n - k + 2 entries (n entries,
    k of them summarized); with no current prompt, an empty one, or one that
    occurs in some entry, nothing is appended and the result has n - k + 1
    entries. *)
Theorem current_prompt_marker c es cur :
  should_compact_context c es = true →
  2 ≤ length (compactable_indices es cur) →
  (∀ current,
      cur = Some current → current ≠ "" →
      (∀ e, e ∈ es → contains current (user_prompt e) = false) →
      last (compact_context c es cur) = Some (current_prompt_entry current)
      ∧ length (compact_context c es cur)
        = length es - num_to_compact es cur + 2)
  ∧ (cur = None ∨ cur = Some ""
     ∨ (∃ current e, cur = Some current ∧ e ∈ es
                      ∧ contains current (user_prompt e) = true) →
     length (compact_context c es cur) = length es - num_to_compact es cur + 1).
Proof.
  intros Hs Hlen.
  pose proof (compact_context_length c es cur Hs Hlen) as Hlength.
  split.
  - intros current -> Hne Hnone.
    assert (appended_prompt es (Some current) = [current_prompt_entry current]) as Happ.
    { unfold appended_prompt, current_prompt_index.
      rewrite (truthy_Some current Hne). cbn [andb default from_option id].
      rewrite bool_decide_eq_true_2; [done|].
      destruct (scan_for_range
                  (λ entry, contains current (user_prompt entry)) es)
        as [?|(k & Hk & Hfound)]; [done|].
      apply scan_for_found in Hfound as (e & He & Hmatch & _).
      rewrite Hnone in Hmatch; [done|]. by eapply list_elem_of_lookup_2. }
    rewrite Hlength, Happ. split; [|simpl; lia].
    rewrite compact_context_pass by done. rewrite Happ. apply last_snoc.
  - intros Hcase.
    assert (appended_prompt es cur = []) as Happ.
    { unfold appended_prompt.
      destruct Hcase as [->|[->|(current & e & -> & He & Hmatch)]]; [done..|].
      destruct (truthy (Some current)) eqn:Ht; [|done]. cbn [andb].
      rewrite bool_decide_eq_false_2; [done|].
      unfold current_prompt_index. rewrite Ht.
      destruct (scan_for_range
                  (λ entry, contains (default "" (Some current)) (user_prompt entry)) es)
        as [Hnone|(k & Hk & ->)]; [|lia].
      exfalso. clear -He Hmatch Hnone.
      induction es as [|x l IH] using rev_ind; [by apply elem_of_nil in He|].
      rewrite scan_for_snoc in Hnone.
      apply elem_of_app in He as [He|He%list_elem_of_singleton].
      - destruct (contains _ (user_prompt x)); [lia|]. by apply IH.
      - subst x. cbn in Hnone. rewrite Hmatch in Hnone. lia. }
    rewrite Hlength, Happ. simpl. lia.
Qed.

(** Witness of X4. *)
Lemma current_prompt_marker_witness :
  last (compact_context Examples.terse_compactor Examples.history5 (Some "deploy"))
  = Some (current_prompt_entry "deploy")
  ∧ length (compact_context Examples.terse_compactor Examples.history5 (Some "deploy"))
    = 5.
Proof.
  destruct (current_prompt_marker Examples.terse_compactor Examples.history5
              (Some "deploy")) as [Hnew _].
  - vm_compute. reflexivity.
  - vm_compute. lia.
  - destruct (Hnew "deploy") as [Hlast Hlen].
    + reflexivity.
    + discriminate.
    + intros e He. unfold Examples.history5 in He.
      repeat (apply elem_of_cons in He as [->|He]; [reflexivity|]).
      by apply elem_of_nil in He.
    + split; [exact Hlast|]. rewrite Hlen. vm_compute. reflexivity.
Defined.

(** ** The session store *)

Lemma parse_saved_entry repr i entry :
  parse_entry repr i (json_entry entry) = Some (reloaded repr i entry).
Proof.
  destruct (String.eqb (type entry) "compacted") eqn:Hcompacted.
  - apply String.eqb_eq in Hcompacted.
    rewrite (parse_saved_compacted_entry repr i entry Hcompacted).
    unfold reloaded. rewrite Hcompacted.
    change ("compacted" =? "success")%string with false. cbn iota.
    change (contains "checklist" (lower "Error occurred")) with false.
    by rewrite orb_false_r.
  - unfold reloaded, json_entry. rewrite Hcompacted.
    unfold parse_entry, field_is.
    repeat (rewrite ?lookup_insert_eq; rewrite ?lookup_insert_ne by done).
    rewrite !lookup_singleton_eq. rewrite !lookup_singleton_ne by done.
    rewrite (bool_decide_eq_true_2 (is_Some _)) by (by eexists). rewrite andb_true_r.
    destruct (String.eqb (type entry) "success").
    + cbn [first_truthy json_truthy str].
      by destruct (String.eqb (llm_response entry) "") eqn:Hempty;
        [apply String.eqb_eq in Hempty as ->|].
    + done.
Qed.

Lemma parse_saved_entries repr i entries :
  parse_session repr i (json_entry <$> entries)
  = Some (imap (λ k, reloaded repr (i + k)) entries).
Proof.
  revert i. induction entries as [|entry entries IH]; intros i; [done|].
  cbn [fmap list_fmap parse_session].
  rewrite parse_saved_entry. cbn [mbind option_bind]. rewrite (IH (S i)).
  cbn [mbind option_bind imap]. rewrite Nat.add_0_r. do 2 f_equal.
  apply imap_ext. intros k e _. cbn. by rewrite Nat.add_succ_r.
Qed.

Lemma save_compacted_context_inv entries key disk disk' :
  save_compacted_context entries key disk = (true, disk') →
  ∃ before,
    (context_file disk = FileMissing ∧ before = ∅
     ∨ context_file disk = FileData before)
    ∧ writable disk = true
    ∧ disk' = {| context_file := FileData (<[key := json_entry <$> entries]> before);
                 writable := true |}.
Proof.
  unfold save_compacted_context, write_context. intros Hsave.
  destruct (context_file disk) as [| |data] eqn:Hfile; [|done|];
    destruct (writable disk); simplify_eq; eauto 10.
Qed.

(** X5: A successful save_compacted_context followed by parse_context_entries
    on the written file gives back as many entries, in the same order, with
    the same type, user prompt and timestamp; the response text comes back
    unchanged for an entry of type success with a non-empty response, and
    comes back as the text Error occurred for every entry of another type. *)
Theorem saved_session_round_trip repr entries key disk disk' :
  save_compacted_context entries key disk = (true, disk') →
  ∃ data parsed,
    context_file disk' = FileData data
    ∧ parse_context_entries repr data key = Some parsed
    ∧ length parsed = length entries
    ∧ ∀ i entry,
        entries !! i = Some entry →
        ∃ entry',
          parsed !! i = Some entry'
          ∧ type entry' = type entry
          ∧ user_prompt entry' = user_prompt entry
          ∧ timestamp entry' = timestamp entry
          ∧ (type entry = "success" → llm_response entry ≠ "" →
             llm_response entry' = llm_response entry)
          ∧ (type entry ≠ "success" → llm_response entry' = "Error occurred").
Proof.
  intros Hsave.
  destruct (save_compacted_context_inv entries key disk disk' Hsave)
    as (before & _ & _ & ->).
  eexists _, _. split_and!.
  - reflexivity.
  - unfold parse_context_entries. rewrite lookup_insert_eq.
    apply parse_saved_entries.
  - by rewrite length_imap.
  - intros i entry Hi. exists (reloaded repr i entry). split_and!.
    + rewrite list_lookup_imap, Hi. done.
    + done.
    + done.
    + done.
    + intros Htype Hresponse. unfold reloaded. cbn.
      by rewrite (proj2 (String.eqb_eq _ _) Htype),
                 (proj2 (String.eqb_neq _ _) Hresponse).
    + intros Htype. unfold reloaded. cbn.
      by rewrite (proj2 (String.eqb_neq _ _) Htype).
Qed.

(** Witness of X5. *)
Lemma saved_session_round_trip_witness :
  ∃ data parsed,
    context_file (save_compacted_context Examples.history5 "9f86d081884c7d65"
                    Examples.fresh_disk).2 = FileData data
    ∧ parse_context_entries Examples.short_repr data "9f86d081884c7d65" = Some parsed
    ∧ llm_response <$> parsed = llm_response <$> Examples.history5.
Proof.
  destruct (saved_session_round_trip Examples.short_repr Examples.history5
              "9f86d081884c7d65" Examples.fresh_disk
              (save_compacted_context Examples.history5 "9f86d081884c7d65"
                 Examples.fresh_disk).2)
    as (data & parsed & Hfile & Hparse & _ & _).
  - reflexivity.
  - exists data, parsed. split_and!; [exact Hfile|exact Hparse|].
    cbn in Hfile. injection Hfile as <-.
    vm_compute in Hparse. injection Hparse as <-. reflexivity.
Defined.

Lemma parse_entry_derived repr i raw entry :
  parse_entry repr i raw = Some entry →
  is_original_request entry = bool_decide (i = 0)
  ∧ compaction_level entry = 0%Z
  ∧ original_user_prompt entry = ""
  ∧ is_plan entry = contains "plan" (lower (user_prompt entry))
                    || contains "checklist" (lower (llm_response entry)).
Proof.
  unfold parse_entry. intros Hparse.
  repeat match type of Hparse with
         | (?o ≫= _) = Some _ =>
             destruct o eqn:?; cbn [mbind option_bind] in Hparse; [|done]
         end.
  by simplify_eq.
Qed.

Lemma parse_session_derived repr i session parsed :
  parse_session repr i session = Some parsed →
  length parsed = length session
  ∧ ∀ k entry,
      parsed !! k = Some entry →
      is_original_request entry = bool_decide (i + k = 0)
      ∧ compaction_level entry = 0%Z
      ∧ original_user_prompt entry = ""
      ∧ is_plan entry = contains "plan" (lower (user_prompt entry))
                        || contains "checklist" (lower (llm_response entry)).
Proof.
  revert i parsed; induction session as [|raw session IH]; intros i parsed Hparse.
  - cbn in Hparse. by simplify_eq.
  - cbn [parse_session] in Hparse.
    destruct (parse_entry repr i raw) as [entry|] eqn:Hentry;
      cbn [mbind option_bind] in Hparse; [|done].
    destruct (parse_session repr (S i) session) as [rest|] eqn:Hrest;
      cbn [mbind option_bind] in Hparse; [|done].
    simplify_eq. destruct (IH (S i) rest Hrest) as [Hlen Hall].
    split; [simpl; by rewrite Hlen|].
    intros [|k] e He; simpl in He.
    + simplify_eq. rewrite Nat.add_0_r. by apply (parse_entry_derived repr i raw).
    + rewrite <- Nat.add_succ_comm. by apply Hall.
Qed.

(** X6: parse_context_entries returns one entry per stored record of the
    session (none for a missing session key); exactly the entry at index 0 is
    flagged is_original_request, every compaction_level is 0, and is_plan
    holds exactly when the lower-cased user prompt contains plan or the
    lower-cased response contains checklist. *)
Theorem parsed_entries_flags repr context_data key parsed :
  parse_context_entries repr context_data key = Some parsed →
  length parsed = length (default [] (context_data !! key))
  ∧ ∀ k entry,
      parsed !! k = Some entry →
      (is_original_request entry = true ↔ k = 0)
      ∧ compaction_level entry = 0%Z
      ∧ is_plan entry = contains "plan" (lower (user_prompt entry))
                        || contains "checklist" (lower (llm_response entry)).
Proof.
  unfold parse_context_entries.
  destruct (context_data !! key) as [session|]; intros Hparse.
  - destruct (parse_session_derived repr 0 session parsed Hparse) as [Hlen Hall].
    split; [done|]. intros k entry Hk.
    destruct (Hall k entry Hk) as (Horig & Hlevel & _ & Hplan).
    split_and!; [|done|done].
    rewrite Horig, bool_decide_eq_true. simpl. done.
  - simplify_eq. split; [done|]. intros k entry Hk. by rewrite lookup_nil in Hk.
Qed.

(** Witness of X6. *)
Lemma parsed_entries_flags_witness :
  length (default [] (parse_context_entries Examples.short_repr
                        {[ "9f86d081884c7d65" := json_entry <$> Examples.history5 ]}
                        "9f86d081884c7d65")) = 5.
Proof.
  destruct (parsed_entries_flags Examples.short_repr
              {[ "9f86d081884c7d65" := json_entry <$> Examples.history5 ]}
              "9f86d081884c7d65"
              (default [] (parse_context_entries Examples.short_repr
                             {[ "9f86d081884c7d65" := json_entry <$> Examples.history5 ]}
                             "9f86d081884c7d65"))) as [Hlen _].
  - vm_compute. reflexivity.
  - rewrite Hlen. reflexivity.
Defined.





(** ** The tag parsers *)

Lemma append_assoc a b c : (a +:+ b) +:+ c = a +:+ (b +:+ c).
Proof.
  induction a as [|x a IH]; [done|].
  change (String x ((a +:+ b) +:+ c) = String x (a +:+ (b +:+ c))). by rewrite IH.
Qed.

Lemma prefix_drop sep s :
  String.prefix sep s = true → s = sep +:+ Py.drop (String.length sep) s.
Proof.
  revert s; induction sep as [|a sep IH]; intros s; [by destruct s|].
  destruct s as [|b s]; simpl; [done|].
  destruct (ascii_dec a b) as [->|]; [|done].
  intros Hp. change (String b s = String b (sep +:+ Py.drop (String.length sep) s)).
  by rewrite <- IH.
Qed.

Lemma prefix_empty sep : sep ≠ "" → String.prefix sep "" = false.
Proof. by destruct sep. Qed.

Lemma split_once_Some sep s before after :
  sep ≠ "" →
  split_once sep s = Some (before, after) →
  s = before +:+ sep +:+ after ∧ contains sep before = false.
Proof.
  intros Hsep. revert before after.
  induction s as [|c s IH]; intros before after.
  - cbn [split_once]. rewrite (prefix_empty sep Hsep). done.
  - cbn [split_once]. destruct (String.prefix sep (String c s)) eqn:Hp.
    + intros [= <- <-]. split; [by apply prefix_drop|].
      cbn [contains]. by rewrite (prefix_empty sep Hsep).
    + destruct (split_once sep s) as [[b a]|]; [|done].
      intros [= <- <-]. destruct (IH b a eq_refl) as [-> Hnot].
      split; [done|]. cbn [contains]. rewrite Hnot, orb_false_r.
      destruct (String.prefix sep (String c b)) eqn:Hpb; [|done].
      apply (prefix_append_r _ _ (sep +:+ a)) in Hpb.
      change (String c b +:+ sep +:+ a) with (String c (b +:+ sep +:+ a)) in Hpb.
      congruence.
Qed.

Lemma split_once_None sep s :
  split_once sep s = None ↔ contains sep s = false.
Proof.
  induction s as [|c s IH].
  - cbn [split_once contains]. destruct (String.prefix sep ""); [split; done|]. done.
  - cbn [split_once contains]. destruct (String.prefix sep (String c s)).
    + split; done.
    + cbn [orb]. rewrite <- IH. destruct (split_once sep s) as [[? ?]|]; split; done.
Qed.

Lemma tag_nonempty l tag r : l ≠ "" → l +:+ tag +:+ r ≠ "".
Proof. by destruct l. Qed.

(** X9: When the search for a <tag>...</tag> block succeeds, the output splits
    as before, opening tag, body, closing tag, after, where before contains no
    opening tag and body contains no closing tag (the first opening tag and
    the first closing tag after it), and the extracted field is the stripped
    body. *)
Theorem tag_block_found tag llm_output body :
  re_search_tag tag llm_output = Some body →
  ∃ before after,
    llm_output
    = before +:+ ("<" +:+ tag +:+ ">") +:+ body +:+ ("</" +:+ tag +:+ ">") +:+ after
    ∧ contains ("<" +:+ tag +:+ ">") before = false
    ∧ contains ("</" +:+ tag +:+ ">") body = false
    ∧ extract_tag tag llm_output = strip body.
Proof.
  unfold extract_tag, re_search_tag. intros Hsearch.
  destruct (split_once ("<" +:+ tag +:+ ">") llm_output) as [[before rest]|] eqn:Hopen;
    [|done].
  destruct (split_once ("</" +:+ tag +:+ ">") rest) as [[body' after]|] eqn:Hclose;
    [|done].
  simplify_eq.
  apply split_once_Some in Hopen as [-> Hb]; [|done].
  apply split_once_Some in Hclose as [-> Hc]; [|done].
  by exists before, after.
Qed.

(** Witness of X9. *)
Lemma tag_block_found_witness :
  ∃ before after,
    "I will list them.<command> ls -la </command> Done."
    = before +:+ ("<" +:+ "command" +:+ ">") +:+ " ls -la "
      +:+ ("</" +:+ "command" +:+ ">") +:+ after
    ∧ contains ("<" +:+ "command" +:+ ">") before = false
    ∧ contains ("</" +:+ "command" +:+ ">") " ls -la " = false
    ∧ extract_tag "command" "I will list them.<command> ls -la </command> Done."
      = strip " ls -la ".
Proof. apply tag_block_found. reflexivity. Defined.

(** X10: If the opening tag or the closing tag does not occur in the model's
    output, the search finds no block and the extracted field is the empty
    string. *)
Theorem tag_block_absent tag llm_output :
  contains ("<" +:+ tag +:+ ">") llm_output = false
  ∨ contains ("</" +:+ tag +:+ ">") llm_output = false →
  re_search_tag tag llm_output = None ∧ extract_tag tag llm_output = "".
Proof.
  intros Habsent.
  assert (re_search_tag tag llm_output = None) as Hnone.
  { unfold re_search_tag.
    destruct (split_once ("<" +:+ tag +:+ ">") llm_output) as [[before rest]|] eqn:Hopen;
      [|done].
    destruct Habsent as [Hno|Hno]; [by apply split_once_None in Hno; congruence|].
    apply split_once_Some in Hopen as [-> _]; [|done].
    destruct (split_once ("</" +:+ tag +:+ ">") rest) as [[body after]|] eqn:Hclose;
      [|done].
    apply split_once_Some in Hclose as [-> _]; [|done].
    exfalso. revert Hno. apply not_false_iff_true.
    do 3 apply contains_append_l. apply contains_append_r, contains_self. }
  split; [done|]. unfold extract_tag. by rewrite Hnone.
Qed.

(** Witness of X10. *)
Lemma tag_block_absent_witness :
  re_search_tag "command" "<command>ls -la" = None
  ∧ extract_tag "command" "<command>ls -la" = "".
Proof. apply tag_block_absent. right. reflexivity. Defined.

(** *** [strip] *)
Lemma lstrip_head s :
  lstrip s = "" ∨ ∃ a r, lstrip s = String a r ∧ isspace a = false.
Proof.
  induction s as [|a s IH]; [by left|]. cbn [lstrip].
  destruct (isspace a) eqn:Ha; [done|]. right. by exists a, s.
Qed.

Lemma rstrip_cons_nonspace a r :
  isspace a = false → rstrip (String a r) = String a (rstrip r).
Proof. intros Ha. cbn [rstrip]. destruct (rstrip r); by rewrite ?Ha. Qed.

Lemma rstrip_cons_nonempty a r :
  rstrip r ≠ "" → rstrip (String a r) = String a (rstrip r).
Proof. intros Hr. cbn [rstrip]. by destruct (rstrip r). Qed.

Lemma rstrip_idempotent s : rstrip (rstrip s) = rstrip s.
Proof.
  induction s as [|a s IH]; [done|].
  destruct (rstrip s) as [|b r] eqn:Hr.
  - cbn [rstrip]. rewrite Hr.
    destruct (isspace a) eqn:Ha; [done|]. cbn [rstrip]. by rewrite Ha.
  - rewrite (rstrip_cons_nonempty a s) by (by rewrite Hr).
    rewrite Hr. rewrite (rstrip_cons_nonempty a (String b r)) by (by rewrite IH).
    by rewrite IH.
Qed.

Lemma lstrip_suffix s : ∃ ws, s = ws +:+ lstrip s.
Proof.
  induction s as [|a s [ws IH]]; [by exists ""|]. cbn [lstrip].
  destruct (isspace a); [|by exists ""].
  exists (String a ws). change (String a s = String a (ws +:+ lstrip s)). by rewrite <- IH.
Qed.

Lemma rstrip_prefix s : ∃ ws, s = rstrip s +:+ ws.
Proof.
  induction s as [|a s [ws IH]]; [by exists ""|]. cbn [rstrip].
  destruct (rstrip s) as [|b r] eqn:Hr.
  - destruct (isspace a).
    + exists (String a ws). by rewrite IH at 1.
    + exists ws. by rewrite IH at 1.
  - exists ws. by rewrite IH at 1.
Qed.

Lemma strip_idempotent s : strip (strip s) = strip s.
Proof.
  unfold strip.
  destruct (lstrip_head s) as [->|(a & r & -> & Ha)]; [done|].
  rewrite (rstrip_cons_nonspace a r Ha). cbn [lstrip]. rewrite Ha.
  rewrite (rstrip_cons_nonspace a (rstrip r) Ha). by rewrite rstrip_idempotent.
Qed.

(** Beyond ASCII: NEL (U+0085) and NBSP (U+00A0) are stripped, and NEL ends
    a line. *)
Example strip_and_splitlines_beyond_ascii :
  strip (String (ascii_of_nat 133) (String (ascii_of_nat 160) "ok")
         +:+ String (ascii_of_nat 160) (String (ascii_of_nat 133) "")) = "ok"
  ∧ splitlines ("a" +:+ String (ascii_of_nat 133) "b") = ["a"; "b"].
Proof. split; reflexivity. Qed.

Lemma contains_strip needle s :
  contains needle (strip s) = true → contains needle s = true.
Proof.
  unfold strip. intros Hin.
  destruct (lstrip_suffix s) as [ws Hs]. destruct (rstrip_prefix (lstrip s)) as [ws' Hl].
  rewrite Hs. apply contains_append_l. rewrite Hl. by apply contains_append_r.
Qed.

(** X11: Every field the parsers extract is already stripped: stripping the
    result of a tag parser, of parse_suggested_command, or of either component
    of extract_decision_type_and_message changes nothing, and the decision
    type contains no colon. *)
Theorem extracted_fields_are_stripped tag llm_output decision_text :
  strip (extract_tag tag llm_output) = extract_tag tag llm_output
  ∧ (∀ command, parse_suggested_command llm_output = Some command →
                strip command = command)
  ∧ (let '(decision_type, message) :=
       extract_decision_type_and_message decision_text in
     strip decision_type = decision_type
     ∧ strip message = message
     ∧ contains ":" decision_type = false).
Proof.
  split_and!.
  - unfold extract_tag. destruct (re_search_tag tag llm_output); [|done].
    apply strip_idempotent.
  - unfold parse_suggested_command. intros command Hc.
    destruct (re_search_tag "command" llm_output); simplify_eq/=.
    apply strip_idempotent.
  - unfold extract_decision_type_and_message.
    destruct (String.eqb decision_text ""); [done|].
    destruct (split_once ":" decision_text) as [[decision_type message]|] eqn:Hsplit.
    + apply split_once_Some in Hsplit as [_ Hno]; [|done].
      split_and!; [apply strip_idempotent..|].
      apply not_true_is_false. intros Hin%contains_strip. congruence.
    + apply split_once_None in Hsplit.
      split_and!; [apply strip_idempotent|done|].
      apply not_true_is_false. intros Hin%contains_strip. congruence.
Qed.

(** Witness of X11. *)
Lemma extracted_fields_are_stripped_witness :
  strip "ls -la" = "ls -la".
Proof.
  destruct (extracted_fields_are_stripped "command" "<command> ls -la </command>" "")
    as (_ & Hcommand & _).
  apply Hcommand. reflexivity.
Defined.

Lemma string_prefix_cons a s1 b s2 :
  String.prefix (String a s1) (String b s2)
  = if ascii_dec a b then String.prefix s1 s2 else false.
Proof. done. Qed.

Lemma split_once_colon decision_type message :
  contains ":" decision_type = false →
  split_once ":" (decision_type +:+ ":" +:+ message) = Some (decision_type, message).
Proof.
  induction decision_type as [|c t IH]; intros Hno.
  - by destruct message.
  - cbn [contains] in Hno. apply orb_false_iff in Hno as [Hc Hno].
    change (String c t +:+ ":" +:+ message) with (String c (t +:+ ":" +:+ message)).
    cbn [split_once].
    assert (String.prefix ":" (String c (t +:+ ":" +:+ message)) = false) as ->.
    { rewrite string_prefix_cons in Hc |- *.
      destruct (ascii_dec ":" c); [|done]. by destruct t. }
    by rewrite (IH Hno).
Qed.

(** X12: extract_decision_type_and_message splits at the first colon: for a
    type without a colon, the text type:message gives back the stripped type
    and the stripped message. *)
Theorem decision_text_round_trip decision_type message :
  contains ":" decision_type = false →
  extract_decision_type_and_message (decision_type +:+ ":" +:+ message)
  = (strip decision_type, strip message).
Proof.
  intros Hno. unfold extract_decision_type_and_message.
  rewrite (split_once_colon decision_type message Hno).
  by destruct decision_type.
Qed.

(** Witness of X12. *)
Lemma decision_text_round_trip_witness :
  extract_decision_type_and_message ("CONTINUE_PLAN" +:+ ":" +:+ " step 2 is next ")
  = ("CONTINUE_PLAN", "step 2 is next").
Proof. apply (decision_text_round_trip "CONTINUE_PLAN" " step 2 is next "). reflexivity. Defined.

(** ** The command gate *)

Ltac gate_cases_in mode :=
  unfold _handle_command_suggestion, run_if_allowed, prompt_for_permission,
    Handler.input, record_execution;
  rewrite ?mode;
  repeat match goal with
         | |- context [String.eqb ?a ?b] =>
             let H := fresh "Heq" in destruct (String.eqb a b) eqn:H
         | |- context [check_command_permission ?s ?c ?m] =>
             let H := fresh "Hperm" in
             destruct (check_command_permission s c m) as [[] ?] eqn:H
         | |- context [permission_answers ?w ?n] =>
             let H := fresh "Hanswer" in
             destruct (permission_answers w n) as [? ?] eqn:H
         | |- context [Z.eqb ?a ?b] =>
             let H := fresh "Hz" in destruct (Z.eqb a b) eqn:H
         | |- context [execute ?s ?l ?c] =>
             destruct (execute s l c) as [? ?]
         end;
  cbn [negb orb andb fst snd executed lines_read prompts_shown] in *.

Ltac gate_cases := gate_cases_in (@eq_refl nat 0).

(** X13: _handle_command_suggestion returns only IN_PROGRESS or CANCELLED; it
    returns CANCELLED exactly when the command is not the completion signal,
    the permission check refuses it, the mode is gremlin and the answer at the
    permission prompt is 2; in that case the state is unchanged and nothing is
    executed. *)
Theorem command_gate_status self command state w :
  let '(status, state', w') := _handle_command_suggestion self command state w in
  (status = IN_PROGRESS ∨ status = CANCELLED)
  ∧ (status = CANCELLED ↔
       command ≠ "report_task_completion"
       ∧ fst (check_command_permission self command (operation_mode self)) = false
       ∧ operation_mode self = "gremlin"
       ∧ fst (permission_answers w (prompts_shown w)) = 2%Z)
  ∧ (status = CANCELLED → state' = state ∧ executed w' = executed w).
Proof.
  gate_cases;
    repeat match goal with
           | H : String.eqb _ _ = true |- _ => apply String.eqb_eq in H
           | H : String.eqb _ _ = false |- _ => apply String.eqb_neq in H
           | H : Z.eqb _ _ = true |- _ => apply Z.eqb_eq in H
           | H : Z.eqb _ _ = false |- _ => apply Z.eqb_neq in H
           end;
    (split_and!; [by auto| |by auto]);
    (split; [done || by intros _|]); try done;
    intros (? & ? & ? & ?); simplify_eq/=; try congruence.
Qed.

Ltac eqb_facts :=
  repeat match goal with
         | H : String.eqb _ _ = true |- _ => apply String.eqb_eq in H
         | H : String.eqb _ _ = false |- _ => apply String.eqb_neq in H
         | H : Z.eqb _ _ = true |- _ => apply Z.eqb_eq in H
         | H : Z.eqb _ _ = false |- _ => apply Z.eqb_neq in H
         end.

(** X14: In normal mode _handle_command_suggestion always returns IN_PROGRESS
    and executes at most the suggested command, and only if the permission
    check allowed it and the user typed y (in either case) at the
    confirmation; a refused command is not executed, no line is read, and the
    state records that the command was not executed, with the reason of the
    refusal. *)
Theorem normal_mode_execution_needs_consent self command state w :
  operation_mode self = "normal" →
  let '(status, state', w') := _handle_command_suggestion self command state w in
  status = IN_PROGRESS
  ∧ (executed w' = executed w
     ∨ executed w' = executed w ++ [command]
       ∧ command ≠ "report_task_completion"
       ∧ fst (check_command_permission self command "normal") = true
       ∧ lower (keyboard w (lines_read w)) = "y")
  ∧ (fst (check_command_permission self command "normal") = false →
     command ≠ "report_task_completion" →
     executed w' = executed w
     ∧ lines_read w' = lines_read w
     ∧ last_action_taken state' = "Command '" +:+ command +:+ "' not executed."
     ∧ last_action_result state'
       = "Command blocked: " +:+ snd (check_command_permission self command "normal")).
Proof.
  intros Hmode.
  gate_cases_in Hmode; eqb_facts; try congruence;
    split_and!; try done; auto; try (intros; congruence).
Qed.

(** Witness of X14. *)
Lemma normal_mode_execution_needs_consent_witness :
  executed (_handle_command_suggestion (Examples.demo_handler true) "rm -rf build"
              initial_state (Examples.demo_world [] "y")).2 = []
  ∧ last_action_result
      (_handle_command_suggestion (Examples.demo_handler true) "rm -rf build"
         initial_state (Examples.demo_world [] "y")).1.2
    = "Command blocked: Command not in allowed list".
Proof.
  generalize (normal_mode_execution_needs_consent (Examples.demo_handler true)
                "rm -rf build" initial_state (Examples.demo_world [] "y") eq_refl).
  destruct (_handle_command_suggestion _ _ _ _) as [[status state'] w'].
  intros (_ & _ & Hblocked). cbn [fst snd].
  destruct Hblocked as (He & _ & _ & Hr); [reflexivity|discriminate|].
  split; [exact He|exact Hr].
Defined.

(** X15: In goblin mode every suggested command other than the completion
    signal is executed, whatever the permission check says, without reading a
    line from the user and without a permission prompt. *)
Theorem goblin_mode_runs_unasked self command state w :
  operation_mode self = "goblin" →
  command ≠ "report_task_completion" →
  let '(status, state', w') := _handle_command_suggestion self command state w in
  status = IN_PROGRESS
  ∧ executed w' = executed w ++ [command]
  ∧ lines_read w' = lines_read w
  ∧ prompts_shown w' = prompts_shown w
  ∧ last_action_taken state' = "Executed command: " +:+ command.
Proof.
  intros Hmode Hcommand.
  gate_cases_in Hmode; eqb_facts; try congruence; by split_and!.
Qed.

(** Witness of X15. *)
Lemma goblin_mode_runs_unasked_witness :
  executed (_handle_command_suggestion (Scenarios.mode_handler "goblin")
              "rm -rf build" initial_state (Examples.demo_world [] "n")).2
  = ["rm -rf build"]
  ∧ lines_read (_handle_command_suggestion (Scenarios.mode_handler "goblin")
                  "rm -rf build" initial_state (Examples.demo_world [] "n")).2
    = 0.
Proof.
  generalize (goblin_mode_runs_unasked (Scenarios.mode_handler "goblin")
                "rm -rf build" initial_state (Examples.demo_world [] "n") eq_refl).
  destruct (_handle_command_suggestion _ _ _ _) as [[status state'] w'].
  intros Hrun. destruct Hrun as (_ & He & Hl & _); [discriminate|].
  split; [exact He|exact Hl].
Defined.

(** X16: In gremlin mode a command the permission check allows runs without
    any prompt; a command it refuses shows exactly one permission prompt,
    whose answer decides: 0 runs the command, 2 cancels the task with nothing
    run, anything else leaves the task in progress with the denial recorded in
    the state. *)
Theorem gremlin_mode_prompts_for_unknown self command state w :
  operation_mode self = "gremlin" →
  command ≠ "report_task_completion" →
  let '(status, state', w') := _handle_command_suggestion self command state w in
  (fst (check_command_permission self command "gremlin") = true →
   status = IN_PROGRESS ∧ executed w' = executed w ++ [command]
   ∧ prompts_shown w' = prompts_shown w ∧ lines_read w' = lines_read w)
  ∧ (fst (check_command_permission self command "gremlin") = false →
     prompts_shown w' = S (prompts_shown w)
     ∧ lines_read w' = lines_read w
     ∧ match fst (permission_answers w (prompts_shown w)) with
       | 0%Z => status = IN_PROGRESS ∧ executed w' = executed w ++ [command]
       | 2%Z => status = CANCELLED ∧ executed w' = executed w
       | _ => status = IN_PROGRESS ∧ executed w' = executed w
              ∧ last_action_taken state' = "Command '" +:+ command +:+ "' denied by user"
              ∧ last_action_result state'
                = "User denied permission: "
                    +:+ snd (permission_answers w (prompts_shown w))
       end).
Proof.
  intros Hmode Hcommand.
  gate_cases_in Hmode; eqb_facts; try congruence;
    (split; [try done; by intros _|]); try done; intros _;
    (split_and!; [done|done|]); simplify_eq/=; try done.
  repeat case_match; try done; lia.
Qed.

(** Witness of X16. *)
Lemma gremlin_mode_prompts_for_unknown_witness :
  prompts_shown (_handle_command_suggestion (Scenarios.mode_handler "gremlin")
                   "rm -rf build" initial_state (Examples.demo_world [] "n")).2
  = 1
  ∧ executed (_handle_command_suggestion (Scenarios.mode_handler "gremlin")
                "rm -rf build" initial_state (Examples.demo_world [] "n")).2
    = [].
Proof.
  generalize (gremlin_mode_prompts_for_unknown (Scenarios.mode_handler "gremlin")
                "rm -rf build" initial_state (Examples.demo_world [] "n") eq_refl).
  destruct (_handle_command_suggestion _ _ _ _) as [[status state'] w'].
  intros Hrun. destruct Hrun as [_ Hunknown]; [discriminate|].
  destruct Hunknown as (Hp & _ & _ & He & _); [reflexivity|].
  split; [exact Hp|exact He].
Defined.


(** ** The phases and the task loop *)

Lemma runs_only_refl P w w' : executed w' = executed w → runs_only P w w'.
Proof. intros He. exists []. by rewrite app_nil_r. Qed.

Lemma runs_only_trans P w1 w2 w3 :
  runs_only P w1 w2 → runs_only P w2 w3 → runs_only P w1 w3.
Proof.
  intros (c1 & H1 & F1) (c2 & H2 & F2). exists (c1 ++ c2).
  split; [by rewrite H2, H1, app_assoc|by apply Forall_app].
Qed.

Section Phases.
Context (repr : json → string) (self : TaskHandler).

Lemma compact_before_call_executed w w1 :
  compact_before_call repr self w = Some w1 → executed w1 = executed w.
Proof. intros [d ->]%compact_before_call_inv. done. Qed.

Ltac body_cases H :=
  repeat match type of H with
         | context [compact_before_call ?r ?s ?w] =>
             let Hc := fresh "Hcompact" in
             destruct (compact_before_call r s w) as [?|] eqn:Hc;
             cbn [mbind option_bind] in H; [|done]
         | context [truthy ?o] =>
             let Ht := fresh "Htruthy" in
             destruct (truthy o) eqn:Ht; cbn [negb] in H
         | context [startswith ?a ?b] =>
             let Hs := fresh "Hstarts" in destruct (startswith a b) eqn:Hs
         | context [allow_clarifying_questions ?s] =>
             let Ha := fresh "Hallow" in destruct (allow_clarifying_questions s) eqn:Ha
         | context [nonempty ?a && nonempty ?b] =>
             let Hv := fresh "Hvalid" in destruct (nonempty a && nonempty b) eqn:Hv
         end.

Lemma plan_phase_body_range attempt context state w step state' w' :
  plan_phase_body repr self attempt context state w = Some (step, state', w') →
  executed w' = executed w
  ∧ (step = Return IN_PROGRESS ∨ step = Return FAILED ∨ ∃ c, step = Continue c).
Proof.
  unfold plan_phase_body, llm_send, log_context, Handler.input. intros H.
  body_cases H; simplify_eq; cbn;
    (split; [by eapply compact_before_call_executed|]); eauto.
Qed.

Lemma plan_phase_loop_range fuel attempt context state w status state' w' :
  plan_phase_loop repr self fuel attempt context state w = Some (status, state', w') →
  executed w' = executed w ∧ (status = IN_PROGRESS ∨ status = FAILED).
Proof.
  revert attempt context state w.
  induction fuel as [|fuel IH]; intros attempt context state w; [done|].
  cbn [plan_phase_loop].
  destruct (plan_phase_body repr self (S attempt) context state w)
    as [[[step st1] w1]|] eqn:Hbody; [|done].
  apply plan_phase_body_range in Hbody as [He Hstep].
  destruct step as [status1|context1].
  - intros [= <- <- <-]. split; [done|].
    destruct Hstep as [?|[?|[? ?]]]; simplify_eq; auto.
  - intros Hloop. apply IH in Hloop as [He' ?]. split; [congruence|done].
Qed.

Lemma evaluation_decision_range decision_type message state original_prompt w
    status context state' w' :
  _process_evaluation_decision self decision_type message state original_prompt w
  = ((status, context), state', w') →
  executed w' = executed w
  ∧ requests w' = requests w
  ∧ status ≠ CANCELLED
  ∧ (status = COMPLETED → decision_type = "TASK_COMPLETE")
  ∧ last_eval_decision state' = last_eval_decision state.
Proof.
  unfold _process_evaluation_decision, Handler.input. intros H.
  repeat match type of H with
         | context [String.eqb ?a ?b] =>
             let He := fresh "Heq" in destruct (String.eqb a b) eqn:He
         | context [allow_clarifying_questions ?s] =>
             destruct (allow_clarifying_questions s)
         end;
    simplify_eq; cbn; split_and!; try done;
    intros _; by apply String.eqb_eq.
Qed.

Lemma evaluation_phase_body_range attempt context current_context state
    original_prompt w step state' w' :
  evaluation_phase_body repr self attempt context current_context state
    original_prompt w = Some (step, state', w') →
  executed w' = executed w
  ∧ ∀ status next_context,
      step = Return (status, next_context) →
      status ≠ CANCELLED
      ∧ (status = COMPLETED → last_eval_decision state' = "TASK_COMPLETE").
Proof.
  unfold evaluation_phase_body, llm_send, log_context. intros H.
  destruct (compact_before_call repr self w) as [w1|] eqn:Hcompact;
    cbn [mbind option_bind] in H; [|done].
  pose proof (compact_before_call_executed w w1 Hcompact) as He.
  destruct (truthy (payload_builder self "evaluate" current_context));
    cbn [negb] in H.
  2:{ simplify_eq. split; [done|]. by intros ? ? [= <- <-]. }
  destruct (truthy (mjoin (head (llm_script w1)))); cbn [negb] in H.
  2:{ simplify_eq. split; [done|]. by intros ? ? [= <- <-]. }
  destruct (nonempty (parse_llm_decision _)) eqn:Hdecision.
  - destruct (extract_decision_type_and_message _) as [decision_type message].
    destruct (_process_evaluation_decision _ _ _ _ _ _) as [[[status ctx] st1] w2] eqn:Hp.
    simplify_eq.
    apply evaluation_decision_range in Hp as (He' & _ & Hc & Hdone & Hlast).
    cbn in He', Hlast. split; [congruence|].
    intros status' next [= <- <-]. split; [done|].
    intros Hs. rewrite Hlast. by apply Hdone.
  - simplify_eq. cbn. split; [done|]. by intros ? ? [=].
Qed.

Lemma evaluation_phase_loop_range fuel attempt context current_context state
    original_prompt w status next_context state' w' :
  evaluation_phase_loop repr self fuel attempt context current_context state
    original_prompt w = Some ((status, next_context), state', w') →
  executed w' = executed w
  ∧ status ≠ CANCELLED
  ∧ (status = COMPLETED → last_eval_decision state' = "TASK_COMPLETE").
Proof.
  revert attempt current_context state w.
  induction fuel as [|fuel IH]; intros attempt current_context state w; [done|].
  cbn [evaluation_phase_loop].
  destruct (evaluation_phase_body repr self (S attempt) context current_context
              state original_prompt w) as [[[step st1] w1]|] eqn:Hbody; [|done].
  apply evaluation_phase_body_range in Hbody as [He Hstep].
  destruct step as [[status1 ctx1]|context1].
  - intros [= <- <- <- <-]. destruct (Hstep status1 ctx1 eq_refl). by split_and!.
  - intros Hloop. apply IH in Hloop as (He' & ? & ?). split_and!; [congruence|done..].
Qed.

Lemma command_gate_range command state w status state' w' :
  _handle_command_suggestion self command state w = (status, state', w') →
  runs_only (permitted self) w w'
  ∧ (status = IN_PROGRESS ∨ status = CANCELLED ∧ operation_mode self = "gremlin").
Proof.
  unfold _handle_command_suggestion, run_if_allowed, prompt_for_permission,
    Handler.input, record_execution. intros H.
  repeat match type of H with
         | context [String.eqb ?a ?b] =>
             let He := fresh "Heq" in destruct (String.eqb a b) eqn:He
         | context [check_command_permission ?s ?c ?m] =>
             let Hp := fresh "Hperm" in
             destruct (check_command_permission s c m) as [[] ?] eqn:Hp
         | context [permission_answers ?w ?n] =>
             destruct (permission_answers w n) as [? ?]
         | context [Z.eqb ?a ?b] => destruct (Z.eqb a b)
         | context [execute ?s ?l ?c] => destruct (execute s l c) as [? ?]
         end;
    cbn [negb orb andb] in H; simplify_eq;
    repeat match goal with
           | H : String.eqb _ _ = true |- _ => apply String.eqb_eq in H
           | H : String.eqb _ _ = false |- _ => apply String.eqb_neq in H
           end;
    (split; [|by auto]);
    first [ by apply runs_only_refl
          | exists [command]; split; [done|];
            apply Forall_singleton; intros Hmode; try congruence;
            by rewrite <- Hmode, Hperm ].
Qed.

Lemma action_phase_body_range attempt context state w step state' w' :
  action_phase_body repr self attempt context state w = Some (step, state', w') →
  runs_only (permitted self) w w'
  ∧ ∀ status,
      step = Return status →
      status = IN_PROGRESS ∨ status = FAILED
      ∨ status = CANCELLED ∧ operation_mode self = "gremlin".
Proof.
  unfold action_phase_body, llm_send, log_context. intros H.
  destruct (compact_before_call repr self w) as [w1|] eqn:Hcompact;
    cbn [mbind option_bind] in H; [|done].
  pose proof (compact_before_call_executed w w1 Hcompact) as He.
  destruct (truthy (payload_builder self "action" context)); cbn [negb] in H.
  2:{ simplify_eq. split; [by apply runs_only_refl|]. intros ? [= <-]. auto. }
  destruct (truthy (mjoin (head (llm_script w1)))); cbn [negb] in H.
  2:{ simplify_eq. split; [by apply runs_only_refl|]. intros ? [= <-]. auto. }
  destruct (truthy (parse_suggested_command _)).
  - destruct (_handle_command_suggestion _ _ _ _) as [[status st1] w2] eqn:Hgate.
    simplify_eq. apply command_gate_range in Hgate as [Hruns Hstatus].
    split.
    + eapply runs_only_trans; [|exact Hruns]. by apply runs_only_refl.
    + intros ? [= <-]. destruct Hstatus as [?|[? ?]]; auto.
  - simplify_eq. split; [by apply runs_only_refl|]. by intros ? [=].
Qed.

Lemma action_phase_loop_range fuel attempt context state w status state' w' :
  action_phase_loop repr self fuel attempt context state w = Some (status, state', w') →
  runs_only (permitted self) w w'
  ∧ (status = IN_PROGRESS ∨ status = FAILED
     ∨ status = CANCELLED ∧ operation_mode self = "gremlin").
Proof.
  revert attempt context state w.
  induction fuel as [|fuel IH]; intros attempt context state w; [done|].
  cbn [action_phase_loop].
  destruct (action_phase_body repr self (S attempt) context state w)
    as [[[step st1] w1]|] eqn:Hbody; [|done].
  apply action_phase_body_range in Hbody as [Hruns Hstep].
  destruct step as [status1|context1].
  - intros [= <- <- <-]. split; [done|]. by apply Hstep.
  - intros Hloop. apply IH in Hloop as [Hruns' ?].
    split; [by eapply runs_only_trans|done].
Qed.
End Phases.

Section Task.
Context (repr : json → string) (self : TaskHandler)
        (get_current_session_context : Disk → string).

Lemma status_eqb_eq a b : status_eqb a b = true ↔ a = b.
Proof. destruct a, b; split; done. Qed.

Lemma build_action_context_decision prompt state :
  last_eval_decision (_build_action_context prompt state).2 = last_eval_decision state.
Proof. unfold _build_action_context. by destruct (nonempty (user_clarification state)). Qed.

Lemma build_evaluation_context_decision prompt state :
  last_eval_decision (_build_evaluation_context prompt state).2
  = last_eval_decision state.
Proof. unfold _build_evaluation_context. by destruct (nonempty (user_clarification state)). Qed.

Lemma handle_task_round_range fuel prompt context state w step state' w' :
  handle_task_round repr self fuel prompt context state w = Some (step, state', w') →
  runs_only (permitted self) w w'
  ∧ ∀ status,
      step = Return status →
      status ≠ IN_PROGRESS
      ∧ (status = COMPLETED → last_eval_decision state' = "TASK_COMPLETE")
      ∧ (status = CANCELLED → operation_mode self = "gremlin").
Proof.
  unfold handle_task_round. intros H.
  set (state0 := set_iteration (iteration state + 1) state) in H.
  assert (∃ st1 w1 ctx1,
            runs_only (permitted self) w w1
            ∧ ((∃ status, step = Return status ∧ status = FAILED
                          ∧ state' = st1 ∧ w' = w1)
               ∨ (nonempty (current_instruction st1) = false
                  ∧ step = Return FAILED ∧ state' = st1 ∧ w' = w1)
               ∨ (nonempty (current_instruction st1) = true
                  ∧ ('(status, state, w) ←
                       _execute_action_phase repr self fuel ctx1 st1 w1;
                     if negb (status_eqb status IN_PROGRESS)
                     then Some (Return status, state, w)
                     else
                       let '(eval_context, state) :=
                         _build_evaluation_context prompt state in
                       '(result, state, w) ←
                         _execute_evaluation_phase repr self fuel eval_context state
                           prompt w;
                       let '(status, current_context) := result in
                       if status_eqb status IN_PROGRESS
                       then Some (Continue current_context, state, w)
                       else Some (Return status, state, w))
                    = Some (step, state', w'))))
    as (st1 & w1 & ctx1 & Hruns1 & Hrest).
  { destruct (needs_new_plan state0).
    - destruct (_execute_plan_phase repr self fuel context state0 w)
        as [[[status1 st1] w1]|] eqn:Hplan; cbn [mbind option_bind] in H; [|done].
      apply plan_phase_loop_range in Hplan as [He Hstatus].
      exists (if status_eqb status1 IN_PROGRESS
              then (_build_action_context prompt st1).2 else st1), w1,
             (_build_action_context prompt st1).1.
      split; [by apply runs_only_refl|].
      destruct Hstatus as [-> | ->]; cbn [status_eqb negb mbind option_bind] in H |- *.
      + destruct (_build_action_context prompt st1) as [ctx1 st2]. cbn [fst snd].
        cbn [mbind option_bind] in H.
        destruct (nonempty (current_instruction st2)) eqn:Hinstr; cbn [negb] in H.
        * right; right. by split.
        * right; left. by simplify_eq.
      + left. exists FAILED. by simplify_eq.
    - cbn [mbind option_bind] in H. exists state0, w, context.
      split; [by apply runs_only_refl|].
      destruct (nonempty (current_instruction state0)) eqn:Hinstr; cbn [negb] in H.
      + right; right. by split.
      + right; left. by simplify_eq. }
  destruct Hrest as [(status & -> & -> & -> & ->)|[(_ & -> & -> & ->)|[_ Haction]]].
  - split; [done|]. by intros ? [= <-].
  - split; [done|]. by intros ? [= <-].
  - destruct (_execute_action_phase repr self fuel ctx1 st1 w1)
      as [[[status2 st2] w2]|] eqn:Hact; cbn [mbind option_bind] in Haction; [|done].
    apply action_phase_loop_range in Hact as [Hruns2 Hstatus2].
    destruct (status_eqb status2 IN_PROGRESS) eqn:Hin; cbn [negb] in Haction.
    + destruct (_build_evaluation_context prompt st2) as [ectx st3].
      destruct (_execute_evaluation_phase repr self fuel ectx st3 prompt w2)
        as [[[[status3 ctx3] st4] w3]|] eqn:Heval;
        cbn [mbind option_bind] in Haction; [|done].
      apply evaluation_phase_loop_range in Heval as (He3 & Hnc & Hdone).
      assert (runs_only (permitted self) w w3) as Hruns.
      { eapply runs_only_trans; [exact Hruns1|].
        eapply runs_only_trans; [exact Hruns2|]. by apply runs_only_refl. }
      destruct (status_eqb status3 IN_PROGRESS) eqn:Hin3; simplify_eq.
      * split; [done|]. by intros ? [=].
      * split; [done|]. intros ? [= <-]. split_and!; [|done|done].
        intros ->. done.
    + simplify_eq. split; [by eapply runs_only_trans|].
      intros ? [= <-]. destruct Hstatus2 as [-> | [-> | [-> ?]]]; by split_and!.
Qed.

Lemma handle_task_loop_range fuel prompt context state w status state' w' :
  handle_task_loop repr self fuel prompt context state w = Some (status, state', w') →
  runs_only (permitted self) w w'
  ∧ status ≠ IN_PROGRESS
  ∧ (status = COMPLETED → last_eval_decision state' = "TASK_COMPLETE")
  ∧ (status = CANCELLED → operation_mode self = "gremlin").
Proof.
  revert context state w. induction fuel as [|fuel IH]; intros context state w; [done|].
  cbn [handle_task_loop].
  destruct (handle_task_round repr self fuel prompt context state w)
    as [[[step st1] w1]|] eqn:Hround; [|done].
  apply handle_task_round_range in Hround as [Hruns Hstep].
  destruct step as [status1|context1].
  - intros [= <- <- <-]. destruct (Hstep status1 eq_refl) as (? & ? & ?). by split_and!.
  - intros Hloop. apply IH in Hloop as (Hruns' & ? & ? & ?).
    split_and!; [by eapply runs_only_trans|done..].
Qed.

Lemma completion_summary_executed prompt state w w' :
  _generate_completion_summary repr self get_current_session_context prompt state w
  = Some w' →
  executed w' = executed w.
Proof.
  unfold _generate_completion_summary, llm_send. intros H.
  destruct (compact_before_call repr self w) as [w1|] eqn:Hcompact;
    cbn [mbind option_bind] in H; [|done].
  pose proof (compact_before_call_executed repr self w w1 Hcompact).
  destruct (truthy _); cbn [negb] in H; by simplify_eq.
Qed.

(** X22: handle_task returns when its loop ends with a status other than
    IN_PROGRESS; it reports success exactly when that status is COMPLETED,
    which happens only after the evaluator's decision TASK_COMPLETE; the loop
    ends CANCELLED only in gremlin mode; the context returned is the
    evaluation context built from the final state. *)
Theorem handle_task_verdict fuel prompt w success final_context w' :
  handle_task repr self get_current_session_context fuel prompt w
  = Some ((success, final_context), w') →
  ∃ status state w0,
    handle_task_loop repr self fuel prompt prompt initial_state w
    = Some (status, state, w0)
    ∧ status ≠ IN_PROGRESS
    ∧ (success = true ↔ status = COMPLETED)
    ∧ (success = true → last_eval_decision state = "TASK_COMPLETE")
    ∧ (status = CANCELLED → operation_mode self = "gremlin")
    ∧ final_context = (_build_evaluation_context prompt state).1.
Proof.
  unfold handle_task. intros H.
  destruct (handle_task_loop repr self fuel prompt prompt initial_state w)
    as [[[status state] w0]|] eqn:Hloop; cbn [mbind option_bind] in H; [|done].
  pose proof (handle_task_loop_range _ _ _ _ _ _ _ _ Hloop) as (_ & Hterm & Hdone & Hcancel).
  exists status, state, w0. split; [done|].
  destruct (status_eqb status COMPLETED) eqn:Hs.
  - apply status_eqb_eq in Hs as ->.
    destruct (_generate_completion_summary _ _ _ _ _ _); cbn [mbind option_bind] in H;
      [|done].
    simplify_eq. split_and!; [done|by split|auto..].
  - simplify_eq. split_and!; [done| |done|done|done].
    split; [done|]. intros ->. done.
Qed.

(** X23: In normal mode every command a whole task executes was allowed by the
    permission check: the commands handle_task executes are appended to the
    earlier ones and each of them passes check_command_permission in normal
    mode. *)
Theorem handle_task_runs_permitted_commands fuel prompt w result w' :
  operation_mode self = "normal" →
  handle_task repr self get_current_session_context fuel prompt w
  = Some (result, w') →
  ∃ commands,
    executed w' = executed w ++ commands
    ∧ Forall (λ command,
                fst (check_command_permission self command "normal") = true)
             commands.
Proof.
  intros Hmode. unfold handle_task. intros H.
  destruct (handle_task_loop repr self fuel prompt prompt initial_state w)
    as [[[status state] w0]|] eqn:Hloop; cbn [mbind option_bind] in H; [|done].
  apply handle_task_loop_range in Hloop as ((commands & He & Hall) & _).
  exists commands. split.
  - destruct (status_eqb status COMPLETED).
    + destruct (_generate_completion_summary _ _ _ _ _ _) as [w1|] eqn:Hsum;
        cbn [mbind option_bind] in H; [|done].
      apply completion_summary_executed in Hsum. simplify_eq. congruence.
    + by simplify_eq.
  - eapply Forall_impl; [exact Hall|]. intros c Hc. by apply Hc.
Qed.
End Task.

(** Witness of X23. *)
Lemma handle_task_runs_permitted_commands_witness :
  ∃ result w' commands,
    handle_task Examples.short_repr (Examples.demo_handler true) Scenarios.no_history
      3 "list the files" (Examples.demo_world Scenarios.full_run "y")
    = Some (result, w')
    ∧ executed w' = [] ++ commands
    ∧ Forall (λ command, String.prefix "ls" command = true) commands.
Proof.
  eexists _, _.
  match goal with
  | |- ∃ commands, ?run ∧ _ => assert (H : run) by (vm_compute; reflexivity)
  end.
  destruct (handle_task_runs_permitted_commands _ (Examples.demo_handler true) _ _ _ _ _ _ eq_refl H)
    as (commands & He & Hall).
  exists commands. split_and!; [exact H|exact He|exact Hall].
Defined.

(** Witness of X22. *)
Lemma handle_task_verdict_witness :
  ∃ final_context w' status state w0,
    handle_task Examples.short_repr (Examples.demo_handler true) Scenarios.no_history
      3 "list the files" (Examples.demo_world Scenarios.full_run "y")
    = Some ((true, final_context), w')
    ∧ handle_task_loop Examples.short_repr (Examples.demo_handler true) 3
        "list the files" "list the files" initial_state
        (Examples.demo_world Scenarios.full_run "y")
      = Some (status, state, w0)
    ∧ status = COMPLETED
    ∧ last_eval_decision state = "TASK_COMPLETE".
Proof.
  eexists _, _.
  match goal with
  | |- ∃ status state w0, ?run ∧ _ => assert (H : run) by (vm_compute; reflexivity)
  end.
  destruct (handle_task_verdict _ _ _ _ _ _ _ _ _ H)
    as (status & state & w0 & Hloop & _ & Hs & Hd & _).
  exists status, state, w0. split_and!; [exact H|exact Hloop|by apply Hs|by apply Hd].
Defined.

(** ** The first round *)

Section FirstRound.
Context (repr : json → string) (self : TaskHandler)
        (get_current_session_context : Disk → string).

Lemma truthy_inv o : truthy o = true → ∃ s, o = Some s ∧ s ≠ "".
Proof.
  destruct o as [s|]; [|done]. cbn. intros H. exists s. split; [done|].
  apply String.eqb_neq. by destruct (String.eqb s "").
Qed.

Lemma first_round_needs_plan :
  needs_new_plan (set_iteration (iteration initial_state + 1) initial_state) = true.
Proof. done. Qed.

Lemma build_action_context_instruction prompt state :
  current_instruction (_build_action_context prompt state).2
  = current_instruction state.
Proof. unfold _build_action_context. by destruct (nonempty (user_clarification state)). Qed.

Lemma first_round_without_instruction fuel prompt w status state w' :
  _execute_plan_phase repr self fuel prompt
    (set_iteration (iteration initial_state + 1) initial_state) w
  = Some (status, state, w') →
  status = FAILED ∨ current_instruction state = "" →
  ∃ final_context,
    handle_task repr self get_current_session_context (S fuel) prompt w
    = Some ((false, final_context), w').
Proof.
  intros Hplan Hstop. unfold handle_task. cbn [handle_task_loop].
  unfold handle_task_round. rewrite first_round_needs_plan, Hplan.
  cbn [mbind option_bind].
  destruct (plan_phase_loop_range _ _ _ _ _ _ _ _ _ _ Hplan) as [_ [-> | ->]];
    cbn [status_eqb negb mbind option_bind].
  - destruct Hstop as [|Hinstr]; [done|].
    pose proof (build_action_context_instruction prompt state) as Hkeep.
    destruct (_build_action_context prompt state) as [context state1].
    cbn [snd] in Hkeep. cbn [mbind option_bind].
    rewrite Hkeep, Hinstr. cbn [nonempty negb String.eqb status_eqb].
    by eexists.
  - by eexists.
Qed.

(** X25: If the plan payload cannot be built or the model gives no answer to
    the first request, handle_task fails at once: no retry, nothing executed,
    no line read, at most the one plan request sent, and the disk is as the
    compaction check left it. *)
Theorem task_fails_when_planner_is_unreachable fuel prompt w w1 :
  compact_before_call repr self w = Some w1 →
  truthy (payload_builder self "plan" prompt) = false
  ∨ truthy (mjoin (head (llm_script w))) = false →
  ∃ final_context w',
    handle_task repr self get_current_session_context (S (S fuel)) prompt w
    = Some ((false, final_context), w')
    ∧ executed w' = executed w
    ∧ lines_read w' = lines_read w
    ∧ disk w' = disk w1
    ∧ (requests w' = requests w
       ∨ ∃ payload, payload_builder self "plan" prompt = Some payload
                    ∧ requests w' = requests w ++ [payload]).
Proof.
  intros Hcompact Hfail.
  destruct (compact_before_call_inv _ _ _ _ Hcompact) as [d ->].
  assert (∃ state w',
            _execute_plan_phase repr self (S fuel) prompt
              (set_iteration (iteration initial_state + 1) initial_state) w
            = Some (FAILED, state, w')
            ∧ executed w' = executed w
            ∧ lines_read w' = lines_read w
            ∧ disk w' = d
            ∧ (requests w' = requests w
               ∨ ∃ payload, payload_builder self "plan" prompt = Some payload
                            ∧ requests w' = requests w ++ [payload]))
    as (state & w' & Hplan & Hrest).
  { unfold _execute_plan_phase. cbn [plan_phase_loop]. unfold plan_phase_body.
    rewrite Hcompact. cbn [mbind option_bind].
    destruct (truthy (payload_builder self "plan" prompt)) eqn:Hpayload;
      cbn [negb].
    - destruct Hfail as [|Hanswer]; [done|].
      apply truthy_inv in Hpayload as (payload & Hp & _).
      unfold llm_send. cbn [llm_script set_disk]. rewrite Hanswer. cbn [negb].
      eexists _, _. split; [done|]. cbn. split_and!; try done.
      right. exists payload. by rewrite Hp.
    - eexists _, _. split; [done|]. cbn. split_and!; auto. }
  destruct (first_round_without_instruction _ _ _ _ _ _ Hplan) as [ctx Htask];
    [by left|].
  by exists ctx, w'.
Qed.

(** X26: If clarifying questions are allowed and the planner's first response
    is a CLARIFY_USER question, handle_task reads the user's answer and then
    fails, because there is no instruction yet: the handler's own client is
    sent exactly one request, the plan payload, and gives one answer (what
    the compaction check before it sends through the compactor's client is
    not counted), the exchange is appended to the history on the disk the
    compaction check left, one line is read and nothing is executed. *)
Theorem planner_question_in_first_round_fails fuel prompt w w1 payload response rest :
  allow_clarifying_questions self = true →
  compact_before_call repr self w = Some w1 →
  payload_builder self "plan" prompt = Some payload →
  payload ≠ "" →
  llm_script w = Some response :: rest →
  response ≠ "" →
  startswith (parse_llm_decision response) "CLARIFY_USER:" = true →
  ∃ final_context w',
    handle_task repr self get_current_session_context (S (S fuel)) prompt w
    = Some ((false, final_context), w')
    ∧ requests w' = requests w ++ [payload]
    ∧ llm_script w' = rest
    ∧ disk w'
      = append_context self
          ("Planner Input (Attempt " +:+ pretty 2 +:+ "): " +:+ prompt)
          response (disk w1)
    ∧ lines_read w' = S (lines_read w)
    ∧ executed w' = executed w.
Proof.
  intros Hallow Hcompact Hpayload Hp Hscript Hr Hquestion.
  destruct (compact_before_call_inv _ _ _ _ Hcompact) as [d ->].
  assert (∃ state w',
            _execute_plan_phase repr self (S fuel) prompt
              (set_iteration (iteration initial_state + 1) initial_state) w
            = Some (IN_PROGRESS, state, w')
            ∧ current_instruction state = ""
            ∧ requests w' = requests w ++ [payload]
            ∧ llm_script w' = rest
            ∧ disk w'
              = append_context self
                  ("Planner Input (Attempt " +:+ pretty 2 +:+ "): " +:+ prompt)
                  response d
            ∧ lines_read w' = S (lines_read w)
            ∧ executed w' = executed w)
    as (state & w' & Hplan & Hinstr & Hrest).
  { unfold _execute_plan_phase. cbn [plan_phase_loop]. unfold plan_phase_body.
    rewrite Hcompact. cbn [mbind option_bind].
    rewrite Hpayload, (truthy_Some _ Hp).
    unfold llm_send. cbn [llm_script set_disk negb]. rewrite Hscript.
    cbn [head mjoin option_join mbind option_bind default from_option id].
    rewrite (truthy_Some _ Hr). cbn [negb]. rewrite Hquestion, Hallow.
    unfold Handler.input, log_context. eexists _, _. split; [done|]. done. }
  destruct (first_round_without_instruction _ _ _ _ _ _ Hplan) as [ctx Htask];
    [by right|].
  by exists ctx, w'.
Qed.
End FirstRound.

(** Witness of X26. *)
Lemma planner_question_in_first_round_fails_witness :
  ∃ final_context w',
    handle_task Examples.short_repr (Examples.demo_handler true) Scenarios.no_history
      2 "list the files" (Examples.demo_world [Some Scenarios.question_response] "src")
    = Some ((false, final_context), w')
    ∧ requests w' = [] ++ ["[plan] list the files"]
    ∧ llm_script w' = []
    ∧ disk w'
      = append_context (Examples.demo_handler true)
          ("Planner Input (Attempt " +:+ pretty 2 +:+ "): " +:+ "list the files")
          Scenarios.question_response
          (disk (Examples.demo_world [Some Scenarios.question_response] "src"))
    ∧ lines_read w' = 1
    ∧ executed w' = [].
Proof.
  apply (planner_question_in_first_round_fails Examples.short_repr
           (Examples.demo_handler true) Scenarios.no_history 0 "list the files"
           (Examples.demo_world [Some Scenarios.question_response] "src")
           (Examples.demo_world [Some Scenarios.question_response] "src")
           "[plan] list the files" Scenarios.question_response []).
  - reflexivity.
  - reflexivity.
  - reflexivity.
  - discriminate.
  - reflexivity.
  - discriminate.
  - reflexivity.
Defined.

(** Witness of X25. *)
Lemma task_fails_when_planner_is_unreachable_witness :
  ∃ final_context w',
    handle_task Examples.short_repr (Examples.demo_handler true) Scenarios.no_history
      2 "list the files" (Examples.demo_world [] "y")
    = Some ((false, final_context), w')
    ∧ executed w' = []
    ∧ lines_read w' = 0
    ∧ length (requests w') ≤ 1.
Proof.
  destruct (task_fails_when_planner_is_unreachable Examples.short_repr
              (Examples.demo_handler true) Scenarios.no_history 0 "list the files"
              (Examples.demo_world [] "y") (Examples.demo_world [] "y"))
    as (final_context & w' & Htask & He & Hl & _ & Hr).
  - reflexivity.
  - right. reflexivity.
  - exists final_context, w'. split_and!; [exact Htask|exact He|exact Hl|].
    destruct Hr as [->|(payload & _ & ->)]; cbn; lia.
Defined.

(** ** What the retries send *)

Section Retries.
Context (repr : json → string) (self : TaskHandler).

Lemma compact_before_call_requests w w1 :
  compact_before_call repr self w = Some w1 → requests w1 = requests w.
Proof. intros [d ->]%compact_before_call_inv. done. Qed.

Lemma evaluation_phase_body_requests attempt context current_context state
    original_prompt w step state' w' :
  evaluation_phase_body repr self attempt context current_context state
    original_prompt w = Some (step, state', w') →
  (requests w' = requests w ∧ ∃ result, step = Return result)
  ∨ ∃ payload,
      payload_builder self "evaluate" current_context = Some payload
      ∧ requests w' = requests w ++ [payload]
      ∧ ∀ next, step = Continue next → next = evaluation_retry_context context.
Proof.
  unfold evaluation_phase_body, llm_send, log_context. intros H.
  destruct (compact_before_call repr self w) as [w1|] eqn:Hcompact;
    cbn [mbind option_bind] in H; [|done].
  pose proof (compact_before_call_requests w w1 Hcompact) as He.
  destruct (truthy (payload_builder self "evaluate" current_context)) eqn:Hp;
    cbn [negb] in H.
  2:{ simplify_eq. left. eauto. }
  apply truthy_inv in Hp as (payload & Hp & _). rewrite Hp in H.
  cbn [default from_option id] in H. right. exists payload. split; [done|].
  destruct (truthy (mjoin (head (llm_script w1)))); cbn [negb] in H.
  2:{ simplify_eq. split; [|done]. cbn. by rewrite He. }
  destruct (nonempty (parse_llm_decision _)) eqn:Hdecision.
  - destruct (extract_decision_type_and_message _) as [decision_type message].
    destruct (_process_evaluation_decision _ _ _ _ _ _) as [[[status ctx] st1] w2] eqn:Hd.
    simplify_eq.
    apply evaluation_decision_range in Hd as (_ & Hr & _).
    split; [|done]. rewrite Hr. cbn. by rewrite He.
  - simplify_eq. split.
    + cbn. by rewrite He.
    + by intros ? [= <-].
Qed.

Lemma evaluation_phase_loop_requests fuel attempt context current_context state
    original_prompt w result state' w' :
  evaluation_phase_loop repr self fuel attempt context current_context state
    original_prompt w = Some (result, state', w') →
  ∃ sent,
    requests w' = requests w ++ sent
    ∧ (∀ payload, head sent = Some payload →
                  payload_builder self "evaluate" current_context = Some payload)
    ∧ Forall (λ payload,
                payload_builder self "evaluate" (evaluation_retry_context context)
                = Some payload)
             (tail sent).
Proof.
  revert attempt current_context state w.
  induction fuel as [|fuel IH]; intros attempt current_context state w; [done|].
  cbn [evaluation_phase_loop].
  destruct (evaluation_phase_body repr self (S attempt) context current_context
              state original_prompt w) as [[[step st1] w1]|] eqn:Hbody; [|done].
  apply evaluation_phase_body_requests in Hbody
    as [[Hw [result1 ->]]|(payload & Hp & Hw & Hnext)].
  - intros [= <- <- <-]. exists []. by rewrite app_nil_r.
  - destruct step as [result1|next].
    + intros [= <- <- <-]. exists [payload]. split_and!; [done| |done].
      by intros ? [= <-].
    + rewrite (Hnext next eq_refl). intros Hloop.
      apply IH in Hloop as (sent & Hr & Hhead & Htail).
      exists (payload :: sent). rewrite Hr, Hw, <- app_assoc.
      split_and!; [done|by intros ? [= <-]|].
      cbn [tail]. destruct sent as [|p0 more]; [done|].
      constructor; [by apply Hhead|done].
Qed.

(** X20: The requests of an evaluation phase are appended to the trace in
    order; the first is the evaluate payload for the phase's context and every
    later one is the payload for one fixed context, the phase's context
    followed by a single correction note: retries do not accumulate notes. *)
Theorem evaluation_retries_repeat_one_request fuel context state original_prompt w
    result state' w' :
  _execute_evaluation_phase repr self fuel context state original_prompt w
  = Some (result, state', w') →
  ∃ sent,
    requests w' = requests w ++ sent
    ∧ (∀ payload, head sent = Some payload →
                  payload_builder self "evaluate" context = Some payload)
    ∧ Forall (λ payload,
                payload_builder self "evaluate" (evaluation_retry_context context)
                = Some payload)
             (tail sent).
Proof. apply evaluation_phase_loop_requests. Qed.

Lemma command_gate_requests command state w status state' w' :
  _handle_command_suggestion self command state w = (status, state', w') →
  requests w' = requests w.
Proof.
  unfold _handle_command_suggestion, run_if_allowed, prompt_for_permission,
    Handler.input, record_execution. intros H.
  repeat match type of H with
         | context [String.eqb ?a ?b] => destruct (String.eqb a b)
         | context [check_command_permission ?s ?c ?m] =>
             destruct (check_command_permission s c m) as [[] ?]
         | context [permission_answers ?w ?n] =>
             destruct (permission_answers w n) as [? ?]
         | context [Z.eqb ?a ?b] => destruct (Z.eqb a b)
         | context [execute ?s ?l ?c] => destruct (execute s l c) as [? ?]
         end;
    cbn [negb orb andb] in H; by simplify_eq.
Qed.

Lemma action_phase_body_requests attempt context state w step state' w' :
  action_phase_body repr self attempt context state w = Some (step, state', w') →
  (requests w' = requests w ∧ ∃ result, step = Return result)
  ∨ ∃ payload,
      payload_builder self "action" context = Some payload
      ∧ requests w' = requests w ++ [payload]
      ∧ ∀ next, step = Continue next → next = action_retry_context context.
Proof.
  unfold action_phase_body, llm_send, log_context. intros H.
  destruct (compact_before_call repr self w) as [w1|] eqn:Hcompact;
    cbn [mbind option_bind] in H; [|done].
  pose proof (compact_before_call_requests w w1 Hcompact) as He.
  destruct (truthy (payload_builder self "action" context)) eqn:Hp;
    cbn [negb] in H.
  2:{ simplify_eq. left. eauto. }
  apply truthy_inv in Hp as (payload & Hp & _). rewrite Hp in H.
  cbn [default from_option id] in H. right. exists payload. split; [done|].
  destruct (truthy (mjoin (head (llm_script w1)))); cbn [negb] in H.
  2:{ simplify_eq. split; [|done]. cbn. by rewrite He. }
  destruct (truthy (parse_suggested_command _)).
  - destruct (_handle_command_suggestion _ _ _ _) as [[status st1] w2] eqn:Hgate.
    simplify_eq. apply command_gate_requests in Hgate.
    split; [|done]. rewrite Hgate. cbn. by rewrite He.
  - simplify_eq. split.
    + cbn. by rewrite He.
    + by intros ? [= <-].
Qed.

Lemma action_phase_loop_requests fuel attempt context state w status state' w' :
  action_phase_loop repr self fuel attempt context state w
  = Some (status, state', w') →
  ∃ sent,
    requests w' = requests w ++ sent
    ∧ ∀ k payload,
        sent !! k = Some payload →
        payload_builder self "action" (Nat.iter k action_retry_context context)
        = Some payload.
Proof.
  revert attempt context state w.
  induction fuel as [|fuel IH]; intros attempt context state w; [done|].
  cbn [action_phase_loop].
  destruct (action_phase_body repr self (S attempt) context state w)
    as [[[step st1] w1]|] eqn:Hbody; [|done].
  apply action_phase_body_requests in Hbody
    as [[Hw [result1 ->]]|(payload & Hp & Hw & Hnext)].
  - intros [= <- <- <-]. exists []. by rewrite app_nil_r.
  - destruct step as [result1|next].
    + intros [= <- <- <-]. exists [payload]. split; [done|].
      intros [|k] p; [by intros [= <-]|done].
    + rewrite (Hnext next eq_refl). intros Hloop.
      apply IH in Hloop as (sent & Hr & Hsent).
      exists (payload :: sent). rewrite Hr, Hw, <- app_assoc. split; [done|].
      intros [|k] p; [by intros [= <-]|]. cbn [lookup list_lookup]. intros Hk.
      rewrite Nat.iter_succ_r. by apply Hsent.
Qed.

(** X19: The requests of an action phase are appended to the trace in order,
    and the k-th of them (from 0) is the action payload for the phase's
    context followed by k copies of the correction note: each retry extends
    the context of the previous attempt. *)
Theorem action_retries_accumulate_notes fuel context state w status state' w' :
  _execute_action_phase repr self fuel context state w = Some (status, state', w') →
  ∃ sent,
    requests w' = requests w ++ sent
    ∧ ∀ k payload,
        sent !! k = Some payload →
        payload_builder self "action" (Nat.iter k action_retry_context context)
        = Some payload.
Proof. apply action_phase_loop_requests. Qed.
End Retries.

(** Witness of X20. *)
Lemma evaluation_retries_repeat_one_request_witness :
  ∃ result state' w' sent,
    _execute_evaluation_phase Examples.short_repr (Examples.demo_handler true) 3
      "evaluate the listing" Scenarios.planned_state "list the files"
      (Examples.demo_world [Some "fine"; Some "good"; Some Scenarios.complete_response]
         "y")
    = Some (result, state', w')
    ∧ length (requests w') = 3
    ∧ requests w' = [] ++ sent
    ∧ Forall (λ payload,
                Examples.echo_payload "evaluate"
                  (evaluation_retry_context "evaluate the listing")
                = Some payload)
             (tail sent).
Proof.
  eexists _, _, _.
  match goal with
  | |- ∃ sent, ?run ∧ _ => assert (H : run) by (vm_compute; reflexivity)
  end.
  destruct (evaluation_retries_repeat_one_request _ _ _ _ _ _ _ _ _ _ H)
    as (sent & Hr & _ & Hsame).
  exists sent. split_and!; [exact H|reflexivity|exact Hr|exact Hsame].
Defined.

(** Witness of X19. *)
Lemma action_retries_accumulate_notes_witness :
  ∃ status state' w' sent,
    _execute_action_phase Examples.short_repr (Examples.demo_handler true) 2
      "list the files" Scenarios.planned_state
      (Examples.demo_world [Some "I would list them."; Some Scenarios.command_response]
         "y")
    = Some (status, state', w')
    ∧ length (requests w') = 2
    ∧ requests w' = [] ++ sent
    ∧ ∀ k payload,
        sent !! k = Some payload →
        Examples.echo_payload "action"
          (Nat.iter k action_retry_context "list the files")
        = Some payload.
Proof.
  eexists _, _, _.
  match goal with
  | |- ∃ sent, ?run ∧ _ => assert (H : run) by (vm_compute; reflexivity)
  end.
  destruct (action_retries_accumulate_notes _ _ _ _ _ _ _ _ _ H) as (sent & Hr & Hsent).
  exists sent. split_and!; [exact H|reflexivity|exact Hr|exact Hsent].
Defined.

(** ** After the evaluation *)

Section Rounds.
Context (repr : json → string) (self : TaskHandler).

(** *** What the evaluator's verdict means for the next round *)



End Rounds.


(** ** Counting commands and rounds *)

Section Counting.
Context (repr : json → string) (self : TaskHandler).

Lemma plan_phase_body_iteration attempt context state w step state' w' :
  plan_phase_body repr self attempt context state w = Some (step, state', w') →
  iteration state' = iteration state.
Proof.
  unfold plan_phase_body, llm_send, log_context, Handler.input. intros H.
  repeat match type of H with
         | context [compact_before_call ?r ?s ?w] =>
             destruct (compact_before_call r s w) as [?|];
             cbn [mbind option_bind] in H; [|done]
         | context [truthy ?o] => destruct (truthy o); cbn [negb] in H
         | context [startswith ?a ?b] => destruct (startswith a b)
         | context [allow_clarifying_questions ?s] =>
             destruct (allow_clarifying_questions s)
         | context [nonempty ?a && nonempty ?b] =>
             destruct (nonempty a && nonempty b)
         end; by simplify_eq.
Qed.

Lemma plan_phase_loop_iteration fuel attempt context state w status state' w' :
  plan_phase_loop repr self fuel attempt context state w = Some (status, state', w') →
  iteration state' = iteration state.
Proof.
  revert attempt context state w.
  induction fuel as [|fuel IH]; intros attempt context state w; [done|].
  cbn [plan_phase_loop].
  destruct (plan_phase_body repr self (S attempt) context state w)
    as [[[step st1] w1]|] eqn:Hbody; [|done].
  apply plan_phase_body_iteration in Hbody.
  destruct step as [status1|context1].
  - by intros [= <- <- <-].
  - intros Hloop. apply IH in Hloop. congruence.
Qed.

Lemma evaluation_decision_iteration decision_type message state original_prompt w
    result state' w' :
  _process_evaluation_decision self decision_type message state original_prompt w
  = (result, state', w') →
  iteration state' = iteration state.
Proof.
  unfold _process_evaluation_decision, Handler.input. intros H.
  repeat match type of H with
         | context [String.eqb ?a ?b] => destruct (String.eqb a b)
         | context [allow_clarifying_questions ?s] =>
             destruct (allow_clarifying_questions s)
         end; by simplify_eq.
Qed.

Lemma evaluation_phase_body_iteration attempt context current_context state
    original_prompt w step state' w' :
  evaluation_phase_body repr self attempt context current_context state
    original_prompt w = Some (step, state', w') →
  iteration state' = iteration state.
Proof.
  unfold evaluation_phase_body, llm_send, log_context. intros H.
  destruct (compact_before_call repr self w) as [w1|];
    cbn [mbind option_bind] in H; [|done].
  destruct (truthy (payload_builder self "evaluate" current_context));
    cbn [negb] in H; [|by simplify_eq].
  destruct (truthy (mjoin (head (llm_script w1)))); cbn [negb] in H;
    [|by simplify_eq].
  destruct (nonempty (parse_llm_decision _)).
  - destruct (extract_decision_type_and_message _) as [decision_type message].
    destruct (_process_evaluation_decision _ _ _ _ _ _) as [[result st1] w2] eqn:Hd.
    simplify_eq. by apply evaluation_decision_iteration in Hd.
  - by simplify_eq.
Qed.

Lemma evaluation_phase_loop_iteration fuel attempt context current_context state
    original_prompt w result state' w' :
  evaluation_phase_loop repr self fuel attempt context current_context state
    original_prompt w = Some (result, state', w') →
  iteration state' = iteration state.
Proof.
  revert attempt current_context state w.
  induction fuel as [|fuel IH]; intros attempt current_context state w; [done|].
  cbn [evaluation_phase_loop].
  destruct (evaluation_phase_body repr self (S attempt) context current_context
              state original_prompt w) as [[[step st1] w1]|] eqn:Hbody; [|done].
  apply evaluation_phase_body_iteration in Hbody.
  destruct step as [result1|next].
  - by intros [= <- <- <-].
  - intros Hloop. apply IH in Hloop. congruence.
Qed.

(** What one suggested command can do: nothing, or run exactly itself. *)
Lemma command_gate_effect command state w status state' w' :
  _handle_command_suggestion self command state w = (status, state', w') →
  iteration state' = iteration state
  ∧ status ≠ COMPLETED ∧ status ≠ FAILED
  ∧ (executed w' = executed w
     ∨ executed w' = executed w ++ [command]
       ∧ status = IN_PROGRESS
       ∧ last_action_taken state' = "Executed command: " +:+ command
       ∧ command ≠ "report_task_completion").
Proof.
  unfold _handle_command_suggestion, run_if_allowed, prompt_for_permission,
    Handler.input, record_execution. intros H.
  destruct (String.eqb command "report_task_completion") eqn:Hsentinel.
  { simplify_eq. split_and!; auto. }
  apply String.eqb_neq in Hsentinel.
  repeat match type of H with
         | context [String.eqb ?a ?b] => destruct (String.eqb a b)
         | context [check_command_permission ?s ?c ?m] =>
             destruct (check_command_permission s c m) as [[] ?]
         | context [permission_answers ?w ?n] =>
             destruct (permission_answers w n) as [? ?]
         | context [Z.eqb ?a ?b] => destruct (Z.eqb a b)
         | context [execute ?s ?l ?c] => destruct (execute s l c) as [? ?]
         end;
    cbn [negb orb andb] in H; simplify_eq; cbn; split_and!; auto.
Qed.

Lemma action_phase_body_effect attempt context state w step state' w' :
  action_phase_body repr self attempt context state w = Some (step, state', w') →
  iteration state' = iteration state
  ∧ (∀ next, step = Continue next → executed w' = executed w)
  ∧ ∀ status,
      step = Return status →
      status ≠ COMPLETED
      ∧ (executed w' = executed w
         ∨ ∃ command,
             executed w' = executed w ++ [command]
             ∧ status = IN_PROGRESS
             ∧ last_action_taken state' = "Executed command: " +:+ command
             ∧ command ≠ "report_task_completion").
Proof.
  unfold action_phase_body, llm_send, log_context. intros H.
  destruct (compact_before_call repr self w) as [w1|] eqn:Hcompact;
    cbn [mbind option_bind] in H; [|done].
  pose proof (compact_before_call_executed repr self w w1 Hcompact) as He.
  destruct (truthy (payload_builder self "action" context)); cbn [negb] in H.
  2:{ simplify_eq. split_and!; [done|done|]. intros ? [= <-]. auto. }
  destruct (truthy (mjoin (head (llm_script w1)))); cbn [negb] in H.
  2:{ simplify_eq. split_and!; [done|done|]. intros ? [= <-]. auto. }
  destruct (truthy (parse_suggested_command _)).
  - destruct (_handle_command_suggestion _ _ _ _) as [[status st1] w2] eqn:Hgate.
    simplify_eq. apply command_gate_effect in Hgate as (Hi & Hc & _ & Hrun).
    cbn in Hi, Hrun. rewrite He in Hrun.
    split_and!; [done|done|]. intros ? [= <-]. split; [done|].
    destruct Hrun as [?|?]; eauto.
  - simplify_eq. split_and!; [done| |done]. by intros ? _.
Qed.

Lemma action_phase_loop_effect fuel attempt context state w status state' w' :
  action_phase_loop repr self fuel attempt context state w
  = Some (status, state', w') →
  status ≠ COMPLETED
  ∧ iteration state' = iteration state
  ∧ (executed w' = executed w
     ∨ ∃ command,
         executed w' = executed w ++ [command]
         ∧ status = IN_PROGRESS
         ∧ last_action_taken state' = "Executed command: " +:+ command
         ∧ command ≠ "report_task_completion").
Proof.
  revert attempt context state w.
  induction fuel as [|fuel IH]; intros attempt context state w; [done|].
  cbn [action_phase_loop].
  destruct (action_phase_body repr self (S attempt) context state w)
    as [[[step st1] w1]|] eqn:Hbody; [|done].
  apply action_phase_body_effect in Hbody as (Hi & Hcontinue & Hreturn).
  destruct step as [status1|next].
  - intros [= <- <- <-]. destruct (Hreturn status1 eq_refl). by split_and!.
  - intros Hloop. apply IH in Hloop as (? & Hi' & Hrun).
    rewrite (Hcontinue next eq_refl), Hi in *. by split_and!.
Qed.

(** X18: An action phase never returns COMPLETED, leaves the iteration counter
    alone, and runs at most one command however often it retries; if it ran
    one, that command is not the completion signal, the status is IN_PROGRESS
    and last_action_taken is Executed command: followed by the command. *)
Theorem action_phase_runs_at_most_one_command fuel context state w status state' w' :
  _execute_action_phase repr self fuel context state w = Some (status, state', w') →
  status ≠ COMPLETED
  ∧ iteration state' = iteration state
  ∧ (executed w' = executed w
     ∨ ∃ command,
         executed w' = executed w ++ [command]
         ∧ status = IN_PROGRESS
         ∧ last_action_taken state' = "Executed command: " +:+ command
         ∧ command ≠ "report_task_completion").
Proof. apply action_phase_loop_effect. Qed.

Lemma build_action_context_iteration prompt state :
  iteration (_build_action_context prompt state).2 = iteration state.
Proof. unfold _build_action_context. by destruct (nonempty (user_clarification state)). Qed.

Lemma build_evaluation_context_iteration prompt state :
  iteration (_build_evaluation_context prompt state).2 = iteration state.
Proof.
  unfold _build_evaluation_context. by destruct (nonempty (user_clarification state)).
Qed.

Lemma handle_task_round_count fuel prompt context state w step state' w' :
  handle_task_round repr self fuel prompt context state w = Some (step, state', w') →
  iteration state' = (iteration state + 1)%Z
  ∧ length (executed w') ≤ S (length (executed w)).
Proof.
  unfold handle_task_round. intros H.
  set (state0 := set_iteration (iteration state + 1) state) in H.
  assert (iteration state0 = (iteration state + 1)%Z) as Hi0 by done.
  clearbody state0.
  assert (∃ st1 w1 ctx1,
            iteration st1 = iteration state0 ∧ executed w1 = executed w
            ∧ ((state' = st1 ∧ w' = w1)
               ∨ ('(status, state, w) ←
                    _execute_action_phase repr self fuel ctx1 st1 w1;
                  if negb (status_eqb status IN_PROGRESS)
                  then Some (Return status, state, w)
                  else
                    let '(eval_context, state) :=
                      _build_evaluation_context prompt state in
                    '(result, state, w) ←
                      _execute_evaluation_phase repr self fuel eval_context state
                        prompt w;
                    let '(status, current_context) := result in
                    if status_eqb status IN_PROGRESS
                    then Some (Continue current_context, state, w)
                    else Some (Return status, state, w))
                 = Some (step, state', w')))
    as (st1 & w1 & ctx1 & Hi1 & He1 & Hrest).
  { destruct (needs_new_plan state0).
    - destruct (_execute_plan_phase repr self fuel context state0 w)
        as [[[status1 st1] w1]|] eqn:Hplan; cbn [mbind option_bind] in H; [|done].
      pose proof (plan_phase_loop_iteration _ _ _ _ _ _ _ _ Hplan) as Hi.
      apply plan_phase_loop_range in Hplan as [He _].
      destruct (negb (status_eqb status1 IN_PROGRESS)); cbn [mbind option_bind] in H.
      + exists st1, w1, context. split_and!; [done..|]. left. by simplify_eq.
      + pose proof (build_action_context_iteration prompt st1) as Hb.
        destruct (_build_action_context prompt st1) as [ctx1 st2].
        cbn [snd] in Hb. cbn [mbind option_bind] in H.
        exists st2, w1, ctx1. split; [congruence|]. split; [done|].
        destruct (negb (nonempty (current_instruction st2))); [|by right].
        left. by simplify_eq.
    - cbn [mbind option_bind] in H. exists state0, w, context.
      split; [done|]. split; [done|].
      destruct (negb (nonempty (current_instruction state0))); [|by right].
      left. by simplify_eq. }
  destruct Hrest as [[-> ->]|Haction].
  { split; [congruence|]. rewrite He1. lia. }
  destruct (_execute_action_phase repr self fuel ctx1 st1 w1)
    as [[[status2 st2] w2]|] eqn:Hact; cbn [mbind option_bind] in Haction; [|done].
  apply action_phase_loop_effect in Hact as (_ & Hi2 & Hrun).
  assert (length (executed w2) ≤ S (length (executed w))) as Hlen.
  { destruct Hrun as [->|(command & -> & _)]; rewrite He1; [lia|].
    rewrite length_app. cbn. lia. }
  destruct (negb (status_eqb status2 IN_PROGRESS)).
  { simplify_eq. split; [congruence|done]. }
  pose proof (build_evaluation_context_iteration prompt st2) as Hb.
  destruct (_build_evaluation_context prompt st2) as [ectx st3]. cbn [snd] in Hb.
  destruct (_execute_evaluation_phase repr self fuel ectx st3 prompt w2)
    as [[[[status3 ctx3] st4] w3]|] eqn:Heval;
    cbn [mbind option_bind] in Haction; [|done].
  pose proof (evaluation_phase_loop_iteration _ _ _ _ _ _ _ _ _ _ Heval) as Hi4.
  apply evaluation_phase_loop_range in Heval as (He3 & _).
  destruct (status_eqb status3 IN_PROGRESS); simplify_eq;
    (split; [congruence|by rewrite He3]).
Qed.

(** X24: The task loop increments iteration once per round and runs at most
    one command per round: when it ends, iteration has grown, and the number
    of commands executed has grown by at most the number of rounds. *)
Theorem commands_bounded_by_rounds fuel prompt context state w status state' w' :
  handle_task_loop repr self fuel prompt context state w
  = Some (status, state', w') →
  (iteration state < iteration state')%Z
  ∧ (Z.of_nat (length (executed w'))
     ≤ Z.of_nat (length (executed w)) + (iteration state' - iteration state))%Z.
Proof.
  revert context state w. induction fuel as [|fuel IH]; intros context state w; [done|].
  cbn [handle_task_loop].
  destruct (handle_task_round repr self fuel prompt context state w)
    as [[[step st1] w1]|] eqn:Hround; [|done].
  apply handle_task_round_count in Hround as [Hi Hlen].
  destruct step as [status1|context1].
  - intros [= <- <- <-]. lia.
  - intros Hloop. apply IH in Hloop. lia.
Qed.
End Counting.

(** Witness of X24. *)
Lemma commands_bounded_by_rounds_witness :
  ∃ status state' w',
    handle_task_loop Examples.short_repr (Examples.demo_handler true) 3
      "list the files" "list the files" initial_state
      (Examples.demo_world Scenarios.full_run "y")
    = Some (status, state', w')
    ∧ iteration state' = 1%Z
    ∧ (Z.of_nat (length (executed w')) ≤ 0 + (iteration state' - 0))%Z.
Proof.
  eexists _, _, _.
  match goal with
  | |- ?run ∧ _ => assert (H : run) by (vm_compute; reflexivity)
  end.
  split_and!; [exact H|reflexivity|].
  exact (proj2 (commands_bounded_by_rounds _ _ _ _ _ _ _ _ _ _ H)).
Defined.

(** Witness of X18. *)
Lemma action_phase_runs_at_most_one_command_witness :
  ∃ state' w',
    _execute_action_phase Examples.short_repr (Examples.demo_handler true) 2
      "list the files" Scenarios.planned_state
      (Examples.demo_world [Some "I would list them."; Some Scenarios.command_response]
         "y")
    = Some (IN_PROGRESS, state', w')
    ∧ executed w' = ["ls -la"]
    ∧ last_action_taken state' = "Executed command: ls -la".
Proof.
  eexists _, _.
  match goal with
  | |- ?run ∧ _ => assert (H : run) by (vm_compute; reflexivity)
  end.
  split; [exact H|].
  destruct (action_phase_runs_at_most_one_command _ _ _ _ _ _ _ _ _ H)
    as (_ & _ & [Hnone|(command & He & _ & Hlast & _)]).
  - discriminate Hnone.
  - split; reflexivity.
Defined.

(** ** The plan phase *)

Lemma strip_head s :
  strip s ≠ "" → ∃ a r, strip s = String a r ∧ isspace a = false.
Proof.
  unfold strip. destruct (lstrip_head s) as [->|(a & r & -> & Ha)]; [done|].
  intros _. rewrite (rstrip_cons_nonspace a r Ha). eauto.
Qed.

Lemma linebreak_isspace a : is_linebreak a = true → isspace a = true.
Proof. destruct a as [[] [] [] [] [] [] [] []]; vm_compute; done. Qed.

Lemma splitlines_head a r :
  is_linebreak a = false → ∃ line more, splitlines (String a r) = String a line :: more.
Proof.
  intros Ha. cbn [splitlines]. rewrite Ha. destruct (splitlines r); eauto.
Qed.

Lemma plan_lines_nonempty plan :
  plan ≠ "" → strip plan = plan →
  filter (λ line, nonempty line) (strip <$> splitlines plan) ≠ [].
Proof.
  intros Hne Hstrip. rewrite <- Hstrip in Hne.
  destruct (strip_head plan Hne) as (a & r & Hs & Ha). rewrite Hstrip in Hs. subst plan.
  destruct (splitlines_head a r) as (line & more & ->).
  { destruct (is_linebreak a) eqn:Hl; [|done].
    apply linebreak_isspace in Hl. congruence. }
  cbn [fmap list_fmap]. unfold strip at 1. cbn [lstrip]. rewrite Ha.
  rewrite (rstrip_cons_nonspace a line Ha). by rewrite filter_cons_True.
Qed.

Lemma plan_lines_stripped plan :
  Forall (λ line, line ≠ "" ∧ strip line = line)
         (filter (λ line, nonempty line) (strip <$> splitlines plan)).
Proof.
  apply Forall_forall. intros line [Hne (raw & -> & _)%list_elem_of_fmap]%list_elem_of_filter.
  split; [|apply strip_idempotent].
  unfold nonempty in Hne. apply Is_true_true, negb_true_iff in Hne.
  by apply String.eqb_neq.
Qed.

Section PlanResult.
Context (repr : json → string) (self : TaskHandler).

Lemma plan_phase_body_result attempt context state w step state' w' :
  plan_phase_body repr self attempt context state w = Some (step, state', w') →
  keyboard w' = keyboard w
  ∧ (∀ next, step = Continue next → lines_read w' = lines_read w)
  ∧ (step = Return IN_PROGRESS →
     allow_clarifying_questions self = true
     ∧ last_eval_decision state' = "PLANNER_CLARIFY"
     ∧ current_plan state' = ""
     ∧ user_clarification state' = keyboard w (lines_read w)
     ∧ lines_read w' = S (lines_read w)
     ∨ plan_accepted state' ∧ lines_read w' = lines_read w).
Proof.
  unfold plan_phase_body, llm_send, log_context, Handler.input. intros H.
  destruct (compact_before_call repr self w) as [w1|] eqn:Hcompact;
    cbn [mbind option_bind] in H; [|done].
  destruct (compact_before_call_inv _ _ _ _ Hcompact) as [d ->].
  destruct (truthy (payload_builder self "plan" context)); cbn [negb] in H;
    [|by simplify_eq].
  destruct (truthy (mjoin (head _))); cbn [negb] in H; [|by simplify_eq].
  destruct (startswith _ _).
  { destruct (allow_clarifying_questions self) eqn:Hallow; simplify_eq; cbn.
    - split_and!; [done|done|]. intros _. left. by split_and!.
    - by split_and!. }
  match type of H with
  | context [nonempty ?a && nonempty ?b] =>
      destruct (nonempty a) eqn:Hplan; destruct (nonempty b) eqn:Hinstr
  end; cbn [andb] in H; simplify_eq; cbn; try by split_and!.
  split_and!; [done|done|]. intros _. right. split; [|done].
  unfold nonempty in Hplan, Hinstr. cbn in Hplan, Hinstr.
  apply negb_true_iff, String.eqb_neq in Hplan, Hinstr.
  unfold plan_accepted. cbn.
  assert (∀ tag s, strip (extract_tag tag s) = extract_tag tag s) as Hstripped.
  { intros tag s. unfold extract_tag. destruct (re_search_tag tag s); [|done].
    apply strip_idempotent. }
  split_and!; try done.
  - apply Hstripped.
  - apply Hstripped.
  - apply plan_lines_nonempty; [done|apply Hstripped].
  - apply plan_lines_stripped.
Qed.

(** X17: A plan phase that returns IN_PROGRESS has either asked the user
    (questions allowed, one line read into user_clarification,
    last_eval_decision set to PLANNER_CLARIFY, plan cleared) or accepted a
    plan: plan and instruction non-empty and stripped, step_index 0,
    clarification and last decision cleared, and plan_array non-empty with
    every line non-empty and stripped; in that case no line was read. *)
Theorem plan_phase_outcome fuel context state w state' w' :
  _execute_plan_phase repr self fuel context state w
  = Some (IN_PROGRESS, state', w') →
  allow_clarifying_questions self = true
  ∧ last_eval_decision state' = "PLANNER_CLARIFY"
  ∧ current_plan state' = ""
  ∧ user_clarification state' = keyboard w (lines_read w)
  ∧ lines_read w' = S (lines_read w)
  ∨ plan_accepted state' ∧ lines_read w' = lines_read w.
Proof.
  unfold _execute_plan_phase. generalize 0.
  revert context state w. induction fuel as [|fuel IH]; intros context state w attempt;
    [done|].
  cbn [plan_phase_loop].
  destruct (plan_phase_body repr self (S attempt) context state w)
    as [[[step st1] w1]|] eqn:Hbody; [|done].
  apply plan_phase_body_result in Hbody as (Hk & Hcontinue & Hreturn).
  destruct step as [status1|next].
  - intros [= -> <- <-]. by apply Hreturn.
  - intros Hloop. apply IH in Hloop. by rewrite Hk, (Hcontinue next eq_refl) in Hloop.
Qed.
End PlanResult.

(** Witness of X17. *)
Lemma plan_phase_outcome_witness :
  ∃ state' w',
    _execute_plan_phase Examples.short_repr (Examples.demo_handler true) 2
      "list the files" initial_state
      (Examples.demo_world [Some Examples.checklist_only; Some Scenarios.plan_response]
         "y")
    = Some (IN_PROGRESS, state', w')
    ∧ plan_array state' = ["1. list the files"; "2. report"]
    ∧ length (requests w') = 2
    ∧ (allow_clarifying_questions (Examples.demo_handler true) = true
       ∧ last_eval_decision state' = "PLANNER_CLARIFY"
       ∧ current_plan state' = ""
       ∧ user_clarification state' = "y"
       ∧ lines_read w' = 1
       ∨ plan_accepted state' ∧ lines_read w' = 0).
Proof.
  eexists _, _.
  match goal with
  | |- ?run ∧ _ => assert (H : run) by (vm_compute; reflexivity)
  end.
  split_and!; [exact H|reflexivity|reflexivity|].
  exact (plan_phase_outcome _ _ _ _ _ _ _ _ H).
Defined.

(** ** The executor *)

(** *** Stripped text *)

Lemma append_cons a s t : String a s +:+ t = String a (s +:+ t).
Proof. done. Qed.

Lemma append_nil_l t : "" +:+ t = t.
Proof. done. Qed.

Lemma append_empty_inv s t : s +:+ t = "" → s = "" ∧ t = "".
Proof. destruct s; [done|]. by rewrite append_cons. Qed.

Lemma stripped_head s :
  s ≠ "" → strip s = s → ∃ a r, s = String a r ∧ isspace a = false ∧ rstrip s = s.
Proof.
  intros Hne Hs. rewrite <- Hs in Hne.
  destruct (strip_head s Hne) as (a & r & Ha & Hspace).
  rewrite Hs in Ha. subst s. exists a, r. split_and!; [done..|].
  unfold strip in Hs. cbn [lstrip] in Hs. by rewrite Hspace in Hs.
Qed.

Lemma rstrip_append s t : t ≠ "" → rstrip t = t → rstrip (s +:+ t) = s +:+ t.
Proof.
  intros Hne Ht. induction s as [|a s IH]; [done|].
  rewrite append_cons, rstrip_cons_nonempty; [by rewrite IH|].
  rewrite IH. intros [_ ?]%append_empty_inv. done.
Qed.

Lemma strip_append s t :
  s ≠ "" → strip s = s → t ≠ "" → strip t = t → strip (s +:+ t) = s +:+ t.
Proof.
  intros Hs Hss Ht Hst.
  destruct (stripped_head s Hs Hss) as (a & r & -> & Ha & _).
  destruct (stripped_head t Ht Hst) as (_ & _ & _ & _ & Hrt).
  unfold strip. rewrite append_cons. cbn [lstrip]. rewrite Ha.
  rewrite <- append_cons. by apply rstrip_append.
Qed.

Lemma strip_join_nl s t :
  s ≠ "" → strip s = s → t ≠ "" → strip t = t →
  strip (s +:+ nl +:+ t) = s +:+ nl +:+ t.
Proof.
  intros Hs Hss Ht Hst.
  destruct (stripped_head s Hs Hss) as (a & r & -> & Ha & _).
  destruct (stripped_head t Ht Hst) as (_ & _ & _ & _ & Hrt).
  unfold strip. rewrite append_cons. cbn [lstrip]. rewrite Ha.
  rewrite <- append_cons.
  change (String a r +:+ nl +:+ t) with (String a r +:+ (nl +:+ t)).
  rewrite <- append_assoc. by apply rstrip_append.
Qed.

Lemma nonempty_true s : nonempty s = true ↔ s ≠ "".
Proof.
  unfold nonempty. rewrite negb_true_iff. apply String.eqb_neq.
Qed.

Lemma nonempty_false s : nonempty s = false ↔ s = "".
Proof.
  unfold nonempty. rewrite negb_false_iff. apply String.eqb_eq.
Qed.

(** X27: CommandResult.output is already stripped; it is empty exactly when
    both stdout and stderr are blank, and when one stream is blank it is the
    other stream stripped. *)
Theorem command_output_is_stripped (result : Executor.CommandResult) :
  strip (Executor.output result) = Executor.output result
  ∧ (Executor.output result = ""
     ↔ strip (Executor.stdout result) = "" ∧ strip (Executor.stderr result) = "")
  ∧ (strip (Executor.stderr result) = "" →
     Executor.output result = strip (Executor.stdout result))
  ∧ (strip (Executor.stdout result) = "" →
     Executor.output result = strip (Executor.stderr result)).
Proof.
  unfold Executor.output.
  destruct (nonempty (strip (Executor.stdout result))) eqn:Hout;
    destruct (nonempty (strip (Executor.stderr result))) eqn:Herr;
    cbn [app join];
    first [apply nonempty_true in Hout|apply nonempty_false in Hout];
    first [apply nonempty_true in Herr|apply nonempty_false in Herr].
  - split_and!; try done.
    + apply strip_join_nl; [done|apply strip_idempotent|done|apply strip_idempotent].
    + split; [|by intros [? _]].
      intros [? _]%append_empty_inv. done.
  - rewrite Herr. split_and!; try done; [apply strip_idempotent|].
    split; [done|by intros [? _]].
  - rewrite Hout. split_and!; try done; [apply strip_idempotent|].
    split; [done|by intros [_ ?]].
  - rewrite Hout, Herr. by split_and!.
Qed.

(** *** The executor *)

Lemma execute_helpful self command timeout ran out :
  gives_help (Executor.run self ran command timeout) out →
  Executor.execute self command (Some timeout) ran
  = ({| Executor.command := command; Executor.exit_code := 0;
        Executor.stdout := out;
        Executor.stderr :=
          match Executor.run self ran command timeout with
          | Executor.CompletedProcess _ _ err => err
          | _ => ""
          end;
        Executor.error_message := "" |},
     ran ++ [command])
  ∧ Executor.success (Executor.execute self command (Some timeout) ran).1
    && nonempty (Executor.stdout (Executor.execute self command (Some timeout) ran).1)
    = true.
Proof.
  intros (err & Hrun & Hout). unfold Executor.execute.
  cbn [default from_option id]. rewrite Hrun. split; [done|].
  cbn. by apply nonempty_true.
Qed.

Lemma execute_unhelpful self command timeout ran :
  (∀ out, ¬ gives_help (Executor.run self ran command timeout) out) →
  Executor.success (Executor.execute self command (Some timeout) ran).1
  && nonempty (Executor.stdout (Executor.execute self command (Some timeout) ran).1)
  = false.
Proof.
  intros Hno. apply not_true_is_false. intros [Hs Hout]%andb_true_iff.
  revert Hs Hout. unfold Executor.execute, Executor.success.
  cbn [fst default from_option id].
  destruct (Executor.run self ran command timeout) as [returncode out err| |e] eqn:Hrun;
    cbn; [|done..].
  rewrite andb_true_r. intros ->%Z.eqb_eq Hout%nonempty_true.
  apply (Hno out). by exists err.
Qed.

Lemma execute_ran self command timeout ran :
  (Executor.execute self command timeout ran).2 = ran ++ [command].
Proof. done. Qed.

(** X28: get_command_help runs the command with --help and, with the same
    timeout (at most 10 seconds when none is given), with -h only if the
    first run did not exit 0 with non-empty stdout; its result is fixed by
    the two runs: True with the stripped stdout of the first run that
    exited 0 with non-empty stdout, after one or two commands, and False
    with an empty text, after both commands, when neither run did. *)
Theorem command_help_tries_both_flags self name timeout ran :
  let limit := default (Z.min (Executor.default_timeout self) 10) timeout in
  let first := Executor.run self ran (name +:+ " --help") limit in
  let second :=
    Executor.run self (ran ++ [name +:+ " --help"]) (name +:+ " -h") limit in
  (timeout = None → (limit ≤ 10)%Z)
  ∧ (∀ out,
       gives_help first out →
       Executor.get_command_help self name timeout ran
       = ((true, strip out), ran ++ [name +:+ " --help"]))
  ∧ ((∀ out, ¬ gives_help first out) →
     (∀ out,
        gives_help second out →
        Executor.get_command_help self name timeout ran
        = ((true, strip out), ran ++ [name +:+ " --help"; name +:+ " -h"]))
     ∧ ((∀ out, ¬ gives_help second out) →
        Executor.get_command_help self name timeout ran
        = ((false, ""), ran ++ [name +:+ " --help"; name +:+ " -h"]))).
Proof.
  intros limit first second. subst first second.
  split; [intros ->; subst limit; cbn; lia|].
  unfold Executor.get_command_help.
  change (default (Z.min (Executor.default_timeout self) 10) timeout) with limit.
  clearbody limit. cbn [Executor.try_help_flags].
  change (" " +:+ "--help") with " --help". change (" " +:+ "-h") with " -h".
  split.
  - intros out Hfirst.
    destruct (execute_helpful self _ limit ran out Hfirst) as [Hexec Hgood].
    destruct (Executor.execute self (name +:+ " --help") (Some limit) ran)
      as [result ran1] eqn:Hrun.
    cbn [fst] in Hgood |- *. rewrite Hgood. by simplify_eq.
  - intros Hfirst.
    pose proof (execute_unhelpful self _ limit ran Hfirst) as Hbad.
    pose proof (execute_ran self (name +:+ " --help") (Some limit) ran) as Hran.
    destruct (Executor.execute self (name +:+ " --help") (Some limit) ran)
      as [result ran1] eqn:Hrun.
    cbn [fst snd] in Hbad, Hran |- *. rewrite Hbad. subst ran1. split.
    + intros out Hsecond.
      destruct (execute_helpful self _ limit _ out Hsecond) as [Hexec Hgood].
      destruct (Executor.execute self (name +:+ " -h") (Some limit) _)
        as [result2 ran2] eqn:Hrun2.
      cbn [fst] in Hgood |- *. rewrite Hgood. simplify_eq. by rewrite <- app_assoc.
    + intros Hsecond.
      pose proof (execute_unhelpful self _ limit _ Hsecond) as Hbad2.
      pose proof (execute_ran self (name +:+ " -h") (Some limit)
                    (ran ++ [name +:+ " --help"])) as Hran2.
      destruct (Executor.execute self (name +:+ " -h") (Some limit) _)
        as [result2 ran2] eqn:Hrun2.
      cbn [fst snd] in Hbad2, Hran2 |- *. rewrite Hbad2. subst ran2.
      by rewrite <- app_assoc.
Qed.

(** Witness of X28. *)
Lemma command_help_tries_both_flags_witness :
  Executor.get_command_help Scenarios.help_executor "grep" None []
  = ((true, "usage: grep [OPTION]... PATTERNS [FILE]..."),
     ["grep --help"; "grep -h"]).
Proof.
  destruct (command_help_tries_both_flags Scenarios.help_executor "grep" None [])
    as (_ & _ & Hsecond).
  destruct Hsecond as [Hfound _].
  - intros out (err & Hrun & _). discriminate Hrun.
  - apply (Hfound ("usage: grep [OPTION]... PATTERNS [FILE]..." +:+ nl)).
    exists "". split; [reflexivity|discriminate].
Defined.

(** ** The session and the investigation summary *)

(** *** The interactive session *)

Section SessionWindow.
Context {Time : Type}.

Lemma add_call_history (self : Session.InteractiveSession Time) call :
  length (Session.conversation_history self) ≤ 10 →
  Session.conversation_history (add_call self call)
  = list.drop (length (Session.conversation_history self ++ [recorded call]) - 10)
         (Session.conversation_history self ++ [recorded call]).
Proof.
  destruct call as [[[[now user_prompt] ai_response] command_executed] success].
  intros Hlen. unfold add_call, Session.add_interaction, recorded.
  cbn [Session.conversation_history].
  set (history := Session.conversation_history self ++ _).
  assert (length history = S (length (Session.conversation_history self))) as Hh
    by (subst history; rewrite length_app; cbn; lia).
  destruct (10 <? length history) eqn:Hfull.
  - apply Nat.ltb_lt in Hfull.
    replace (length history - 10) with 1 by lia. by destruct history.
  - apply Nat.ltb_ge in Hfull.
    replace (length history - 10) with 0 by lia. done.
Qed.

Lemma add_calls_history calls (self : Session.InteractiveSession Time) :
  length (Session.conversation_history self) ≤ 10 →
  Session.conversation_history (foldl add_call self calls)
  = list.drop (length (Session.conversation_history self ++ (recorded <$> calls)) - 10)
         (Session.conversation_history self ++ (recorded <$> calls)).
Proof.
  revert self. induction calls as [|call calls IH]; intros self Hlen.
  - cbn [foldl fmap list_fmap]. rewrite app_nil_r.
    replace (length (Session.conversation_history self) - 10) with 0 by lia. done.
  - cbn [foldl]. rewrite IH.
    2:{ rewrite add_call_history by done. rewrite length_drop. lia. }
    rewrite add_call_history by done.
    set (h := Session.conversation_history self ++ [recorded call]).
    rewrite fmap_cons.
    replace (Session.conversation_history self ++ recorded call :: (recorded <$> calls))
      with (h ++ (recorded <$> calls))
      by (subst h; by rewrite <- app_assoc).
    rewrite !length_app, length_drop.
    assert (length h - 10 ≤ length h) as Hle by lia.
    rewrite <- (drop_app_le h (recorded <$> calls) (length h - 10)) by lia.
    rewrite drop_drop. f_equal. lia.
Qed.

(** X29: After any sequence of add_interaction calls on a new session the
    history holds exactly the last ten interactions, in order (all of them
    when there were fewer), and the start time and the command count are
    unchanged. *)
Theorem session_keeps_last_ten (start : Time)
    (calls : list (Time * string * string * option string * bool)) :
  let session := foldl add_call (Session.new_session start) calls in
  Session.conversation_history session
  = list.drop (length calls - 10) (recorded <$> calls)
  ∧ length (Session.conversation_history session) = length calls `min` 10
  ∧ Session.session_start_time session = start
  ∧ Session.command_count session = 0%Z.
Proof.
  cbn zeta.
  assert (Session.conversation_history (foldl add_call (Session.new_session start) calls)
          = list.drop (length calls - 10) (recorded <$> calls)) as Hh.
  { rewrite add_calls_history by (cbn; lia).
    cbn [Session.conversation_history Session.new_session app].
    by rewrite length_fmap. }
  split_and!.
  - done.
  - rewrite Hh, length_drop, length_fmap. lia.
  - assert (∀ s, Session.session_start_time (foldl add_call s calls)
                 = Session.session_start_time s) as Hkeep.
    { clear Hh. induction calls as [|call calls IH]; intros s; [done|].
      cbn [foldl]. rewrite IH.
      by destruct call as [[[[? ?] ?] ?] ?]. }
    by rewrite Hkeep.
  - assert (∀ s, Session.command_count (foldl add_call s calls)
                 = Session.command_count s) as Hkeep.
    { clear Hh. induction calls as [|call calls IH]; intros s; [done|].
      cbn [foldl]. rewrite IH.
      by destruct call as [[[[? ?] ?] ?] ?]. }
    by rewrite Hkeep.
Qed.
End SessionWindow.

(** *** The investigation summary *)

Lemma string_drop_length n s : String.length (Py.drop n s) = String.length s - n.
Proof.
  revert s. induction n as [|n IH]; intros s; [cbn; lia|].
  destruct s as [|a s]; [done|]. cbn. apply IH.
Qed.

Lemma string_drop_suffix n s : ∃ before, s = before +:+ Py.drop n s.
Proof.
  revert s. induction n as [|n IH]; intros s; [by exists ""|].
  destruct s as [|a s]; [by exists ""|].
  destruct (IH s) as [before Hs]. exists (String a before). cbn [Py.drop].
  by rewrite append_cons, <- Hs.
Qed.

Lemma extract_investigation_summary_Some investigation_context :
  investigation_context ≠ "" →
  ∃ summary before,
    Initialization._extract_investigation_summary investigation_context = Some summary
    ∧ summary ≠ ""
    ∧ investigation_context = before +:+ summary
    ∧ String.length summary = String.length investigation_context `min` 4000.
Proof.
  intros Hne. unfold Initialization._extract_investigation_summary.
  rewrite (proj2 (nonempty_true _) Hne). unfold Initialization.last_chars.
  destruct (string_drop_suffix (String.length investigation_context - 4000)
              investigation_context) as [before Hsplit].
  eexists _, before. split_and!; [done| |done|].
  - intros Hempty.
    pose proof (string_drop_length (String.length investigation_context - 4000)
                  investigation_context) as Hlen.
    rewrite Hempty in Hlen. cbn in Hlen.
    destruct investigation_context; [done|]. cbn in Hlen. lia.
  - rewrite string_drop_length. lia.
Qed.

Lemma build_evaluation_context_nonempty prompt state :
  (_build_evaluation_context prompt state).1 ≠ "".
Proof.
  unfold _build_evaluation_context.
  repeat match goal with
         | |- context [if ?b then _ else _] => destruct b
         end; cbn [fst]; done.
Qed.

Section Investigation.
Context (repr : json → string) (self : TaskHandler)
        (get_current_session_context : Disk → string).

(** X30: Whatever handle_task returns, its context is non-empty, so
    _extract_investigation_summary always yields a summary for it: a non-empty
    suffix of the context, of 4000 characters or the whole context when that
    is shorter. *)
Theorem investigation_summary_is_always_extracted fuel prompt w success
    investigation_context w' :
  handle_task repr self get_current_session_context fuel prompt w
  = Some ((success, investigation_context), w') →
  ∃ summary before,
    Initialization._extract_investigation_summary investigation_context = Some summary
    ∧ summary ≠ ""
    ∧ investigation_context = before +:+ summary
    ∧ String.length summary = String.length investigation_context `min` 4000.
Proof.
  intros H. apply extract_investigation_summary_Some.
  unfold handle_task in H.
  destruct (handle_task_loop repr self fuel prompt prompt initial_state w)
    as [[[status state] w0]|]; cbn [mbind option_bind] in H; [|done].
  destruct (status_eqb status COMPLETED).
  - destruct (_generate_completion_summary _ _ _ _ _ _); cbn [mbind option_bind] in H;
      [|done].
    injection H as _ <- _. apply build_evaluation_context_nonempty.
  - injection H as _ <- _. apply build_evaluation_context_nonempty.
Qed.
End Investigation.

(** Witness of X30. *)
Lemma investigation_summary_is_always_extracted_witness :
  ∃ investigation_context w' summary before,
    handle_task Examples.short_repr (Examples.demo_handler true) Scenarios.no_history
      3 "list the files" (Examples.demo_world Scenarios.full_run "y")
    = Some ((true, investigation_context), w')
    ∧ Initialization._extract_investigation_summary investigation_context
      = Some summary
    ∧ summary ≠ ""
    ∧ investigation_context = before +:+ summary
    ∧ String.length summary = String.length investigation_context `min` 4000.
Proof.
  eexists _, _.
  match goal with
  | |- ∃ summary before, ?run ∧ _ => assert (H : run) by (vm_compute; reflexivity)
  end.
  destruct (investigation_summary_is_always_extracted _ _ _ _ _ _ _ _ _ H)
    as (summary & before & Hs & Hne & Hsplit & Hlen).
  exists summary, before. split_and!; [exact H|exact Hs|exact Hne|exact Hsplit|exact Hlen].
Defined.
